(** * Sleep-quality analysis: time-axis alignment, stage breakdown,
      convolutional regressor and channel importance

    A shallow embedding of [sleep_quality_analysis.py] and of the parts of
    [sleepqualityvisualization.py] that place samples on a time axis or
    label the sleep stages, with the properties of the design document
    stated and settled against it.

    Conventions of the embedding.
    - A Python [int] is a [Z]; a [datetime] is the number of microseconds
      since 0001-01-01T00:00:00 (a [Z]); a [timedelta] is a number of
      microseconds (a [Z]), which is how CPython stores and computes both.
      The two timestamps of a session are naive datetimes, or carry the
      same UTC offset.
    - A Python exception is a value of [exn]; code that may raise returns a
      [result].
    - A Python [float] (IEEE binary64) is the rational it denotes; the
      rounding of every operation is written out with [b64].
    - numpy's float32 arrays are arrays of rationals and numpy's sums and
      quotients are exact: the order in which numpy accumulates a reduction
      is not fixed by the source, so its rounding is left out, and only the
      IEEE special values of a division by zero are kept ([npfloat]). *)

From Stdlib Require Import ZArith QArith Qabs Qpower Lia Lqa List Bool Ascii String.
From stdpp Require Import base option list gmap strings.
From Stdlib.Strings Require Byte.

Local Open Scope Z_scope.

(** ** Exceptions and results *)

(** The exceptions the modelled code can raise, followed by the three error
    kinds of the design document.  No statement of the source constructs
    [InvalidInput], [DegenerateInput] or [ShapeMismatch]; they are part of
    the type so that a statement about them can be written. *)
Inductive exn : Type :=
| ZeroDivisionError
| OverflowError
| KeyError
| IndexError
| AxisError
| ValueError
| InvalidInput
| DegenerateInput
| ShapeMismatch.

Inductive result (A : Type) : Type :=
| Ok (a : A)
| Err (e : exn).
Arguments Ok {A} a.
Arguments Err {A} e.

Definition rbind {A B : Type} (r : result A) (k : A -> result B) : result B :=
  match r with
  | Ok a => k a
  | Err e => Err e
  end.

Notation "'let*' x ':=' r 'in' k" := (rbind r (fun x => k))
  (at level 10, x name, r at level 100, k at level 200).

(** A list comprehension whose element expression may raise: the elements
    are evaluated from left to right and the first exception ends it. *)
Fixpoint comprehension {A B : Type} (f : A -> result B) (l : list A)
  : result (list B) :=
  match l with
  | [] => Ok []
  | a :: l' =>
      let* b := f a in
      let* bs := comprehension f l' in
      Ok (b :: bs)
  end.

(** [range(n)] *)
Definition range (n : nat) : list Z := map Z.of_nat (seq 0 n).

(** ** [datetime] and [timedelta] *)

Module Datetime.

Definition us_per_day : Z := 86400000000.

(** [timedelta] keeps [-999999999 <= days <= 999999999], where [days] is
    the floor of the microseconds over a day. *)
Definition max_delta_days : Z := 999999999.

Definition delta_in_range (us : Z) : bool :=
  (- max_delta_days <=? us / us_per_day) && (us / us_per_day <=? max_delta_days).

Definition new_delta (us : Z) : result Z :=
  if delta_in_range us then Ok us else Err OverflowError.

(** Days from 0001-01-01 to 9999-12-31 inclusive. *)
Definition max_ordinal : Z := 3652059.

Definition valid (t : Z) : Prop := 0 <= t < max_ordinal * us_per_day.

Definition validb (t : Z) : bool :=
  (0 <=? t) && (t <? max_ordinal * us_per_day).

(** [divide_nearest(m, n)] of [_datetimemodule.c], [_divide_and_round] of
    [datetime.py]: the integer nearest to [m / n], a tie going to the
    even one.  [divmod] floors, as [Z.div] and [Z.modulo] do. *)
Definition divide_nearest (m n : Z) : Z :=
  let q := m / n in
  let r := 2 * (m mod n) in
  let greater_than_half := if 0 <? n then n <? r else r <? n in
  if greater_than_half || ((r =? n) && Z.odd q) then q + 1 else q.

(** [end - start]: the difference of two datetimes is always a valid
    timedelta. *)
Definition datetime_sub (a b : Z) : Z := a - b.

(** [delta * i] *)
Definition delta_mul (d i : Z) : result Z := new_delta (d * i).

(** [delta / k] for an [int] [k] *)
Definition delta_truediv (d k : Z) : result Z :=
  if k =? 0 then Err ZeroDivisionError else new_delta (divide_nearest d k).

(** [t + delta] *)
Definition datetime_add (t d : Z) : result Z :=
  if validb (t + d) then Ok (t + d) else Err OverflowError.

End Datetime.

(** ** The session record

    [sleep_data] is a dictionary with the keys below; the timestamps are
    taken after [datetime.fromisoformat]. *)
Record sleep_data : Type := {
  start_time : Z;
  end_time : Z;
  heart_rate : list Q;
  hrv : list Q;
  spo2 : list Q;
  wrist_temp : list Q;
  sleep_stages : gmap string Z;
  date : string
}.

(** ** Time-axis alignment of [sleep_quality_analysis.py] *)

(** [start + (end - start) * i/(n-1)], which Python reads as
    [start + (((end - start) * i) / (n - 1))]. *)
Definition align_at (start end_ : Z) (n : nat) (i : Z) : result Z :=
  let* p := Datetime.delta_mul (Datetime.datetime_sub end_ start) i in
  let* q := Datetime.delta_truediv p (Z.of_nat n - 1) in
  Datetime.datetime_add start q.

(** [[start + (end - start) * i/(n-1) for i in range(n)]] *)
Definition align (start end_ : Z) (n : nat) : result (list Z) :=
  comprehension (align_at start end_ n) (range n).

(** What a line chart draws: the title, the x data handed to [plot], the
    samples, and the axis limits that the code sets. *)
Inductive xdata : Type :=
| Times (ts : list Z)      (* a list of datetimes *)
| SampleIndex (n : nat).   (* [plot(y)]: x is the index 0 .. n-1 *)

Record line_chart : Type := {
  lc_title : string;
  lc_x : xdata;
  lc_y : list Q;
  lc_xlim : option (Z * Z);
  lc_ylim : option (Z * Z)
}.

(** The four functions differ in the channel they read, the title and the
    y-limits only. *)
Definition time_chart (title : string) (ylim : option (Z * Z))
    (start end_ : Z) (samples : list Q) : result line_chart :=
  let n := length samples in
  let* times := align start end_ n in
  Ok {| lc_title := title; lc_x := Times times; lc_y := samples;
        lc_xlim := Some (start, end_); lc_ylim := ylim |}.

Definition generate_hr_chart (d : sleep_data) : result line_chart :=
  time_chart "Heart Rate (BPM)" None (start_time d) (end_time d) (heart_rate d).

Definition generate_hrv_chart (d : sleep_data) : result line_chart :=
  time_chart "HRV" None (start_time d) (end_time d) (hrv d).

Definition generate_spo2_chart (d : sleep_data) : result line_chart :=
  time_chart "SpO2 (%)" (Some (80, 100)) (start_time d) (end_time d) (spo2 d).

Definition generate_temp_chart (d : sleep_data) : result line_chart :=
  time_chart "Wrist Temperature (°C)" None (start_time d) (end_time d) (wrist_temp d).

(** ** IEEE binary64, the Python [float] *)

Module Binary64.

(** [2^e] for any integer [e]. *)
Definition pow2 (e : Z) : Q := (2 ^ e)%Q.

(** [2^k <= a / b], for positive [a] and [b]. *)
Definition ge_pow2 (a b k : Z) : bool :=
  if 0 <=? k then b * 2 ^ k <=? a else b <=? a * 2 ^ (- k).

(** The floor of the binary logarithm of [a / b], for positive [a], [b]. *)
Definition ilog2 (a b : Z) : Z :=
  let k := Z.log2 a - Z.log2 b in
  if ge_pow2 a b k then k else k - 1.

(** The integer nearest to [q], a tie going to the even one. *)
Definition round_half_even (q : Q) : Z :=
  Datetime.divide_nearest (Qnum q) (Zpos (Qden q)).

(** The exponent of the unit in the last place of [q > 0]: 53 significant
    bits, and never below the subnormal spacing [2^-1074]. *)
Definition ulp_exponent (q : Q) : Z :=
  Z.max (ilog2 (Qnum q) (Zpos (Qden q)) - 52) (-1074).

Definition round_pos (q : Q) : Q :=
  let e := ulp_exponent q in
  (inject_Z (round_half_even (q / pow2 e)) * pow2 e)%Q.

(** Round to nearest, ties to even, with the exponent unbounded above. *)
Definition b64 (q : Q) : Q :=
  match Qnum q with
  | Z0 => 0%Q
  | Zpos _ => round_pos q
  | Zneg _ => (- round_pos (- q))%Q
  end.

(** The rounded value is beyond the largest finite binary64 number. *)
Definition overflows (q : Q) : bool :=
  Qle_bool (pow2 1024) (Qabs (b64 q)).

(** [a / b] for two [int]s: the quotient correctly rounded;
    [ZeroDivisionError] for a zero divisor, [OverflowError] when the
    quotient is too large for a float. *)
Definition int_truediv (a b : Z) : result Q :=
  if b =? 0 then Err ZeroDivisionError
  else
    let q := (inject_Z a / inject_Z b)%Q in
    if overflows q then Err OverflowError else Ok (b64 q).

(** [x * y] and [x / y] on floats whose result stays finite. *)
Definition float_mul (x y : Q) : Q := b64 (x * y).
Definition float_div (x y : Q) : Q := b64 (x / y).

(** What [f"{x:.1f}"] prints for a finite [x], in tenths: the exact value
    of the float rounded to one decimal, ties to even.  A negative zero
    is not told from zero. *)
Definition format_1f (x : Q) : Z := round_half_even (10 * x).

(** What [f"{i:.0f}"] prints for an [int] [i]: the int is converted to a
    float first ([OverflowError] when it is too large for one). *)
Definition format_0f (i : Z) : result Z :=
  if overflows (inject_Z i) then Err OverflowError
  else Ok (round_half_even (b64 (inject_Z i))).

End Binary64.

(** ** The sleep-stage breakdown *)

(** The text of the percentage in a label: a number with one decimal,
    given in tenths, or [inf] when the product by 100 left the floats. *)
Inductive percent_text : Type :=
| OneDecimal (tenths : Z)
| NotFinite.

(** The three interpolated fields of a label
    [f"{name}: {minutes}m ({percent:.1f}%)"]. *)
Record label : Type := {
  lb_stage : string;
  lb_minutes : Z;
  lb_percent : percent_text
}.

(** The arguments handed to [pie], and the title. *)
Record pie_chart : Type := {
  pc_title : string;
  pc_sizes : list Z;
  pc_labels : list label
}.

(** [sum(stages.values())] *)
Definition stage_total (stages : gmap string Z) : Z :=
  map_fold (fun _ dur acc => acc + dur) 0 stages.

(** [f"{dur/total*100:.1f}"] *)
Definition percent_1f (dur total : Z) : result percent_text :=
  let* x := Binary64.int_truediv dur total in
  if Binary64.overflows (x * 100) then Ok NotFinite
  else Ok (OneDecimal (Binary64.format_1f (Binary64.float_mul x 100))).

(** [str.title] on ASCII text: the first letter of every run of letters in
    upper case, the others in lower case. *)
Definition is_lower (c : ascii) : bool :=
  let n := nat_of_ascii c in (97 <=? n)%nat && (n <=? 122)%nat.
Definition is_upper (c : ascii) : bool :=
  let n := nat_of_ascii c in (65 <=? n)%nat && (n <=? 90)%nat.
Definition to_upper (c : ascii) : ascii :=
  if is_lower c then ascii_of_nat (nat_of_ascii c - 32) else c.
Definition to_lower (c : ascii) : ascii :=
  if is_upper c then ascii_of_nat (nat_of_ascii c + 32) else c.

Fixpoint title_from (previous_is_cased : bool) (s : string) : string :=
  match s with
  | EmptyString => EmptyString
  | String c s' =>
      if is_lower c || is_upper c
      then String (if previous_is_cased then to_lower c else to_upper c)
                  (title_from true s')
      else String c (title_from false s')
  end.

Definition str_title (s : string) : string := title_from false s.

Definition stage_names : list string := ["deep"; "rem"; "light"; "awake"].

(** [generate_sleep_stage_pie_chart] of [sleep_quality_analysis.py]: one
    pass over the four stage names, a missing key counting as 0. *)
Definition generate_sleep_stage_pie_chart (d : sleep_data) : result pie_chart :=
  let stages := sleep_stages d in
  let total := stage_total stages in
  let* entries :=
    comprehension
      (fun stage =>
         let dur := default 0 (stages !! stage) in
         let* pct := percent_1f dur total in
         Ok ({| lb_stage := str_title stage; lb_minutes := dur;
                lb_percent := pct |}, dur))
      stage_names in
  Ok {| pc_title := "Sleep Stages Breakdown - " +:+ date d;
        pc_sizes := map snd entries;
        pc_labels := map fst entries |}.

(** ** The class [SleepQualityVisualizer] *)

Module SleepQualityVisualizer.

(** [stages[key]] *)
Definition getitem (stages : gmap string Z) (key : string) : result Z :=
  match stages !! key with
  | Some v => Ok v
  | None => Err KeyError
  end.

(** [f"{name}: {stages[key]:.0f}m ({stages[key]/total*100:.1f}%)"] *)
Definition structure_label (name key : string) (stages : gmap string Z)
    (total : Z) : result label :=
  let* dur := getitem stages key in
  let* minutes := Binary64.format_0f dur in
  let* dur' := getitem stages key in
  let* pct := percent_1f dur' total in
  Ok {| lb_stage := name; lb_minutes := minutes; lb_percent := pct |}.

Definition generate_sleep_structure_chart (d : sleep_data) : result pie_chart :=
  let stages := sleep_stages d in
  let total := stage_total stages in
  let* l_deep := structure_label "Deep" "deep" stages total in
  let* l_rem := structure_label "REM" "rem" stages total in
  let* l_light := structure_label "Light" "light" stages total in
  let* l_awake := structure_label "Awake" "awake" stages total in
  let* sizes := comprehension (getitem stages) stage_names in
  Ok {| pc_title := "Sleep Structure - " +:+ date d;
        pc_sizes := sizes;
        pc_labels := [l_deep; l_rem; l_light; l_awake] |}.

(** [(end - start).total_seconds()] *)
Definition total_seconds (delta : Z) : result Q :=
  Binary64.int_truediv delta 1000000.

(** [q] without its fraction, as [modf] splits a float. *)
Definition truncate (q : Q) : Z := Z.quot (Qnum q) (Zpos (Qden q)).

(** [timedelta(hours=h)] for a float [h], as [delta_new] and [accum] of
    [_datetimemodule.c] compute it: the whole hours are converted exactly,
    the microseconds in the fraction of an hour are a float product, and
    what is left of a microsecond is rounded to the nearest, ties to
    even. *)
Definition timedelta_hours (h : Q) : result Z :=
  let intpart := truncate h in
  let fracpart := (h - inject_Z intpart)%Q in
  let whole := intpart * 3600000000 in
  let rest := Binary64.float_mul 3600000000 fracpart in
  Datetime.new_delta (Binary64.round_half_even (inject_Z whole + rest)).

(** [start + timedelta(hours=duration * i / len(hr))] *)
Definition sample_time (start : Z) (duration : Q) (n : nat) (i : Z)
  : result Z :=
  let hours := Binary64.float_div (Binary64.float_mul duration (inject_Z i))
                            (inject_Z (Z.of_nat n)) in
  let* delta := timedelta_hours hours in
  Datetime.datetime_add start delta.

Definition heart_rate_times (start end_ : Z) (n : nat) : result (list Z) :=
  let* secs := total_seconds (Datetime.datetime_sub end_ start) in
  let duration := Binary64.float_div secs 3600 in
  comprehension (sample_time start duration n) (range n).

(** The samples against their times; the rolling mean that is drawn over
    them uses the same times and is left out. *)
Definition generate_heart_rate_chart (d : sleep_data) : result line_chart :=
  let hr := heart_rate d in
  let* times := heart_rate_times (start_time d) (end_time d) (length hr) in
  Ok {| lc_title := "Heart Rate During Sleep"; lc_x := Times times;
        lc_y := hr; lc_xlim := None; lc_ylim := None |}.

(** [plt.plot(spo2)]: no time axis, the samples against their index. *)
Definition generate_spo2_trend (d : sleep_data) : result line_chart :=
  Ok {| lc_title := "SpO2 During Sleep";
        lc_x := SampleIndex (length (spo2 d)); lc_y := spo2 d;
        lc_xlim := None; lc_ylim := Some (80, 100) |}.

Definition generate_temperature_trend (d : sleep_data) : result line_chart :=
  Ok {| lc_title := "Wrist Temperature During Sleep";
        lc_x := SampleIndex (length (wrist_temp d)); lc_y := wrist_temp d;
        lc_xlim := None; lc_ylim := None |}.

End SleepQualityVisualizer.

(** ** numpy arrays *)

Module Numpy.

(** An array of rank 1, 2 or 3: its shape and its entries by index (the
    entries outside the shape are never read). *)
Inductive ndarray : Type :=
| Rank1 (n : nat) (v : nat -> Q)
| Rank2 (rows cols : nat) (m : nat -> nat -> Q)
| Rank3 (d0 d1 d2 : nat) (t : nat -> nat -> nat -> Q).

(** The value of a float division, which never raises in numpy. *)
Inductive npfloat : Type :=
| Fin (q : Q)
| PInf
| NInf
| NaN.

(** The sum of [f 0 .. f (n-1)]. *)
Fixpoint sum_upto (n : nat) (f : nat -> Q) : Q :=
  match n with
  | O => 0%Q
  | S n' => (sum_upto n' f + f n')%Q
  end.

Fixpoint sum_list (l : list Q) : Q :=
  match l with
  | [] => 0%Q
  | x :: l' => (x + sum_list l')%Q
  end.

(** Entry [c] of [np.sum(np.abs(w), axis=(0,2))] for [w] of shape
    [(d0, d1, d2)]. *)
Definition abs_sum_at (d0 d2 : nat) (t : nat -> nat -> nat -> Q) (c : nat) : Q :=
  sum_upto d0 (fun k => sum_upto d2 (fun o => Qabs (t k c o))).

(** [np.sum(np.abs(w), axis=(0,2))]: an array of rank 1 over axis 1; an
    array of smaller rank has no axis 2. *)
Definition abs_sum_axes_0_2 (w : ndarray) : result (list Q) :=
  match w with
  | Rank3 d0 d1 d2 t => Ok (map (abs_sum_at d0 d2 t) (seq 0 d1))
  | _ => Err AxisError
  end.

(** [a / s] *)
Definition divide (a s : Q) : npfloat :=
  if Qeq_bool s 0 then
    (if Qeq_bool a 0 then NaN else if Qle_bool 0 a then PInf else NInf)
  else Fin (a / s).

(** [x * w] and [x + y], where an operand may be infinite or not a number. *)
Definition np_scale (x : npfloat) (w : Q) : npfloat :=
  match x with
  | Fin a => Fin (a * w)
  | NaN => NaN
  | PInf => if Qeq_bool w 0 then NaN else if Qle_bool 0 w then PInf else NInf
  | NInf => if Qeq_bool w 0 then NaN else if Qle_bool 0 w then NInf else PInf
  end.

Definition np_add (x y : npfloat) : npfloat :=
  match x, y with
  | Fin a, Fin b => Fin (a + b)
  | NaN, _ | _, NaN => NaN
  | PInf, NInf | NInf, PInf => NaN
  | PInf, _ | _, PInf => PInf
  | NInf, _ | _, NInf => NInf
  end.

End Numpy.

Import Numpy.

(** ** The Keras model *)

(** The layers [build_sleep_cnn] uses, each with its configuration and its
    trainable weights.  A [Conv1D] kernel has shape
    [(kernel_size, input_channels, filters)], a [Dense] kernel
    [(input_units, units)].  The options are those of [build_sleep_cnn]
    throughout: a convolution has [padding='same'], [activation='relu'] and
    stride 1, a pooling layer strides by its window, a [Dense] layer is
    linear. *)
Inductive layer : Type :=
| InputLayer (input_length : Z) (channels : nat)
| Conv1D (filters kernel_size input_channels : nat)
         (kernel : nat -> nat -> nat -> Q) (bias : nat -> Q)
| MaxPooling1D (pool_size : nat)
| GlobalAveragePooling1D
| Dense (units input_units : nat) (kernel : nat -> nat -> Q) (bias : nat -> Q).

Record model : Type := {
  model_name : string;
  layers : list layer
}.

(** [layer.get_weights()] *)
Definition get_weights (l : layer) : list ndarray :=
  match l with
  | Conv1D filters kernel_size input_channels kernel bias =>
      [Rank3 kernel_size input_channels filters kernel; Rank1 filters bias]
  | Dense units input_units kernel bias =>
      [Rank2 input_units units kernel; Rank1 units bias]
  | InputLayer _ _ | MaxPooling1D _ | GlobalAveragePooling1D => []
  end.

(** [l[i]] on a Python list *)
Definition list_getitem {A : Type} (l : list A) (i : nat) : result A :=
  match l !! i with
  | Some a => Ok a
  | None => Err IndexError
  end.

Definition channel_names : list string :=
  ["heart_rate"; "hrv"; "spo2"; "wrist_temp"].

(** A dict comprehension: the pairs enter the dict from left to right. *)
Definition dict_of {V : Type} (kvs : list (string * V)) : gmap string V :=
  foldl (fun m kv => <[kv.1 := kv.2]> m) ∅ kvs.

(** [compute_channel_importance] *)
Definition compute_channel_importance (cnn_model : model)
  : result (gmap string npfloat) :=
  let* layer1 := list_getitem (layers cnn_model) 1 in
  let* w := list_getitem (get_weights layer1) 0 in
  let* abs_sum := abs_sum_axes_0_2 w in
  let total := sum_list abs_sum in
  let norms := map (fun a => divide a total) abs_sum in
  let* kvs :=
    comprehension
      (fun i =>
         let* name := list_getitem channel_names i in
         let* v := list_getitem norms i in
         Ok (name, v))
      (seq 0 (length channel_names)) in
  Ok (dict_of kvs).

(** *** Inference

    The value that flows between two layers: a sequence of shape
    [(length, channels)], or, after the global pooling, a vector.  The mean
    over an empty sequence is not a number, so a vector holds [npfloat]s. *)
Inductive tensor : Type :=
| Seq (len ch : nat) (x : nat -> nat -> Q)
| Vec (n : nat) (v : nat -> npfloat).

Definition relu (q : Q) : Q := if Qle_bool 0 q then q else 0%Q.

Definition q_max (a b : Q) : Q := if Qle_bool a b then b else a.

(** The maximum of [f 0 .. f n]. *)
Fixpoint max_upto (n : nat) (f : nat -> Q) : Q :=
  match n with
  | O => f O
  | S n' => q_max (max_upto n' f) (f n)
  end.

Fixpoint npsum_upto (n : nat) (f : nat -> npfloat) : npfloat :=
  match n with
  | O => Fin 0
  | S n' => Numpy.np_add (npsum_upto n' f) (f n')
  end.

(** Entry [(j, c)] of the sequence padded with zeros on both sides. *)
Definition padded (len : nat) (x : nat -> nat -> Q) (j : Z) (c : nat) : Q :=
  if (0 <=? j) && (j <? Z.of_nat len) then x (Z.to_nat j) c else 0%Q.

(** [Conv1D(filters, kernel_size, activation='relu', padding='same')]:
    stride 1, the output as long as the input, [(kernel_size - 1) / 2]
    zeros before the first sample. *)
Definition conv1d_same (filters kernel_size input_channels : nat)
    (kernel : nat -> nat -> nat -> Q) (bias : nat -> Q)
    (len : nat) (x : nat -> nat -> Q) : tensor :=
  let before := Z.of_nat ((kernel_size - 1) / 2) in
  Seq len filters
    (fun t o =>
       relu (sum_upto kernel_size (fun k =>
               sum_upto input_channels (fun c =>
                 padded len x (Z.of_nat t + Z.of_nat k - before) c
                 * kernel k c o))
             + bias o)%Q).

(** [MaxPooling1D(pool_size)]: windows of [pool_size] samples, one window
    after the other, an incomplete last window dropped. *)
Definition pooled_length (pool_size len : nat) : nat :=
  if (len <? pool_size)%nat then O else ((len - pool_size) / pool_size + 1)%nat.

Definition max_pooling1d (pool_size len ch : nat) (x : nat -> nat -> Q) : tensor :=
  Seq (pooled_length pool_size len) ch
    (fun t c => max_upto (pool_size - 1) (fun j => x (t * pool_size + j)%nat c)).

(** [GlobalAveragePooling1D()]: the mean over the time axis. *)
Definition global_average_pooling1d (len ch : nat) (x : nat -> nat -> Q) : tensor :=
  Vec ch (fun c => divide (sum_upto len (fun t => x t c)) (inject_Z (Z.of_nat len))).

(** [Dense(units, activation='linear')], on the last axis. *)
Definition dense_vec (units input_units : nat) (kernel : nat -> nat -> Q)
    (bias : nat -> Q) (v : nat -> npfloat) : tensor :=
  Vec units
    (fun u => Numpy.np_add (npsum_upto input_units (fun c => np_scale (v c) (kernel c u)))
                        (Fin (bias u))).

Definition dense_seq (units input_units : nat) (kernel : nat -> nat -> Q)
    (bias : nat -> Q) (len : nat) (x : nat -> nat -> Q) : tensor :=
  Seq len units
    (fun t u => (sum_upto input_units (fun c => x t c * kernel c u) + bias u)%Q).

(** A layer applied to the output of the one before it.  The convolution
    and the poolings need a sequence. *)
Definition apply_layer (l : layer) (a : tensor) : result tensor :=
  match l, a with
  | InputLayer _ _, _ => Ok a
  | Conv1D filters kernel_size input_channels kernel bias, Seq len _ x =>
      Ok (conv1d_same filters kernel_size input_channels kernel bias len x)
  | MaxPooling1D pool_size, Seq len ch x => Ok (max_pooling1d pool_size len ch x)
  | GlobalAveragePooling1D, Seq len ch x => Ok (global_average_pooling1d len ch x)
  | Dense units input_units kernel bias, Vec _ v =>
      Ok (dense_vec units input_units kernel bias v)
  | Dense units input_units kernel bias, Seq len _ x =>
      Ok (dense_seq units input_units kernel bias len x)
  | _, Vec _ _ => Err ValueError
  end.

Fixpoint forward (ls : list layer) (a : tensor) : result tensor :=
  match ls with
  | [] => Ok a
  | l :: ls' =>
      let* a' := apply_layer l a in
      forward ls' a'
  end.

(** [model.predict] on one series of shape [(len, ch)], which is Keras'
    code: the series is checked against the shape of the input layer, as
    a functional model does with every input, then passed through the
    layers. *)
Definition predict (m : model) (len ch : nat) (x : nat -> nat -> Q)
  : result tensor :=
  match layers m with
  | InputLayer input_length channels :: ls =>
      if (Z.of_nat len =? input_length) && (ch =? channels)%nat
      then forward ls (Seq len ch x)
      else Err ValueError
  | _ => Err ValueError
  end.

(** *** [build_sleep_cnn] *)

(** The values of the trainable weights: what the initialisers draw, and
    what training leaves in their place. *)
Record weights : Type := {
  conv1_kernel : nat -> nat -> nat -> Q;
  conv1_bias : nat -> Q;
  conv2_kernel : nat -> nat -> nat -> Q;
  conv2_bias : nat -> Q;
  score_kernel : nat -> nat -> Q;
  score_bias : nat -> Q
}.

Section Build.

(** Keras checks the shapes while the layers are connected and raises
    [ValueError] for an input shape it cannot push through them; which
    shapes those are is the library's business. *)
Variable shape_accepted : Z -> Z -> bool.

Variable w : weights.

Definition build_sleep_cnn (input_length channels : Z) : result model :=
  if shape_accepted input_length channels then
    let ch := Z.to_nat channels in
    Ok {| model_name := "SleepQualityCNN";
          layers :=
            [ InputLayer input_length ch;
              Conv1D 32 5 ch (conv1_kernel w) (conv1_bias w);
              MaxPooling1D 2;
              Conv1D 64 5 32 (conv2_kernel w) (conv2_bias w);
              GlobalAveragePooling1D;
              Dense 1 64 (score_kernel w) (score_bias w) ] |}
  else Err ValueError.

End Build.

(** * Statements

    The notions the properties are stated with, and the sample inputs
    they are tried on. *)

(** ** Alignment: statements *)

(** The timestamp the formula of the design gives to sample [i] of [n],
    in whole microseconds. *)
Definition aligned_timestamp (start end_ : Z) (n : nat) (i : Z) : Z :=
  start + Datetime.divide_nearest ((end_ - start) * i) (Z.of_nat n - 1).

(** [ts] is the sequence of the [n] aligned timestamps, anchored at both
    ends of the session. *)
Definition uniform_timestamps (start end_ : Z) (n : nat) (ts : list Z) : Prop :=
  length ts = n /\
  (forall i, (i < n)%nat ->
     ts !! i = Some (aligned_timestamp start end_ n (Z.of_nat i))) /\
  head ts = Some start /\
  last ts = Some end_.

(** A chart call succeeded and drew its [n] samples against such a sequence. *)
Definition chart_spans_session (d : sleep_data) (n : nat)
    (r : result line_chart) : Prop :=
  exists c ts,
    r = Ok c /\ lc_x c = Times ts /\
    uniform_timestamps (start_time d) (end_time d) n ts.

(** Both timestamps are datetimes, and [(end - start) * (n - 1)], the
    largest product the comprehension forms, is a timedelta. *)
Definition session_representable (start end_ : Z) (n : nat) : Prop :=
  Datetime.valid start /\ Datetime.valid end_ /\
  Datetime.delta_in_range ((end_ - start) * (Z.of_nat n - 1)) = true.

(** The continuous-channel entry points of [sleep_quality_analysis.py],
    each with the channel it reads. *)
Definition analysis_entry_points
  : list ((sleep_data -> result line_chart) * (sleep_data -> list Q)) :=
  [ (generate_hr_chart, heart_rate);
    (generate_hrv_chart, hrv);
    (generate_spo2_chart, spo2);
    (generate_temp_chart, wrist_temp) ].

(** [ts] is strictly increasing. *)
Definition strictly_increasing (ts : list Z) : Prop :=
  forall i j a b, (i < j)%nat -> ts !! i = Some a -> ts !! j = Some b -> a < b.

(** ** The stage breakdown: statements *)

(** A mapping with exactly the four stage keys. *)
Definition four_stages (deep rem light awake : Z) : gmap string Z :=
  <["deep" := deep]> (<["rem" := rem]> (<["light" := light]>
    (<["awake" := awake]> ∅))).

(** The invariant of the session record: the four keys and no other,
    durations that are not negative, a positive total. *)
Definition complete_stages (stages : gmap string Z) : Prop :=
  dom stages = list_to_set stage_names /\
  (forall k v, stages !! k = Some v -> 0 <= v) /\
  0 < stage_total stages.

Definition stage_durations (stages : gmap string Z) : list Z :=
  map (fun k => default 0 (stages !! k)) stage_names.

Definition analysis_titles : list string := ["Deep"; "Rem"; "Light"; "Awake"].
Definition visualizer_titles : list string := ["Deep"; "REM"; "Light"; "Awake"].

Definition labels_of (titles : list string) (durs tenths : list Z) : list label :=
  zip_with (fun nd t => {| lb_stage := nd.1; lb_minutes := nd.2;
                           lb_percent := OneDecimal t |})
           (zip titles durs) tenths.

(** The label shows [tenths / 10] for [dur / total * 100]: the two differ by
    at most 0.05, widened by what the two float operations may add, and a
    zero duration shows 0.0. *)
Definition shows_percentage (total dur tenths : Z) : Prop :=
  (Qabs (inject_Z tenths / 10 - inject_Z dur / inject_Z total * 100)
   <= (1 # 20) + (1 # 10000000))%Q /\
  (dur = 0 -> tenths = 0).

Definition sum_Z (l : list Z) : Z := foldr Z.add 0 l.

(** The call succeeded with the four stages in order, each with its
    minutes and its percentage, the percentages adding up to 100.0 within
    [tolerance] tenths. *)
Definition complete_breakdown (tolerance : Z) (titles : list string)
    (stages : gmap string Z) (r : result pie_chart) : Prop :=
  exists c tenths,
    r = Ok c /\
    length tenths = 4%nat /\
    pc_sizes c = stage_durations stages /\
    pc_labels c = labels_of titles (stage_durations stages) tenths /\
    Forall2 (shows_percentage (stage_total stages)) (stage_durations stages) tenths /\
    Z.abs (sum_Z tenths - 1000) <= tolerance.

Definition with_stages (stages : gmap string Z) : sleep_data :=
  {| start_time := 63882079200000000;
     end_time := 63882108000000000;
     heart_rate := []; hrv := []; spo2 := []; wrist_temp := [];
     sleep_stages := stages;
     date := "2025-05-06" |}.

(** ** Channel importance: statements *)

Definition is_conv (l : layer) : bool :=
  match l with
  | Conv1D _ _ _ _ _ => true
  | _ => false
  end.

(** The first convolutional layer of the model, by architectural role. *)
Definition first_conv (m : model) : option layer := List.find is_conv (layers m).

Fixpoint first_conv_index_from (i : nat) (ls : list layer) : option nat :=
  match ls with
  | [] => None
  | l :: ls' => if is_conv l then Some i else first_conv_index_from (S i) ls'
  end.

Definition first_conv_index (m : model) : option nat :=
  first_conv_index_from 0 (layers m).

Definition is_conv4 (l : layer) : Prop :=
  match l with
  | Conv1D _ _ input_channels _ _ => input_channels = 4%nat
  | _ => False
  end.

(** The precondition of the extractor: some convolutional layer has
    exactly 4 input channels. *)
Definition has_conv4 (m : model) : Prop := Exists is_conv4 (layers m).

(** The sum of absolute values per input channel of a kernel of shape
    [(kernel_size, input_channels, filters)], and their total. *)
Definition channel_abs_sum (kernel_size filters : nat)
    (kernel : nat -> nat -> nat -> Q) (c : nat) : Q :=
  abs_sum_at kernel_size filters kernel c.

Definition total_abs_sum (kernel_size input_channels filters : nat)
    (kernel : nat -> nat -> nat -> Q) : Q :=
  sum_list (map (channel_abs_sum kernel_size filters kernel) (seq 0 input_channels)).

(** The dict of the four names with the normalised sums of a kernel. *)
Definition importance_dict (kernel_size input_channels filters : nat)
    (kernel : nat -> nat -> nat -> Q) : gmap string npfloat :=
  dict_of
    (zip channel_names
         (map (fun c => divide (channel_abs_sum kernel_size filters kernel c)
                               (total_abs_sum kernel_size input_channels filters kernel))
              [0; 1; 2; 3]%nat)).

(** [r] is a dict over the four channel names whose values are the
    normalised sums of the kernel of [l], none negative, adding up to 1
    within [tolerance]. *)
Definition normalized_importance_of (tolerance : Q) (l : layer)
    (r : result (gmap string npfloat)) : Prop :=
  match l with
  | Conv1D filters kernel_size input_channels kernel _ =>
      exists dict (w : nat -> Q),
        r = Ok dict /\
        dom dict = list_to_set channel_names /\
        (forall i name, channel_names !! i = Some name ->
           dict !! name = Some (Fin (w i)) /\
           (w i == channel_abs_sum kernel_size filters kernel i
                   / total_abs_sum kernel_size input_channels filters kernel)%Q /\
           (0 <= w i)%Q) /\
        (Qabs (w 0%nat + w 1%nat + w 2%nat + w 3%nat - 1) <= tolerance)%Q
  | _ => False
  end.

(** Equality of two floats, and of two results of the extractor, up to the
    representation of a rational. *)
Definition npfloat_eq (x y : npfloat) : Prop :=
  match x, y with
  | Fin a, Fin b => (a == b)%Q
  | PInf, PInf | NInf, NInf | NaN, NaN => True
  | _, _ => False
  end.

Definition same_importance (r1 r2 : result (gmap string npfloat)) : Prop :=
  match r1, r2 with
  | Ok d1, Ok d2 =>
      forall name, option_Forall2 npfloat_eq (d1 !! name) (d2 !! name)
  | Err e1, Err e2 => e1 = e2
  | _, _ => False
  end.

(** Every output channel [o] of the kernel of a convolution multiplied by
    [s o]. *)
Definition rescale_output_channels (s : nat -> Q) (l : layer) : layer :=
  match l with
  | Conv1D filters kernel_size input_channels kernel bias =>
      Conv1D filters kernel_size input_channels
             (fun k c o => (kernel k c o * s o)%Q) bias
  | _ => l
  end.

(** The model with the output channels of its layer 1 rescaled. *)
Definition rescale_layer1 (s : nat -> Q) (m : model) : model :=
  {| model_name := model_name m;
     layers := alter (rescale_output_channels s) 1%nat (layers m) |}.

(** What the extractor does with the layer it found at index 1. *)
Definition importance_of_layer (layer1 : layer) : result (gmap string npfloat) :=
  let* w := list_getitem (get_weights layer1) 0 in
  let* abs_sum := abs_sum_axes_0_2 w in
  let total := sum_list abs_sum in
  let norms := map (fun a => divide a total) abs_sum in
  let* kvs :=
    comprehension
      (fun i =>
         let* name := list_getitem channel_names i in
         let* v := list_getitem norms i in
         Ok (name, v))
      (seq 0 (length channel_names)) in
  Ok (dict_of kvs).

(** ** Sample inputs *)

(** The night of the test scripts, 2025-05-05T22:00:00 to
    2025-05-06T06:00:00, with four samples per channel. *)
Definition night_session : sleep_data :=
  {| start_time := 63882079200000000;
     end_time := 63882108000000000;
     heart_rate := [60; 62; 61; 59]%Q;
     hrv := [50; 58; 50; 42]%Q;
     spo2 := [98; 98; 97; 98]%Q;
     wrist_temp := [36; 37; 36; 36]%Q;
     sleep_stages := <["deep" := 90]> (<["rem" := 80]> (<["light" := 200]>
                       (<["awake" := 10]> ∅)));
     date := "2025-05-06" |}.

(** The same night with two heart-rate samples. *)
Definition two_sample_session : sleep_data :=
  {| start_time := 63882079200000000;
     end_time := 63882108000000000;
     heart_rate := [60; 62]%Q;
     hrv := []; spo2 := []; wrist_temp := [];
     sleep_stages := ∅;
     date := "2025-05-06" |}.

(** The same night with a single heart-rate sample. *)
Definition one_sample_session : sleep_data :=
  {| start_time := 63882079200000000;
     end_time := 63882108000000000;
     heart_rate := [60]%Q;
     hrv := []; spo2 := []; wrist_temp := [];
     sleep_stages := ∅;
     date := "2025-05-06" |}.

(** 0001-01-01T00:00:00 to 9999-12-31T00:00:00, with 275 samples. *)
Definition longest_session : sleep_data :=
  {| start_time := 0;
     end_time := 315537811200000000;
     heart_rate := repeat 60%Q 275;
     hrv := []; spo2 := []; wrist_temp := [];
     sleep_stages := ∅;
     date := "" |}.

(** The four stages at zero, and a split that makes all four percentages
    fall halfway between two tenths. *)
Definition zero_stages : gmap string Z := four_stages 0 0 0 0.
Definition sixteenths_stages : gmap string Z := four_stages 1 1 1 13.

Definition unit_weights : weights :=
  {| conv1_kernel := fun _ _ _ => 1%Q;
     conv1_bias := fun _ => 0%Q;
     conv2_kernel := fun _ _ _ => 1%Q;
     conv2_bias := fun _ => 0%Q;
     score_kernel := fun _ _ => 1%Q;
     score_bias := fun _ => 0%Q |}.

(** Keras taken to accept every length from 2 on and every positive number
    of channels. *)
Definition accepts_from_two (input_length channels : Z) : bool :=
  (2 <=? input_length) && (1 <=? channels).

(** A pooling layer in front of the only convolution. *)
Definition pooling_first_model : model :=
  {| model_name := "pooling_first";
     layers := [ InputLayer 8 4; MaxPooling1D 2;
                 Conv1D 1 1 4 (fun _ _ _ => 1%Q) (fun _ => 0%Q) ] |}.

(** A first convolution whose kernel is zero. *)
Definition zero_kernel_model : model :=
  {| model_name := "zero_kernel";
     layers := [ InputLayer 8 4;
                 Conv1D 1 1 4 (fun _ _ _ => 0%Q) (fun _ => 0%Q) ] |}.

(** A first convolution over five input channels. *)
Definition five_channel_model : model :=
  {| model_name := "five_channels";
     layers := [ InputLayer 8 5;
                 Conv1D 1 1 5 (fun _ _ _ => 1%Q) (fun _ => 0%Q) ] |}.

(** Two filters of width 1: the first reads heart rate only, the second
    HRV only. *)
Definition two_filter_kernel (k c o : nat) : Q :=
  match c, o with
  | 0%nat, 0%nat => 1%Q
  | 1%nat, 1%nat => 1%Q
  | _, _ => 0%Q
  end.

Definition two_filter_model : model :=
  {| model_name := "two_filters";
     layers := [ InputLayer 8 4;
                 Conv1D 2 1 4 two_filter_kernel (fun _ => 0%Q) ] |}.

(** The first output channel multiplied by 3, the others left alone. *)
Definition triple_first_output (o : nat) : Q :=
  match o with
  | 0%nat => 3%Q
  | _ => 1%Q
  end.

(** What [build_sleep_cnn] returns for 4 samples of 4 channels and the
    weights at 1. *)
Definition four_sample_cnn : model :=
  {| model_name := "SleepQualityCNN";
     layers :=
       [ InputLayer 4 4;
         Conv1D 32 5 4 (conv1_kernel unit_weights) (conv1_bias unit_weights);
         MaxPooling1D 2;
         Conv1D 64 5 32 (conv2_kernel unit_weights) (conv2_bias unit_weights);
         GlobalAveragePooling1D;
         Dense 1 64 (score_kernel unit_weights) (score_bias unit_weights) ] |}.

(** * Further parts of the program

    The text form of a figure, the theme of the class, and the selection
    of the rows of the score trend. *)

(** ** Base64, as [base64.b64encode] and [base64.b64decode] compute it *)

Module Base64.

Definition alphabet : string :=
  "ABCDEFGHIJKLMNOPQRSTUVWXYZabcdefghijklmnopqrstuvwxyz0123456789+/".

Definition pad : ascii := "="%char.

(** [table_b2a_base64]: the character of a sextet. *)
Definition table_b2a (v : N) : ascii :=
  match String.get (N.to_nat v) alphabet with
  | Some c => c
  | None => pad
  end.

Fixpoint index_from (i : N) (c : ascii) (s : string) : option N :=
  match s with
  | EmptyString => None
  | String c' s' => if Ascii.eqb c c' then Some i else index_from (N.succ i) c s'
  end.

(** [table_a2b_base64]: the sextet of a character of the alphabet. *)
Definition table_a2b (c : ascii) : option N := index_from 0 c alphabet.

(** A value stored into an [unsigned char]. *)
Definition byte_of (n : N) : Byte.byte :=
  match Byte.of_N (n mod 256) with
  | Some b => b
  | None => Byte.x00
  end.

(** [binascii.b2a_base64(data, newline=False)]: three bytes give four
    characters, and the last one or two bytes are padded with [=]. *)
Fixpoint b2a_base64 (data : list Byte.byte) : list ascii :=
  match data with
  | [] => []
  | [a] =>
      let a := Byte.to_N a in
      [ table_b2a (N.shiftr a 2);
        table_b2a (N.shiftl (N.land a 3) 4);
        pad; pad ]
  | [a; b] =>
      let a := Byte.to_N a in
      let b := Byte.to_N b in
      [ table_b2a (N.shiftr a 2);
        table_b2a (N.lor (N.shiftl (N.land a 3) 4) (N.shiftr b 4));
        table_b2a (N.shiftl (N.land b 15) 2);
        pad ]
  | a :: b :: c :: rest =>
      let a := Byte.to_N a in
      let b := Byte.to_N b in
      let c := Byte.to_N c in
      table_b2a (N.shiftr a 2)
      :: table_b2a (N.lor (N.shiftl (N.land a 3) 4) (N.shiftr b 4))
      :: table_b2a (N.lor (N.shiftl (N.land b 15) 2) (N.shiftr c 6))
      :: table_b2a (N.land c 63)
      :: b2a_base64 rest
  end.

(** [binascii.a2b_base64(data)], not strict: a character outside the
    alphabet is skipped, a complete padding ends the input, and data that
    stops inside a quad is an error ([binascii.Error], a [ValueError]). *)
Fixpoint a2b_from (quad_pos : nat) (leftchar : N) (pads : nat)
    (data : list ascii) : result (list Byte.byte) :=
  match data with
  | [] => if (quad_pos =? 0)%nat then Ok [] else Err ValueError
  | ch :: data' =>
      if Ascii.eqb ch pad then
        if (2 <=? quad_pos)%nat then
          if (4 <=? quad_pos + (pads + 1))%nat then Ok []
          else a2b_from quad_pos leftchar (pads + 1) data'
        else a2b_from quad_pos leftchar pads data'
      else
        match table_a2b ch with
        | None => a2b_from quad_pos leftchar pads data'
        | Some v =>
            match quad_pos with
            | 0%nat => a2b_from 1 v 0 data'
            | 1%nat =>
                let* rest := a2b_from 2 (N.land v 15) 0 data' in
                Ok (byte_of (N.lor (N.shiftl leftchar 2) (N.shiftr v 4)) :: rest)
            | 2%nat =>
                let* rest := a2b_from 3 (N.land v 3) 0 data' in
                Ok (byte_of (N.lor (N.shiftl leftchar 4) (N.shiftr v 2)) :: rest)
            | _ =>
                let* rest := a2b_from 0 0 0 data' in
                Ok (byte_of (N.lor (N.shiftl leftchar 6) v) :: rest)
            end
        end
  end.

Definition is_ascii (c : ascii) : bool := (N_of_ascii c <? 128)%N.

(** [base64.b64encode(data).decode('utf-8')] *)
Definition b64encode_text (data : list Byte.byte) : result string :=
  let encoded := b2a_base64 data in
  if forallb is_ascii encoded then Ok (string_of_list_ascii encoded)
  else Err ValueError.

(** [base64.b64decode(s)] for a [str]: the text must be ASCII. *)
Definition b64decode (s : string) : result (list Byte.byte) :=
  let data := list_ascii_of_string s in
  if forallb is_ascii data then a2b_from 0 0 0 data else Err ValueError.

End Base64.

(** ** Figures as text

    [_fig_to_base64] of [sleep_quality_analysis.py] and
    [_figure_to_base64] of the class save the figure as PNG and return the
    bytes in Base64; [png] stands for the bytes matplotlib wrote.
    [save_png] of the two test scripts decodes the text and writes the
    bytes to the file; its result is what the file holds. *)
Definition _fig_to_base64 (png : list Byte.byte) : result string :=
  Base64.b64encode_text png.

Definition _figure_to_base64 (png : list Byte.byte) : result string :=
  Base64.b64encode_text png.

Definition save_png (b64_str : string) : result (list Byte.byte) :=
  Base64.b64decode b64_str.

(** ** The theme of the class

    [__init__] keeps the theme and calls [_set_style], which chooses the
    matplotlib style and the palette; the visualizer is the three
    attributes of [self]. *)
Record visualizer : Type := {
  theme : string;
  style : string;
  colors : gmap string string
}.

Definition dark_colors : gmap string string :=
  dict_of [ ("primary", "#4287f5"); ("secondary", "#42c6ff");
            ("accent", "#f542a7"); ("deep", "#5d36f4"); ("rem", "#3fa6ff");
            ("light", "#a1c7ff"); ("awake", "#f55142"); ("text", "#ffffff");
            ("background", "#1a1a1a") ].

Definition light_colors : gmap string string :=
  dict_of [ ("primary", "#2c6bf2"); ("secondary", "#0a9df5");
            ("accent", "#f542a7"); ("deep", "#3624b3"); ("rem", "#3fa6ff");
            ("light", "#a1c7ff"); ("awake", "#f55142"); ("text", "#333333");
            ("background", "#ffffff") ].

Definition _set_style (theme : string) : string * gmap string string :=
  if String.eqb theme "dark" then ("dark_background", dark_colors)
  else ("seaborn-v0_8-whitegrid", light_colors).

Definition __init__ (theme : string) : visualizer :=
  let sc := _set_style theme in
  {| theme := theme; style := sc.1; colors := sc.2 |}.

(** ** The smoothed line of [generate_heart_rate_chart]

    [window = max(5, len(hr)//20)], and the rolling mean is drawn
    [if len(hr) > window]. *)
Definition rolling_window (n : nat) : nat := Nat.max 5 (n / 20).

Definition draws_rolling_mean (n : nat) : bool := (rolling_window n <? n)%nat.

(** ** The score trend of the class

    An item of [data] is a dictionary with the keys [date] and
    [sleep_quality_score]; the date is taken after
    [datetime.fromisoformat]. *)
Record score_entry : Type := {
  entry_date : Z;
  sleep_quality_score : Q
}.

(** [l[start:]], with Python's reading of a negative or too large
    [start]. *)
Definition slice_from {A : Type} (start : Z) (l : list A) : list A :=
  let n := Z.of_nat (length l) in
  let first := if start <? 0 then Z.max (start + n) 0 else Z.min start n in
  drop (Z.to_nat first) l.

(** What [generate_sleep_quality_trend] returns: the empty text, or the
    picture of the rows it plots with the latest row and the integer
    written next to it; or nothing, when the frame is empty and
    [np.polyfit] raises on it.  The dashed trend line is computed from the
    plotted rows by numpy and is left out. *)
Inductive trend_outcome : Type :=
| EmptyText
| TrendChart (rows : list score_entry) (latest : score_entry) (annotation : Z)
| PolyfitRaises.

Section Trend.

(** [df.sort_values('date')]: pandas sorts with an unstable algorithm, so
    the order of rows with equal dates is the library's business. *)
Variable sort_values : list score_entry -> list score_entry.

(** The rows that are plotted:
    [df = df.sort_values('date'); if len(df) > days: df = df.iloc[-days:]] *)
Definition trend_rows (data : list score_entry) (days : Z) : list score_entry :=
  let df := sort_values data in
  if days <? Z.of_nat (length df) then slice_from (- days) df else df.

Definition generate_sleep_quality_trend (data : list score_entry) (days : Z)
  : trend_outcome :=
  match data with
  | [] => EmptyText
  | _ :: _ =>
      let df := trend_rows data days in
      match last df with
      | None => PolyfitRaises
      | Some latest =>
          TrendChart df latest
            (SleepQualityVisualizer.truncate (sleep_quality_score latest))
      end
  end.

End Trend.

(** * Further statements *)

(** ** Alignment *)

Definition non_decreasing (ts : list Z) : Prop :=
  forall i j a b, (i < j)%nat -> ts !! i = Some a -> ts !! j = Some b -> a <= b.

Definition non_increasing (ts : list Z) : Prop :=
  forall i j a b, (i < j)%nat -> ts !! i = Some a -> ts !! j = Some b -> b <= a.

(** The night of the test scripts with its two ends exchanged. *)
Definition reversed_session : sleep_data :=
  {| start_time := 63882108000000000;
     end_time := 63882079200000000;
     heart_rate := [60; 62; 61; 59]%Q;
     hrv := []; spo2 := []; wrist_temp := [];
     sleep_stages := ∅;
     date := "2025-05-06" |}.

(** ** The stage breakdown *)

(** Every duration of the mapping is non-negative. *)
Definition non_negative_durations (stages : gmap string Z) : Prop :=
  forall k v, stages !! k = Some v -> 0 <= v.

(** The percentages of the labels of a breakdown, in order. *)
Definition percentages (r : result pie_chart) : result (list percent_text) :=
  let* c := r in Ok (map lb_percent (pc_labels c)).

Definition minutes (r : result pie_chart) : result (list Z) :=
  let* c := r in Ok (map lb_minutes (pc_labels c)).

Definition sizes (r : result pie_chart) : result (list Z) :=
  let* c := r in Ok (pc_sizes c).

Definition titles (r : result pie_chart) : result (list string) :=
  let* c := r in Ok (map lb_stage (pc_labels c)).

(** The same session with every duration multiplied by [c], as when minutes
    are given in another unit. *)
Definition scale_stages (c : Z) (d : sleep_data) : sleep_data :=
  {| start_time := start_time d; end_time := end_time d;
     heart_rate := heart_rate d; hrv := hrv d; spo2 := spo2 d;
     wrist_temp := wrist_temp d;
     sleep_stages := Z.mul c <$> sleep_stages d;
     date := date d |}.

(** A night without the key [awake], and one spent in a single stage. *)
Definition no_awake_stages : gmap string Z :=
  <["deep" := 90]> (<["rem" := 80]> (<["light" := 200]> ∅)).

Definition light_only_stages : gmap string Z := <["light" := 400]> ∅.

(** ** Channel importance *)

(** The model with another layer at index 1. *)
Definition replace_layer1 (l : layer) (m : model) : model :=
  {| model_name := model_name m;
     layers := <[1%nat := l]> (layers m) |}.

(** Input channel [c] of the kernel is zero everywhere. *)
Definition dead_channel (kernel_size filters : nat)
    (kernel : nat -> nat -> nat -> Q) (c : nat) : Prop :=
  forall k o, (k < kernel_size)%nat -> (o < filters)%nat ->
    (kernel k c o == 0)%Q.

(** Two width-1 filters with opposite signs and other biases than
    [two_filter_model]. *)
Definition signed_filter_kernel (k c o : nat) : Q :=
  match c, o with
  | 0%nat, 0%nat => (-1)%Q
  | 1%nat, 1%nat => 1%Q
  | _, _ => 0%Q
  end.

(** A first convolution over six input channels, the last two of them
    unused. *)
Definition six_channel_kernel (k c o : nat) : Q :=
  if (c <? 4)%nat then 1%Q else 0%Q.

Definition six_channel_model : model :=
  {| model_name := "six_channels";
     layers := [ InputLayer 8 6;
                 Conv1D 2 3 6 six_channel_kernel (fun _ => 0%Q) ] |}.

(** ** Figures as text *)

(** The characters a Base64 text is made of. *)
Definition base64_char (c : ascii) : Prop :=
  c = Base64.pad \/ exists v, (v < 64)%N /\ c = Base64.table_b2a v.

(** Checks by enumeration: a property of every number below [n], and what
    the sextets of two neighbouring bytes must satisfy for the decoder to
    give the bytes back. *)
Module Base64Checks.
Local Open Scope N_scope.

Definition below (n : nat) (P : N -> bool) : bool :=
  forallb P (map N.of_nat (seq 0 n)).

Definition pair_check (a b : N) : bool :=
  let s0 := N.shiftr a 2 in
  let s1 := N.lor (N.shiftl (N.land a 3) 4) (N.shiftr b 4) in
  let s1' := N.shiftl (N.land a 3) 4 in
  let s2 := N.lor (N.shiftl (N.land a 15) 2) (N.shiftr b 6) in
  let s2' := N.shiftl (N.land a 15) 2 in
  let s3 := N.land a 63 in
  (s0 <? 64) && (s1 <? 64) && (s1' <? 64) && (s2 <? 64) && (s2' <? 64)
  && (s3 <? 64)
  && (N.lor (N.shiftl s0 2) (N.shiftr s1 4) =? a)
  && (N.lor (N.shiftl s0 2) (N.shiftr s1' 4) =? a)
  && (N.land s1 15 =? N.shiftr b 4)
  && (N.lor (N.shiftl (N.shiftr a 4) 4) (N.shiftr s2 2) =? a)
  && (N.lor (N.shiftl (N.shiftr a 4) 4) (N.shiftr s2' 2) =? a)
  && (N.land s2 3 =? N.shiftr b 6)
  && (N.lor (N.shiftl (N.shiftr a 6) 6) s3 =? a).

End Base64Checks.

(** ** The theme *)

(** The keys of [self.colors] that each method of the class reads, in the
    order of the source. *)
Definition colors_read : list (string * list string) :=
  [ ("generate_score_card", ["primary"; "text"]);
    ("generate_sleep_quality_trend",
     ["primary"; "secondary"; "accent"; "text"]);
    ("generate_sleep_structure_chart", ["deep"; "rem"; "light"; "awake"]);
    ("generate_heart_rate_chart", ["primary"; "accent"]);
    ("generate_hrv_trend", ["deep"]);
    ("generate_spo2_trend", ["rem"]);
    ("generate_temperature_trend", ["light"]) ].

Definition palette_keys : list string :=
  ["primary"; "secondary"; "accent"; "deep"; "rem"; "light"; "awake";
   "text"; "background"].

(** ** The score trend *)

(** [sort_values] returns the rows it was given, ordered by date. *)
Definition sorts_by_date
    (sort_values : list score_entry -> list score_entry) : Prop :=
  forall l, sort_values l ≡ₚ l /\
            non_decreasing (map entry_date (sort_values l)).

(** A sort by insertion, and the history of the test script out of order. *)
Fixpoint insert_by_date (e : score_entry) (l : list score_entry)
  : list score_entry :=
  match l with
  | [] => [e]
  | x :: l' =>
      if entry_date e <=? entry_date x then e :: x :: l'
      else x :: insert_by_date e l'
  end.

Definition insertion_sort (l : list score_entry) : list score_entry :=
  foldr insert_by_date [] l.

Definition score_history : list score_entry :=
  [ {| entry_date := 63881827200000000; sleep_quality_score := 78 |};
    {| entry_date := 63881654400000000; sleep_quality_score := 75 |};
    {| entry_date := 63882086400000000; sleep_quality_score := 83 |};
    {| entry_date := 63881740800000000; sleep_quality_score := 80 |};
    {| entry_date := 63882000000000000; sleep_quality_score := 79 |};
    {| entry_date := 63881913600000000; sleep_quality_score := 82 |} ].

(** * Properties *)

(** ** The scenarios of the design document, by computation *)

(** 480 heart-rate samples over the night: 480 timestamps from 22:00:00 to
    06:00:00 of the next day. *)
Example scenario_480_samples :
  match align (start_time night_session) (end_time night_session) 480 with
  | Ok ts =>
      length ts = 480%nat /\
      head ts = Some (start_time night_session) /\
      last ts = Some (end_time night_session)
  | Err _ => False
  end.
Proof. vm_compute. repeat split. Qed.

(** Four samples over the eight hours are 2 h 40 min apart. *)
Example scenario_four_samples :
  align 63882079200000000 63882108000000000 4
  = Ok [63882079200000000; 63882088800000000; 63882098400000000;
        63882108000000000].
Proof. vm_compute. reflexivity. Qed.

(** [deep: 90, rem: 80, light: 200, awake: 10]: 23.7, 21.1, 52.6 and 2.6
    percent. *)
Example scenario_stage_percentages :
  generate_sleep_stage_pie_chart night_session
  = Ok {| pc_title := "Sleep Stages Breakdown - 2025-05-06";
          pc_sizes := [90; 80; 200; 10];
          pc_labels := labels_of analysis_titles [90; 80; 200; 10]
                                 [237; 211; 526; 26] |}.
Proof. vm_compute. reflexivity. Qed.

Example scenario_stage_percentages_class :
  SleepQualityVisualizer.generate_sleep_structure_chart night_session
  = Ok {| pc_title := "Sleep Structure - 2025-05-06";
          pc_sizes := [90; 80; 200; 10];
          pc_labels := labels_of visualizer_titles [90; 80; 200; 10]
                                 [237; 211; 526; 26] |}.
Proof. vm_compute. reflexivity. Qed.

(** A kernel of equal magnitude on the four input channels: 0.25 each. *)
Example scenario_equal_magnitude :
  forall name, name ∈ channel_names ->
    match compute_channel_importance four_sample_cnn with
    | Ok dict =>
        match dict !! name with
        | Some (Fin q) => Qeq_bool q (1 # 4) = true
        | _ => False
        end
    | Err _ => False
    end.
Proof.
  intros name Hin. unfold channel_names in Hin.
  rewrite !elem_of_cons, elem_of_nil in Hin.
  destruct Hin as [->|[->|[->|[->|[]]]]]; vm_compute; reflexivity.
Qed.

(** The double nearest to 0.1, and the score of the unit network on a
    series of ones. *)
Example binary64_one_tenth :
  Qred (Binary64.b64 (1 # 10)) = (3602879701896397 # 36028797018963968)%Q.
Proof. vm_compute. reflexivity. Qed.

Example predict_ones :
  match predict four_sample_cnn 4 4 (fun _ _ => 1%Q) with
  | Ok (Vec 1 v) =>
      match v O with
      | Fin q => Qeq_bool q 65536 = true
      | _ => False
      end
  | _ => False
  end.
Proof. vm_compute. reflexivity. Qed.

(** ** Results and comprehensions *)

Lemma comprehension_ok {A B : Type} (f : A -> result B) (g : A -> B) (l : list A) :
  (forall a, In a l -> f a = Ok (g a)) ->
  comprehension f l = Ok (map g l).
Proof.
  induction l as [|a l IH]; intros Hf; simpl.
  - reflexivity.
  - rewrite (Hf a) by (left; reflexivity). simpl.
    rewrite IH by (intros b Hb; apply Hf; right; exact Hb).
    reflexivity.
Qed.

Lemma comprehension_first_error {A B : Type} (f : A -> result B) (a : A)
    (l : list A) (e : exn) :
  f a = Err e -> comprehension f (a :: l) = Err e.
Proof. intros H. simpl. rewrite H. reflexivity. Qed.

Lemma in_range_iff (n : nat) (i : Z) :
  In i (range n) <-> 0 <= i < Z.of_nat n.
Proof.
  unfold range. rewrite in_map_iff. split.
  - intros (k & <- & Hk). apply in_seq in Hk. lia.
  - intros Hi. exists (Z.to_nat i). split; [lia|]. apply in_seq. lia.
Qed.

Lemma range_lookup (n i : nat) :
  (i < n)%nat -> range n !! i = Some (Z.of_nat i).
Proof.
  intros Hi. unfold range.
  change (map Z.of_nat (seq 0 n)) with (Z.of_nat <$> seq 0 n).
  rewrite list_lookup_fmap, lookup_seq_lt by exact Hi. reflexivity.
Qed.

Lemma map_lookup_range {B : Type} (g : Z -> B) (n i : nat) :
  (i < n)%nat -> map g (range n) !! i = Some (g (Z.of_nat i)).
Proof.
  intros Hi. change (map g (range n)) with (g <$> range n).
  rewrite list_lookup_fmap, range_lookup by exact Hi. reflexivity.
Qed.

Lemma length_range (n : nat) : length (range n) = n.
Proof. unfold range. rewrite length_map, length_seq. reflexivity. Qed.

(** ** [divide_nearest] *)

Module DatetimeFacts.
Import Datetime.

Lemma divide_nearest_spec (m n : Z) :
  0 < n -> 2 * Z.abs (divide_nearest m n * n - m) <= n.
Proof.
  intros Hn. unfold divide_nearest.
  pose proof (Z.div_mod m n ltac:(lia)) as Hdm.
  pose proof (Z.mod_pos_bound m n Hn) as Hr.
  set (q := m / n) in *. set (r := m mod n) in *.
  assert (Hpos : (0 <? n) = true) by (apply Z.ltb_lt; exact Hn).
  rewrite Hpos.
  destruct (n <? 2 * r) eqn:Hgt; simpl.
  - apply Z.ltb_lt in Hgt. lia.
  - apply Z.ltb_ge in Hgt.
    destruct (2 * r =? n) eqn:Heq; simpl.
    + apply Z.eqb_eq in Heq. destruct (Z.odd q); lia.
    + lia.
Qed.

Lemma divide_nearest_exact (k n : Z) :
  0 < n -> divide_nearest (k * n) n = k.
Proof.
  intros Hn. unfold divide_nearest.
  rewrite Z.div_mul, Z.mod_mul by lia.
  assert (Hpos : (0 <? n) = true) by (apply Z.ltb_lt; exact Hn).
  rewrite Hpos.
  assert (H1 : (n <? 2 * 0) = false) by (apply Z.ltb_ge; lia).
  assert (H2 : (2 * 0 =? n) = false) by (apply Z.eqb_neq; lia).
  rewrite H1, H2. reflexivity.
Qed.

Lemma divide_nearest_0 (n : Z) : 0 < n -> divide_nearest 0 n = 0.
Proof. intros Hn. apply (divide_nearest_exact 0 n Hn). Qed.

Lemma divide_nearest_bounds (m n hi : Z) :
  0 < n -> 0 <= m <= hi * n -> 0 <= divide_nearest m n <= hi.
Proof.
  intros Hn Hm. pose proof (divide_nearest_spec m n Hn) as Hs.
  set (q := divide_nearest m n) in *. split; nia.
Qed.

Lemma divide_nearest_increasing (m m' n : Z) :
  0 < n -> m + n < m' -> divide_nearest m n < divide_nearest m' n.
Proof.
  intros Hn Hm.
  pose proof (divide_nearest_spec m n Hn) as Hs.
  pose proof (divide_nearest_spec m' n Hn) as Hs'.
  set (q := divide_nearest m n) in *. set (q' := divide_nearest m' n) in *.
  nia.
Qed.

Lemma delta_in_range_between (a b : Z) :
  0 <= a <= b -> delta_in_range b = true -> delta_in_range a = true.
Proof.
  unfold delta_in_range, max_delta_days, us_per_day. intros Hab Hb.
  apply andb_true_iff in Hb as [_ Hb]. apply Z.leb_le in Hb.
  apply andb_true_iff. split; apply Z.leb_le.
  - pose proof (Z.div_pos a 86400000000 ltac:(lia) ltac:(lia)). lia.
  - pose proof (Z.div_le_mono a b 86400000000 ltac:(lia) ltac:(lia)). lia.
Qed.

Lemma delta_in_range_datetimes (a b : Z) :
  valid a -> valid b -> a <= b -> delta_in_range (b - a) = true.
Proof.
  unfold valid, delta_in_range, max_delta_days, max_ordinal, us_per_day.
  intros Ha Hb Hab. apply andb_true_iff. split; apply Z.leb_le.
  - pose proof (Z.div_pos (b - a) 86400000000 ltac:(lia) ltac:(lia)). lia.
  - pose proof (Z.div_le_mono (b - a) (3652059 * 86400000000) 86400000000
                  ltac:(lia) ltac:(lia)) as H.
    rewrite Z.div_mul in H by lia. lia.
Qed.

End DatetimeFacts.

(** ** Alignment *)

Section Alignment.
Import Datetime DatetimeFacts.

Variables (start end_ : Z) (n : nat).
Hypothesis Hrep : session_representable start end_ n.
Hypothesis Horder : start <= end_.
Hypothesis Hn : (2 <= n)%nat.

Lemma align_at_ok (i : Z) :
  0 <= i < Z.of_nat n ->
  align_at start end_ n i = Ok (aligned_timestamp start end_ n i).
Proof.
  intros Hi. destruct Hrep as (Hs & He & Hmax).
  unfold align_at, aligned_timestamp, delta_mul, delta_truediv, datetime_sub,
  new_delta.
  assert (Hprod : 0 <= (end_ - start) * i <= (end_ - start) * (Z.of_nat n - 1))
    by nia.
  rewrite (delta_in_range_between _ _ Hprod Hmax). simpl.
  assert (Hk : (Z.of_nat n - 1 =? 0) = false) by (apply Z.eqb_neq; lia).
  rewrite Hk.
  pose proof (divide_nearest_bounds ((end_ - start) * i) (Z.of_nat n - 1)
                (end_ - start) ltac:(lia) ltac:(nia)) as Hq.
  assert (Hd : delta_in_range (end_ - start) = true)
    by (apply delta_in_range_datetimes; assumption).
  rewrite (delta_in_range_between _ _ Hq Hd). simpl.
  unfold datetime_add, validb. unfold valid in Hs, He.
  assert (Hv : ((0 <=? start + divide_nearest ((end_ - start) * i) (Z.of_nat n - 1))
                && (start + divide_nearest ((end_ - start) * i) (Z.of_nat n - 1)
                    <? max_ordinal * us_per_day)) = true).
  { apply andb_true_iff. split; [apply Z.leb_le | apply Z.ltb_lt]; lia. }
  rewrite Hv. reflexivity.
Qed.

Lemma align_ok :
  align start end_ n = Ok (map (aligned_timestamp start end_ n) (range n)).
Proof.
  unfold align. apply comprehension_ok.
  intros i Hi. apply align_at_ok. apply in_range_iff. exact Hi.
Qed.

Lemma aligned_uniform :
  uniform_timestamps start end_ n (map (aligned_timestamp start end_ n) (range n)).
Proof.
  unfold uniform_timestamps. repeat split.
  - rewrite length_map, length_range. reflexivity.
  - intros i Hi. apply map_lookup_range. exact Hi.
  - rewrite head_lookup, map_lookup_range by lia.
    unfold aligned_timestamp. change (Z.of_nat 0) with 0.
    rewrite Z.mul_0_r, divide_nearest_0 by lia. f_equal. lia.
  - rewrite last_lookup, length_map, length_range.
    rewrite map_lookup_range by lia.
    unfold aligned_timestamp.
    replace (Z.of_nat (Nat.pred n)) with (Z.of_nat n - 1) by lia.
    rewrite divide_nearest_exact by lia. f_equal. lia.
Qed.

(** Each timestamp is the whole microsecond nearest to the exact value
    [start + (end - start) * i / (n - 1)]. *)
Lemma aligned_timestamp_nearest (i : Z) :
  2 * Z.abs ((aligned_timestamp start end_ n i - start) * (Z.of_nat n - 1)
             - (end_ - start) * i) <= Z.of_nat n - 1.
Proof.
  unfold aligned_timestamp.
  pose proof (divide_nearest_spec ((end_ - start) * i) (Z.of_nat n - 1)
                ltac:(lia)) as H.
  replace (start + divide_nearest ((end_ - start) * i) (Z.of_nat n - 1) - start)
    with (divide_nearest ((end_ - start) * i) (Z.of_nat n - 1)) by lia.
  exact H.
Qed.

Lemma aligned_timestamp_lt (i j : nat) :
  Z.of_nat n - 1 <= end_ - start ->
  (i < j)%nat ->
  aligned_timestamp start end_ n (Z.of_nat i)
  < aligned_timestamp start end_ n (Z.of_nat j).
Proof.
  intros Hgap Hij. unfold aligned_timestamp.
  apply Z.add_lt_mono_l.
  destruct (Z.eq_dec (end_ - start) (Z.of_nat n - 1)) as [Heq|Hne].
  - rewrite Heq.
    rewrite (Z.mul_comm _ (Z.of_nat i)), (Z.mul_comm _ (Z.of_nat j)).
    rewrite !divide_nearest_exact by lia. lia.
  - apply divide_nearest_increasing; [lia | nia].
Qed.

Lemma aligned_increasing_iff :
  strictly_increasing (map (aligned_timestamp start end_ n) (range n))
  <-> Z.of_nat n - 1 <= end_ - start.
Proof.
  split.
  - intros Hinc.
    assert (Hstep : forall k, (k < n)%nat ->
               start + Z.of_nat k <= aligned_timestamp start end_ n (Z.of_nat k)).
    { induction k as [|k IH]; intros Hk.
      - unfold aligned_timestamp. change (Z.of_nat 0) with 0.
        rewrite Z.mul_0_r, divide_nearest_0 by lia. lia.
      - specialize (IH ltac:(lia)).
        pose proof (Hinc k (S k) _ _ ltac:(lia)
                      (map_lookup_range _ n k ltac:(lia))
                      (map_lookup_range _ n (S k) Hk)) as Hlt.
        lia. }
    specialize (Hstep (Nat.pred n) ltac:(lia)).
    unfold aligned_timestamp in Hstep.
    replace (Z.of_nat (Nat.pred n)) with (Z.of_nat n - 1) in Hstep by lia.
    rewrite divide_nearest_exact in Hstep by lia. lia.
  - intros Hgap i j a b Hij Ha Hb.
    assert (Hj : (j < n)%nat).
    { apply lookup_lt_Some in Hb.
      rewrite length_map, length_range in Hb. exact Hb. }
    rewrite map_lookup_range in Ha by lia.
    rewrite map_lookup_range in Hb by lia.
    injection Ha as <-. injection Hb as <-.
    apply aligned_timestamp_lt; assumption.
Qed.

End Alignment.

(** ** The claims on alignment *)

(** C1, as far as it holds.  For a session with [end > start], a channel
    of [n >= 2] samples and [(end - start) * (n - 1)] within the range of a
    timedelta, each of the four chart functions of
    [sleep_quality_analysis.py] succeeds and draws the samples against [n]
    timestamps, the one at index [i] being
    [start + (end - start) * i / (n - 1)] rounded to the nearest microsecond
    (ties to even), the first equal to [start] and the last to [end]. *)
Theorem analysis_charts_span_session
    (d : sleep_data)
    (chart : sleep_data -> result line_chart) (channel : sleep_data -> list Q) :
  In (chart, channel) analysis_entry_points ->
  start_time d < end_time d ->
  (2 <= length (channel d))%nat ->
  session_representable (start_time d) (end_time d) (length (channel d)) ->
  chart_spans_session d (length (channel d)) (chart d) /\
  forall c ts i t,
    chart d = Ok c -> lc_x c = Times ts -> ts !! i = Some t ->
    lc_y c = channel d /\
    2 * Z.abs ((t - start_time d) * (Z.of_nat (length (channel d)) - 1)
               - (end_time d - start_time d) * Z.of_nat i)
    <= Z.of_nat (length (channel d)) - 1.
Proof.
  intros Hin Hlt Hn Hrep.
  assert (Hchart : exists title ylim,
             chart d = time_chart title ylim (start_time d) (end_time d) (channel d)).
  { simpl in Hin.
    destruct Hin as [H|[H|[H|[H|[]]]]]; injection H as <- <-; eauto. }
  destruct Hchart as (title & ylim & ->).
  unfold time_chart.
  rewrite (align_ok _ _ _ Hrep ltac:(lia) Hn). simpl.
  split.
  - eexists _, _. split; [reflexivity|]. split; [reflexivity|].
    apply aligned_uniform. exact Hn.
  - intros c ts i t Hc Hx Ht. injection Hc as <-. simpl in Hx.
    injection Hx as <-. split; [reflexivity|].
    assert (Hi : (i < length (channel d))%nat).
    { apply lookup_lt_Some in Ht.
      rewrite length_map, length_range in Ht. exact Ht. }
    rewrite map_lookup_range in Ht by exact Hi. injection Ht as <-.
    apply aligned_timestamp_nearest. exact Hn.
Qed.

Lemma analysis_charts_span_session_witness :
  chart_spans_session night_session 4 (generate_hr_chart night_session).
Proof.
  apply (analysis_charts_span_session night_session generate_hr_chart heart_rate).
  - left. reflexivity.
  - unfold night_session. simpl. lia.
  - unfold night_session. simpl. lia.
  - unfold session_representable, Datetime.valid, Datetime.max_ordinal,
      Datetime.us_per_day, night_session. simpl.
    split; [lia | split; [lia | reflexivity]].
Defined.

(** C1 fails as stated.  In [SleepQualityVisualizer.generate_heart_rate_chart]
    the step is [(end - start) / n]: with two samples over the eight hours
    the second timestamp is four hours after [start], not [end].  And in
    [generate_hr_chart] the product [(end - start) * i] leaves the range of
    a timedelta for a session of 3652058 days with 275 samples. *)
Lemma not_every_chart_spans_session :
  ~ chart_spans_session two_sample_session 2
      (SleepQualityVisualizer.generate_heart_rate_chart two_sample_session) /\
  generate_hr_chart longest_session = Err OverflowError.
Proof.
  split.
  - intros (c & ts & Hc & Hx & _ & _ & _ & Hlast).
    vm_compute in Hc. injection Hc as <-. simpl in Hx. injection Hx as <-.
    vm_compute in Hlast. discriminate Hlast.
  - vm_compute. reflexivity.
Qed.

(** C6, as the code has it.  With a single sample the comprehension
    evaluates [(end - start) * 0 / 0]: each of the four chart functions
    ends in the [ZeroDivisionError] of that division. *)
Theorem single_sample_raises_zero_division
    (d : sleep_data)
    (chart : sleep_data -> result line_chart) (channel : sleep_data -> list Q) :
  In (chart, channel) analysis_entry_points ->
  length (channel d) = 1%nat ->
  align (start_time d) (end_time d) 1 = Err ZeroDivisionError /\
  chart d = Err ZeroDivisionError.
Proof.
  intros Hin Hlen.
  assert (Halign : align (start_time d) (end_time d) 1 = Err ZeroDivisionError).
  { unfold align, range. simpl. unfold align_at, Datetime.delta_mul, Datetime.datetime_sub.
    rewrite Z.mul_0_r. reflexivity. }
  split; [exact Halign|].
  simpl in Hin.
  destruct Hin as [H|[H|[H|[H|[]]]]]; injection H as <- <-;
    unfold generate_hr_chart, generate_hrv_chart, generate_spo2_chart,
           generate_temp_chart, time_chart;
    rewrite Hlen, Halign; reflexivity.
Qed.

Lemma single_sample_raises_zero_division_witness :
  generate_hr_chart one_sample_session = Err ZeroDivisionError.
Proof.
  apply (single_sample_raises_zero_division one_sample_session
           generate_hr_chart heart_rate).
  - left. reflexivity.
  - reflexivity.
Defined.

(** C6 fails as stated: the error of a single-sample channel is not
    [InvalidInput]. *)
Lemma single_sample_not_invalid_input :
  align (start_time one_sample_session) (end_time one_sample_session) 1
    <> Err InvalidInput /\
  generate_hr_chart one_sample_session <> Err InvalidInput.
Proof. split; vm_compute; discriminate. Qed.

(** C8, as far as it holds.  For [n >= 2], [end >= start] and a
    representable session the aligner returns a sequence that is strictly
    increasing exactly when [end - start] is at least [n - 1]
    microseconds. *)
Theorem alignment_increasing_iff (start end_ : Z) (n : nat) :
  session_representable start end_ n ->
  start <= end_ ->
  (2 <= n)%nat ->
  exists ts,
    align start end_ n = Ok ts /\
    (strictly_increasing ts <-> Z.of_nat n - 1 <= end_ - start).
Proof.
  intros Hrep Horder Hn.
  exists (map (aligned_timestamp start end_ n) (range n)). split.
  - apply align_ok; assumption.
  - apply aligned_increasing_iff; assumption.
Qed.

Lemma alignment_increasing_iff_witness :
  exists ts,
    align 63882079200000000 63882108000000000 4 = Ok ts /\
    (strictly_increasing ts <-> 4 - 1 <= 63882108000000000 - 63882079200000000).
Proof.
  apply (alignment_increasing_iff 63882079200000000 63882108000000000 4).
  - unfold session_representable, Datetime.valid, Datetime.max_ordinal,
      Datetime.us_per_day.
    split; [lia | split; [lia | reflexivity]].
  - lia.
  - lia.
Defined.

(** C8 fails as stated: with [end = start] the two timestamps are equal,
    and with [end] one microsecond after [start] the first two of three
    are. *)
Lemma alignment_not_always_increasing :
  (align 63882079200000000 63882079200000000 2
     = Ok [63882079200000000; 63882079200000000] /\
   ~ strictly_increasing [63882079200000000; 63882079200000000]) /\
  (align 63882079200000000 63882079200000001 3
     = Ok [63882079200000000; 63882079200000000; 63882079200000001] /\
   ~ strictly_increasing
       [63882079200000000; 63882079200000000; 63882079200000001]).
Proof.
  split; (split; [vm_compute; reflexivity|]); intros H;
    specialize (H 0%nat 1%nat _ _ ltac:(lia) eq_refl eq_refl); lia.
Qed.

(** ** Binary64 rounding *)

Module Binary64Facts.
Import Binary64.
Local Open Scope Q_scope.

Lemma pow2_pos (e : Z) : 0 < pow2 e.
Proof. apply Qpower_0_lt. reflexivity. Qed.

Lemma pow2_le (e e' : Z) : (e <= e')%Z -> pow2 e <= pow2 e'.
Proof.
  intros H. apply Qpower_le_compat_l; [exact H|].
  unfold Qle. simpl. lia.
Qed.

Lemma pow2_inject (k : Z) : (0 <= k)%Z -> pow2 k == inject_Z (2 ^ k).
Proof. intros H. symmetry. apply (Zpower_Qpower 2 k H). Qed.

Lemma pow2_opp (k : Z) : pow2 (- k) == / pow2 k.
Proof. apply Qpower_opp. Qed.

Lemma pow2_succ (k : Z) : pow2 (k + 1) == 2 * pow2 k.
Proof.
  unfold pow2. rewrite Qpower_plus by (unfold Qeq; simpl; lia).
  rewrite Qmult_comm. reflexivity.
Qed.

Lemma Qle_div_iff (x a b : Q) : 0 < b -> (x <= a / b <-> x * b <= a).
Proof.
  intros Hb. split; intros H.
  - apply (Qmult_le_r _ _ (/ b)); [apply Qinv_lt_0_compat; exact Hb|].
    setoid_replace (x * b * / b) with x using relation Qeq
      by (field; lra).
    exact H.
  - apply Qle_shift_div_l; assumption.
Qed.

Lemma Qdiv_le_iff (y p a : Q) : 0 < p -> (y / p <= a <-> y <= a * p).
Proof.
  intros Hp. split; intros H.
  - apply (Qmult_le_r _ _ (/ p)); [apply Qinv_lt_0_compat; exact Hp|].
    setoid_replace (a * p * / p) with a using relation Qeq
      by (field; lra).
    exact H.
  - apply Qle_shift_div_r; assumption.
Qed.

Lemma ge_pow2_spec (a b k : Z) :
  (0 < a)%Z -> (0 < b)%Z ->
  (ge_pow2 a b k = true <-> pow2 k <= inject_Z a / inject_Z b).
Proof.
  intros Ha Hb. unfold ge_pow2.
  assert (HbQ : 0 < inject_Z b)
    by (change (inject_Z 0 < inject_Z b); rewrite <- Zlt_Qlt; exact Hb).
  destruct (0 <=? k)%Z eqn:Hk.
  - apply Z.leb_le in Hk.
    rewrite Z.leb_le, Qle_div_iff, pow2_inject by assumption.
    rewrite <- inject_Z_mult, <- Zle_Qle. lia.
  - apply Z.leb_gt in Hk.
    assert (HP : 0 < pow2 (- k)) by apply pow2_pos.
    rewrite Z.leb_le, Qle_div_iff by assumption.
    replace k with (- - k)%Z at 2 by lia.
    rewrite pow2_opp.
    setoid_replace (/ pow2 (- k) * inject_Z b) with (inject_Z b / pow2 (- k)) using relation Qeq
      by (field; lra).
    rewrite Qdiv_le_iff by exact HP.
    rewrite pow2_inject by lia.
    rewrite <- inject_Z_mult, <- Zle_Qle. reflexivity.
Qed.

Lemma ilog2_ge (a b : Z) :
  (0 < a)%Z -> (0 < b)%Z -> ge_pow2 a b (ilog2 a b) = true.
Proof.
  intros Ha Hb. unfold ilog2.
  destruct (ge_pow2 a b (Z.log2 a - Z.log2 b)) eqn:Hge; [exact Hge|].
  pose proof (Z.log2_spec a Ha) as [Hla _].
  pose proof (Z.log2_spec b Hb) as [_ Hlb].
  pose proof (Z.log2_nonneg a) as Hna. pose proof (Z.log2_nonneg b) as Hnb.
  set (la := Z.log2 a) in *. set (lb := Z.log2 b) in *.
  unfold ge_pow2.
  destruct (0 <=? la - lb - 1)%Z eqn:Hk.
  - apply Z.leb_le in Hk. apply Z.leb_le.
    assert (Hp : (2 ^ la = 2 ^ Z.succ lb * 2 ^ (la - lb - 1))%Z).
    { rewrite <- Z.pow_add_r by lia. f_equal. lia. }
    assert (0 < 2 ^ (la - lb - 1))%Z by (apply Z.pow_pos_nonneg; lia).
    nia.
  - apply Z.leb_gt in Hk. apply Z.leb_le.
    assert (Hp : (2 ^ Z.succ lb = 2 ^ la * 2 ^ (- (la - lb - 1)))%Z).
    { rewrite <- Z.pow_add_r by lia. f_equal. lia. }
    assert (0 < 2 ^ (- (la - lb - 1)))%Z by (apply Z.pow_pos_nonneg; lia).
    nia.
Qed.

Lemma ilog2_lt (a b : Z) :
  (0 < a)%Z -> (0 < b)%Z -> ge_pow2 a b (ilog2 a b + 1) = false.
Proof.
  intros Ha Hb. unfold ilog2.
  destruct (ge_pow2 a b (Z.log2 a - Z.log2 b)) eqn:Hge.
  2:{ replace (Z.log2 a - Z.log2 b - 1 + 1)%Z with (Z.log2 a - Z.log2 b)%Z by lia.
      exact Hge. }
  pose proof (Z.log2_spec a Ha) as [_ Hla].
  pose proof (Z.log2_spec b Hb) as [Hlb _].
  pose proof (Z.log2_nonneg a) as Hna. pose proof (Z.log2_nonneg b) as Hnb.
  set (la := Z.log2 a) in *. set (lb := Z.log2 b) in *.
  unfold ge_pow2.
  destruct (0 <=? la - lb + 1)%Z eqn:Hk.
  - apply Z.leb_le in Hk. apply Z.leb_gt.
    assert (Hp : (2 ^ Z.succ la = 2 ^ lb * 2 ^ (la - lb + 1))%Z).
    { rewrite <- Z.pow_add_r by lia. f_equal. lia. }
    assert (0 < 2 ^ (la - lb + 1))%Z by (apply Z.pow_pos_nonneg; lia).
    nia.
  - apply Z.leb_gt in Hk. apply Z.leb_gt.
    assert (Hp : (2 ^ lb = 2 ^ Z.succ la * 2 ^ (- (la - lb + 1)))%Z).
    { rewrite <- Z.pow_add_r by lia. f_equal. lia. }
    assert (0 < 2 ^ (- (la - lb + 1)))%Z by (apply Z.pow_pos_nonneg; lia).
    nia.
Qed.

(** [ilog2] is the floor of the binary logarithm. *)
Lemma ilog2_spec (a b : Z) :
  (0 < a)%Z -> (0 < b)%Z ->
  pow2 (ilog2 a b) <= inject_Z a / inject_Z b < pow2 (ilog2 a b + 1).
Proof.
  intros Ha Hb. split.
  - apply ge_pow2_spec; [assumption..|]. apply ilog2_ge; assumption.
  - apply Qnot_le_lt. intros H.
    apply ge_pow2_spec in H; [|assumption..].
    rewrite ilog2_lt in H by assumption. discriminate H.
Qed.

Lemma round_half_even_spec (q : Q) :
  Qabs (inject_Z (round_half_even q) - q) <= 1 # 2.
Proof.
  destruct q as [n d]. unfold round_half_even. simpl.
  pose proof (DatetimeFacts.divide_nearest_spec n (Zpos d) ltac:(lia)) as H.
  set (m := Datetime.divide_nearest n (Zpos d)) in *.
  apply Qabs_Qle_condition.
  unfold Qle, Qminus, Qplus, Qopp, inject_Z. simpl. lia.
Qed.

Lemma round_half_even_nonneg (q : Q) :
  0 <= q -> (0 <= round_half_even q)%Z.
Proof.
  destruct q as [n d]. unfold Qle, round_half_even. simpl. intros Hn.
  pose proof (DatetimeFacts.divide_nearest_spec n (Zpos d) ltac:(lia)) as H.
  set (m := Datetime.divide_nearest n (Zpos d)) in *. nia.
Qed.

Lemma round_half_even_inject (q : Q) (k : Z) :
  q == inject_Z k -> round_half_even q = k.
Proof.
  intros Hq. pose proof (round_half_even_spec q) as H.
  generalize dependent (round_half_even q). intros m H.
  rewrite Hq in H. apply Qabs_Qle_condition in H.
  unfold Qle, Qminus, Qplus, Qopp, inject_Z in H. simpl in H. lia.
Qed.

Lemma ulp_exponent_le (q : Q) (k : Z) :
  0 < q -> q < pow2 k ->
  (ulp_exponent q <= Z.max (k - 53) (-1074))%Z.
Proof.
  intros Hpos Hk. unfold ulp_exponent.
  assert (Hn : (0 < Qnum q)%Z).
  { destruct q as [n d]. unfold Qlt in Hpos. simpl in *. lia. }
  pose proof (ilog2_spec (Qnum q) (Zpos (Qden q)) Hn (Pos2Z.is_pos _))
    as [Hlo _].
  rewrite <- Qmake_Qdiv in Hlo.
  assert (Hq : Qnum q # Qden q == q) by (destruct q; reflexivity).
  rewrite Hq in Hlo.
  assert (Hlt : pow2 (ilog2 (Qnum q) (Zpos (Qden q))) < pow2 k)
    by (eapply Qle_lt_trans; eassumption).
  apply Qpower_lt_compat_l_inv in Hlt; [lia | reflexivity].
Qed.

Lemma round_pos_error (q : Q) :
  Qabs (round_pos q - q) <= pow2 (ulp_exponent q) * (1 # 2).
Proof.
  unfold round_pos. set (e := ulp_exponent q).
  pose proof (pow2_pos e) as HP.
  pose proof (round_half_even_spec (q / pow2 e)) as H.
  set (m := inject_Z (round_half_even (q / pow2 e))) in *.
  assert (E : m * pow2 e - q == (m - q / pow2 e) * pow2 e) by (field; lra).
  rewrite E, Qabs_Qmult, (Qabs_pos (pow2 e)) by lra.
  rewrite (Qmult_comm (pow2 e)).
  apply Qmult_le_compat_r; [exact H | lra].
Qed.

Lemma b64_of_pos (q : Q) : 0 < q -> b64 q = round_pos q.
Proof.
  destruct q as [[|p|p] d]; unfold Qlt; simpl; intros H; try lia.
  reflexivity.
Qed.

Lemma b64_of_zero (q : Q) : q == 0 -> b64 q = 0.
Proof.
  destruct q as [[|p|p] d]; unfold Qeq; simpl; intros H; try lia.
  reflexivity.
Qed.

(** The rounding error below [2^k]: half a unit in the last place. *)
Lemma b64_error (q : Q) (k : Z) :
  0 <= q -> q < pow2 k ->
  Qabs (b64 q - q) <= pow2 (Z.max (k - 53) (-1074)) * (1 # 2).
Proof.
  intros H0 Hk.
  pose proof (pow2_pos (Z.max (k - 53) (-1074))) as HP.
  destruct (Qlt_le_dec 0 q) as [Hpos|Hle].
  - rewrite (b64_of_pos q Hpos).
    eapply Qle_trans; [apply round_pos_error|].
    apply Qmult_le_compat_r; [|lra].
    apply pow2_le. apply ulp_exponent_le; assumption.
  - assert (Hz : q == 0) by lra.
    rewrite (b64_of_zero q Hz), Hz.
    apply Qabs_Qle_condition. split; lra.
Qed.

Lemma b64_nonneg (q : Q) : 0 <= q -> 0 <= b64 q.
Proof.
  intros H0. destruct (Qlt_le_dec 0 q) as [Hpos|Hle].
  - rewrite (b64_of_pos q Hpos). unfold round_pos.
    set (e := ulp_exponent q). pose proof (pow2_pos e) as HP.
    assert (Hz : (0 <= round_half_even (q / pow2 e))%Z).
    { apply round_half_even_nonneg. apply Qle_shift_div_l; lra. }
    apply Qmult_le_0_compat; [|lra].
    change (inject_Z 0 <= inject_Z (round_half_even (q / pow2 e))).
    rewrite <- Zle_Qle. exact Hz.
  - rewrite (b64_of_zero q) by lra. lra.
Qed.

(** An integer below [2^53] is a float. *)
Lemma b64_exact_int (d : Z) :
  (0 <= d < 2 ^ 53)%Z -> b64 (inject_Z d) == inject_Z d.
Proof.
  intros Hd. destruct (Z.eq_dec d 0%Z) as [->|Hne]; [reflexivity|].
  assert (Hpos : 0 < inject_Z d)
    by (change (inject_Z 0 < inject_Z d); rewrite <- Zlt_Qlt; lia).
  rewrite (b64_of_pos _ Hpos). unfold round_pos.
  assert (He : (ulp_exponent (inject_Z d) <= 0)%Z).
  { change 0%Z with (Z.max (53 - 53) (-1074)).
    apply ulp_exponent_le; [exact Hpos|].
    rewrite pow2_inject by lia. rewrite <- Zlt_Qlt. lia. }
  set (e := ulp_exponent (inject_Z d)) in *.
  pose proof (pow2_pos e) as HP.
  assert (Hinv : / pow2 e == inject_Z (2 ^ (- e))).
  { rewrite <- pow2_opp. apply pow2_inject. lia. }
  assert (Hint : inject_Z d / pow2 e == inject_Z (d * 2 ^ (- e))).
  { rewrite inject_Z_mult, <- Hinv. reflexivity. }
  rewrite (round_half_even_inject _ _ Hint).
  rewrite inject_Z_mult, <- Hinv. field. lra.
Qed.

End Binary64Facts.

(** ** Percentages *)

Module PercentFacts.
Import Binary64 Binary64Facts.
Local Open Scope Q_scope.

Lemma pow2_1024_large : 256 <= pow2 1024.
Proof.
  assert (E : pow2 8 == 256) by reflexivity.
  rewrite <- E. apply pow2_le. lia.
Qed.

Lemma not_overflows (q : Q) : Qabs (b64 q) < 256 -> overflows q = false.
Proof.
  intros H. unfold overflows.
  destruct (Qle_bool (pow2 1024) (Qabs (b64 q))) eqn:E; [|reflexivity].
  apply Qle_bool_iff in E. pose proof pow2_1024_large. lra.
Qed.

Lemma b64_error_unit (q : Q) :
  0 <= q <= 1 -> Qabs (b64 q - q) <= 1 # 9007199254740992.
Proof.
  intros [H0 H1].
  assert (Hlt : q < pow2 1).
  { assert (E : pow2 1 == 2) by reflexivity. rewrite E. lra. }
  pose proof (b64_error q 1 H0 Hlt) as H.
  assert (E : pow2 (Z.max (1 - 53) (-1074)) * (1 # 2) == 1 # 9007199254740992)
    by reflexivity.
  rewrite E in H. exact H.
Qed.

Lemma b64_error_128 (q : Q) :
  0 <= q < 128 -> Qabs (b64 q - q) <= 1 # 140737488355328.
Proof.
  intros [H0 H1].
  assert (Hlt : q < pow2 7).
  { assert (E : pow2 7 == 128) by reflexivity. rewrite E. exact H1. }
  pose proof (b64_error q 7 H0 Hlt) as H.
  assert (E : pow2 (Z.max (7 - 53) (-1074)) * (1 # 2) == 1 # 140737488355328)
    by reflexivity.
  rewrite E in H. exact H.
Qed.

Section Ratio.
Variables (d T : Z).
Hypothesis Hd : (0 <= d <= T)%Z.
Hypothesis HT : (0 < T)%Z.

Lemma ratio_bounds : 0 <= inject_Z d / inject_Z T <= 1.
Proof.
  assert (HTq : 0 < inject_Z T)
    by (change (inject_Z 0 < inject_Z T); rewrite <- Zlt_Qlt; exact HT).
  split.
  - apply Qle_shift_div_l; [exact HTq|]. rewrite Qmult_0_l.
    change (inject_Z 0 <= inject_Z d). rewrite <- Zle_Qle. lia.
  - apply Qle_shift_div_r; [exact HTq|]. rewrite Qmult_1_l.
    rewrite <- Zle_Qle. lia.
Qed.

Lemma int_truediv_ratio :
  int_truediv d T = Ok (b64 (inject_Z d / inject_Z T)).
Proof.
  unfold int_truediv.
  assert (E : (T =? 0)%Z = false) by (apply Z.eqb_neq; lia).
  rewrite E.
  pose proof ratio_bounds as Hq.
  pose proof (b64_error_unit _ Hq) as He.
  pose proof (b64_nonneg _ (proj1 Hq)) as Hn.
  rewrite not_overflows; [reflexivity|].
  apply Qabs_Qle_condition in He. rewrite Qabs_pos by exact Hn. lra.
Qed.

(** The label shows the percentage to within half a tenth, up to the
    rounding of the two float operations. *)
Lemma percent_1f_ok :
  exists p : Z,
    percent_1f d T = Ok (OneDecimal p) /\
    Qabs (inject_Z p - 1000 * (inject_Z d / inject_Z T))
      <= (1 # 2) + (1 # 1000000) /\
    (d = 0%Z -> p = 0%Z).
Proof.
  pose proof ratio_bounds as Hq.
  pose proof (b64_error_unit _ Hq) as He.
  pose proof (b64_nonneg _ (proj1 Hq)) as Hn.
  unfold percent_1f. rewrite int_truediv_ratio. unfold rbind.
  set (x := b64 (inject_Z d / inject_Z T)) in *.
  apply Qabs_Qle_condition in He.
  assert (Hx : 0 <= x * 100 < 128) by (split; lra).
  pose proof (b64_error_128 _ Hx) as Hy.
  pose proof (b64_nonneg _ (proj1 Hx)) as Hyn.
  rewrite not_overflows.
  2:{ apply Qabs_Qle_condition in Hy. rewrite Qabs_pos by exact Hyn. lra. }
  unfold float_mul, format_1f.
  set (y := b64 (x * 100)) in *.
  exists (round_half_even (10 * y)). split; [reflexivity|]. split.
  - pose proof (round_half_even_spec (10 * y)) as Hp.
    set (p := inject_Z (round_half_even (10 * y))) in *.
    apply Qabs_Qle_condition in Hy, Hp.
    apply (proj2 (Qabs_Qle_condition _ _)). split; lra.
  - intros ->. subst y x.
    rewrite (b64_of_zero (inject_Z 0 / inject_Z T)) by reflexivity.
    rewrite (b64_of_zero (0 * 100)) by reflexivity.
    reflexivity.
Qed.

End Ratio.

Lemma tenths_sum_bound (d1 d2 d3 d4 p1 p2 p3 p4 : Z) :
  (0 < d1 + d2 + d3 + d4)%Z ->
  let T := inject_Z (d1 + d2 + d3 + d4) in
  Qabs (inject_Z p1 - 1000 * (inject_Z d1 / T)) <= (1 # 2) + (1 # 1000000) ->
  Qabs (inject_Z p2 - 1000 * (inject_Z d2 / T)) <= (1 # 2) + (1 # 1000000) ->
  Qabs (inject_Z p3 - 1000 * (inject_Z d3 / T)) <= (1 # 2) + (1 # 1000000) ->
  Qabs (inject_Z p4 - 1000 * (inject_Z d4 / T)) <= (1 # 2) + (1 # 1000000) ->
  (Z.abs (p1 + p2 + p3 + p4 - 1000) <= 2)%Z.
Proof.
  intros HT T H1 H2 H3 H4.
  assert (HTq : 0 < T)
    by (change (inject_Z 0 < T); unfold T; rewrite <- Zlt_Qlt; exact HT).
  assert (Hsum : 1000 * (inject_Z d1 / T) + 1000 * (inject_Z d2 / T)
                 + 1000 * (inject_Z d3 / T) + 1000 * (inject_Z d4 / T) == 1000).
  { assert (E : inject_Z d1 + inject_Z d2 + inject_Z d3 + inject_Z d4 == T)
      by (unfold T; rewrite !inject_Z_plus; reflexivity).
    transitivity (1000 * ((inject_Z d1 + inject_Z d2 + inject_Z d3 + inject_Z d4) / T));
      [field; lra | rewrite E; field; lra]. }
  apply Qabs_Qle_condition in H1, H2, H3, H4.
  set (a1 := 1000 * (inject_Z d1 / T)) in *.
  set (a2 := 1000 * (inject_Z d2 / T)) in *.
  set (a3 := 1000 * (inject_Z d3 / T)) in *.
  set (a4 := 1000 * (inject_Z d4 / T)) in *.
  assert (Hq : inject_Z (-3) < inject_Z (p1 + p2 + p3 + p4 - 1000) < inject_Z 3).
  { unfold Zminus. rewrite !inject_Z_plus.
    change (inject_Z (- (1000))) with (- (1000)).
    change (inject_Z (-3)) with (- (3)). change (inject_Z 3) with 3.
    split; lra. }
  rewrite <- !Zlt_Qlt in Hq. lia.
Qed.

End PercentFacts.

(** ** The stage breakdown *)

Module StageFacts.
Import Binary64 Binary64Facts PercentFacts SleepQualityVisualizer.

Lemma stage_total_insert (m : gmap string Z) (k : string) (v : Z) :
  m !! k = None -> stage_total (<[k := v]> m) = stage_total m + v.
Proof.
  intros Hk. unfold stage_total.
  rewrite map_fold_insert_L; [reflexivity | intros; lia | exact Hk].
Qed.

Lemma stage_total_four (dd dr dl da : Z) :
  stage_total (four_stages dd dr dl da) = dd + dr + dl + da.
Proof.
  unfold four_stages.
  rewrite !stage_total_insert by (simplify_map_eq; reflexivity).
  unfold stage_total. rewrite map_fold_empty. lia.
Qed.

Lemma four_stages_lookup (dd dr dl da : Z) :
  let m := four_stages dd dr dl da in
  m !! "deep" = Some dd /\ m !! "rem" = Some dr /\
  m !! "light" = Some dl /\ m !! "awake" = Some da.
Proof. unfold four_stages. repeat split; simplify_map_eq; reflexivity. Qed.

Lemma complete_four (m : gmap string Z) :
  dom m = list_to_set stage_names ->
  exists dd dr dl da, m = four_stages dd dr dl da.
Proof.
  intros Hdom.
  assert (Hin : forall k, k ∈ stage_names -> is_Some (m !! k)).
  { intros k Hk. apply elem_of_dom. rewrite Hdom.
    apply elem_of_list_to_set. exact Hk. }
  destruct (Hin "deep" ltac:(unfold stage_names; repeat constructor)) as [dd Hdd].
  destruct (Hin "rem" ltac:(unfold stage_names; repeat constructor)) as [dr Hdr].
  destruct (Hin "light" ltac:(unfold stage_names; repeat constructor)) as [dl Hdl].
  destruct (Hin "awake" ltac:(unfold stage_names; repeat constructor)) as [da Hda].
  exists dd, dr, dl, da. apply map_eq. intros k. unfold four_stages.
  destruct (decide (k = "deep")) as [->|N1]; [simplify_map_eq; done|].
  destruct (decide (k = "rem")) as [->|N2]; [simplify_map_eq; done|].
  destruct (decide (k = "light")) as [->|N3]; [simplify_map_eq; done|].
  destruct (decide (k = "awake")) as [->|N4]; [simplify_map_eq; done|].
  rewrite !lookup_insert_ne, lookup_empty by done.
  apply not_elem_of_dom. rewrite Hdom, elem_of_list_to_set.
  unfold stage_names. rewrite !elem_of_cons, elem_of_nil. tauto.
Qed.

Lemma not_overflows_below (q : Q) (k : Z) :
  (k <= 1024)%Z -> (Qabs (b64 q) < pow2 k)%Q -> overflows q = false.
Proof.
  intros Hk H. unfold overflows.
  destruct (Qle_bool (pow2 1024) (Qabs (b64 q))) eqn:E; [|reflexivity].
  apply Qle_bool_iff in E. pose proof (pow2_le k 1024 Hk). lra.
Qed.

Lemma format_0f_small (dur : Z) :
  0 <= dur < 2 ^ 53 -> format_0f dur = Ok dur.
Proof.
  intros Hd. unfold format_0f.
  pose proof (b64_exact_int dur Hd) as E.
  rewrite (not_overflows_below _ 53); [|lia|].
  - rewrite (round_half_even_inject _ dur E). reflexivity.
  - rewrite E, pow2_inject by lia.
    rewrite Qabs_pos by (change (inject_Z 0 <= inject_Z dur)%Q;
                          rewrite <- Zle_Qle; lia).
    rewrite <- Zlt_Qlt. lia.
Qed.

Lemma shows_percentage_of (total dur p : Z) :
  0 < total ->
  (Qabs (inject_Z p - 1000 * (inject_Z dur / inject_Z total))
   <= (1 # 2) + (1 # 1000000))%Q ->
  (dur = 0 -> p = 0) ->
  shows_percentage total dur p.
Proof.
  intros HT Hp Hz. split; [|exact Hz].
  apply Qabs_Qle_condition in Hp. destruct Hp as [Hlo Hhi].
  apply (proj2 (Qabs_Qle_condition _ _)).
  generalize dependent (inject_Z dur / inject_Z total)%Q. intros r Hlo Hhi.
  unfold Qdiv. change (/ 10)%Q with (1 # 10)%Q.
  split; lra.
Qed.

End StageFacts.

Module BreakdownFacts.
Import Binary64 Binary64Facts PercentFacts StageFacts SleepQualityVisualizer.

Lemma pie_chart_result (d : sleep_data) (dd dr dl da p1 p2 p3 p4 : Z) :
  sleep_stages d = four_stages dd dr dl da ->
  let T := stage_total (sleep_stages d) in
  percent_1f dd T = Ok (OneDecimal p1) ->
  percent_1f dr T = Ok (OneDecimal p2) ->
  percent_1f dl T = Ok (OneDecimal p3) ->
  percent_1f da T = Ok (OneDecimal p4) ->
  generate_sleep_stage_pie_chart d
  = Ok {| pc_title := "Sleep Stages Breakdown - " +:+ date d;
          pc_sizes := [dd; dr; dl; da];
          pc_labels := labels_of analysis_titles [dd; dr; dl; da]
                                 [p1; p2; p3; p4] |}.
Proof.
  intros Hm T H1 H2 H3 H4.
  pose proof (four_stages_lookup dd dr dl da) as (L1 & L2 & L3 & L4).
  unfold generate_sleep_stage_pie_chart, stage_names.
  fold T. rewrite Hm. cbn [comprehension].
  rewrite L1, L2, L3, L4. cbn [default from_option id].
  rewrite H1, H2, H3, H4. reflexivity.
Qed.

Lemma structure_chart_result (d : sleep_data) (dd dr dl da p1 p2 p3 p4 : Z) :
  sleep_stages d = four_stages dd dr dl da ->
  let T := stage_total (sleep_stages d) in
  0 <= dd < 2 ^ 53 -> 0 <= dr < 2 ^ 53 -> 0 <= dl < 2 ^ 53 -> 0 <= da < 2 ^ 53 ->
  percent_1f dd T = Ok (OneDecimal p1) ->
  percent_1f dr T = Ok (OneDecimal p2) ->
  percent_1f dl T = Ok (OneDecimal p3) ->
  percent_1f da T = Ok (OneDecimal p4) ->
  generate_sleep_structure_chart d
  = Ok {| pc_title := "Sleep Structure - " +:+ date d;
          pc_sizes := [dd; dr; dl; da];
          pc_labels := labels_of visualizer_titles [dd; dr; dl; da]
                                 [p1; p2; p3; p4] |}.
Proof.
  intros Hm T B1 B2 B3 B4 H1 H2 H3 H4.
  pose proof (four_stages_lookup dd dr dl da) as (L1 & L2 & L3 & L4).
  unfold generate_sleep_structure_chart, structure_label, stage_names, getitem.
  fold T. rewrite Hm. cbn [comprehension].
  rewrite L1, L2, L3, L4. cbn [rbind].
  rewrite !format_0f_small by assumption. cbn [rbind].
  rewrite H1, H2, H3, H4. reflexivity.
Qed.

End BreakdownFacts.

(** ** The claims on the stage breakdown *)

Lemma four_stages_complete (dd dr dl da : Z) :
  0 <= dd -> 0 <= dr -> 0 <= dl -> 0 <= da -> 0 < dd + dr + dl + da ->
  complete_stages (four_stages dd dr dl da).
Proof.
  intros N1 N2 N3 N4 HT.
  pose proof (StageFacts.four_stages_lookup dd dr dl da) as (L1 & L2 & L3 & L4).
  assert (Hother : forall k, k ∉ stage_names -> four_stages dd dr dl da !! k = None).
  { intros k Hk. unfold stage_names in Hk.
    rewrite !not_elem_of_cons in Hk. destruct Hk as (K1 & K2 & K3 & K4 & _).
    unfold four_stages. rewrite !lookup_insert_ne, lookup_empty by done.
    reflexivity. }
  split; [|split].
  - apply set_eq. intros k. rewrite elem_of_dom, elem_of_list_to_set.
    destruct (decide (k ∈ stage_names)) as [Hin|Hout].
    + split; [intros _; exact Hin|]. intros _.
      unfold stage_names in Hin. rewrite !elem_of_cons, elem_of_nil in Hin.
      destruct Hin as [->|[->|[->|[->|[]]]]]; eauto.
    + rewrite (Hother k Hout). split; [intros [? ?]; discriminate | tauto].
  - intros k v Hkv.
    destruct (decide (k ∈ stage_names)) as [Hin|Hout].
    + unfold stage_names in Hin. rewrite !elem_of_cons, elem_of_nil in Hin.
      destruct Hin as [->|[->|[->|[->|[]]]]]; congruence.
    + rewrite (Hother k Hout) in Hkv. discriminate.
  - rewrite StageFacts.stage_total_four. exact HT.
Qed.

(** C3, as the code has it.  For a mapping whose durations add up to 0
    neither renderer returns a chart.  [generate_sleep_stage_pie_chart]
    evaluates [dur / total * 100] for the first stage and ends in the
    [ZeroDivisionError] of that division; so does
    [generate_sleep_structure_chart] once it has read [stages['deep']] and
    formatted it as minutes, two steps that can raise first. *)
Theorem zero_total_raises_zero_division (d : sleep_data) :
  stage_total (sleep_stages d) = 0 ->
  generate_sleep_stage_pie_chart d = Err ZeroDivisionError /\
  SleepQualityVisualizer.generate_sleep_structure_chart d
  = match sleep_stages d !! "deep" with
    | None => Err KeyError
    | Some deep =>
        if Binary64.overflows (inject_Z deep) then Err OverflowError
        else Err ZeroDivisionError
    end.
Proof.
  intros Htotal. split.
  - unfold generate_sleep_stage_pie_chart. rewrite Htotal. reflexivity.
  - unfold SleepQualityVisualizer.generate_sleep_structure_chart,
      SleepQualityVisualizer.structure_label, SleepQualityVisualizer.getitem.
    rewrite Htotal.
    destruct (sleep_stages d !! "deep") as [deep|]; [|reflexivity].
    cbn [rbind]. unfold Binary64.format_0f.
    destruct (Binary64.overflows (inject_Z deep)); reflexivity.
Qed.

Lemma zero_total_raises_zero_division_witness :
  generate_sleep_stage_pie_chart (with_stages zero_stages) = Err ZeroDivisionError /\
  SleepQualityVisualizer.generate_sleep_structure_chart (with_stages zero_stages)
  = Err ZeroDivisionError.
Proof.
  apply (zero_total_raises_zero_division (with_stages zero_stages)).
  vm_compute. reflexivity.
Defined.

(** C3 fails as stated: the error for the four stages at zero is not
    [DegenerateInput], in either renderer. *)
Lemma zero_total_not_degenerate_input :
  generate_sleep_stage_pie_chart (with_stages zero_stages) <> Err DegenerateInput /\
  SleepQualityVisualizer.generate_sleep_structure_chart (with_stages zero_stages)
  <> Err DegenerateInput.
Proof. split; vm_compute; discriminate. Qed.

(** C4, as far as it holds.  For a mapping with the four stage keys and no
    other, durations that are not negative and a positive total, both
    renderers succeed and label the four stages in order, a stage of zero
    minutes included with 0.0, each label with the minutes of its stage
    and with [dur / total * 100] to one decimal; the four percentages add up
    to 100.0 within 0.2.  In the class renderer the minutes go through a
    float, which is exact below [2^53]. *)
Theorem stage_breakdown_complete (d : sleep_data) :
  complete_stages (sleep_stages d) ->
  complete_breakdown 2 analysis_titles (sleep_stages d)
    (generate_sleep_stage_pie_chart d) /\
  (stage_total (sleep_stages d) < 2 ^ 53 ->
   complete_breakdown 2 visualizer_titles (sleep_stages d)
     (SleepQualityVisualizer.generate_sleep_structure_chart d)).
Proof.
  intros (Hdom & Hnn & HT).
  destruct (StageFacts.complete_four _ Hdom) as (dd & dr & dl & da & Hm).
  pose proof (StageFacts.four_stages_lookup dd dr dl da) as (L1 & L2 & L3 & L4).
  rewrite <- Hm in L1, L2, L3, L4.
  pose proof (Hnn _ _ L1) as N1. pose proof (Hnn _ _ L2) as N2.
  pose proof (Hnn _ _ L3) as N3. pose proof (Hnn _ _ L4) as N4.
  assert (Hsum : stage_total (sleep_stages d) = dd + dr + dl + da)
    by (rewrite Hm; apply StageFacts.stage_total_four).
  assert (Hdurs : stage_durations (sleep_stages d) = [dd; dr; dl; da]).
  { unfold stage_durations, stage_names. cbn [map].
    rewrite L1, L2, L3, L4. reflexivity. }
  set (T := stage_total (sleep_stages d)) in *.
  destruct (PercentFacts.percent_1f_ok dd T ltac:(lia) HT) as (p1 & P1 & E1 & Z1).
  destruct (PercentFacts.percent_1f_ok dr T ltac:(lia) HT) as (p2 & P2 & E2 & Z2).
  destruct (PercentFacts.percent_1f_ok dl T ltac:(lia) HT) as (p3 & P3 & E3 & Z3).
  destruct (PercentFacts.percent_1f_ok da T ltac:(lia) HT) as (p4 & P4 & E4 & Z4).
  assert (Hshow : Forall2 (shows_percentage T) [dd; dr; dl; da] [p1; p2; p3; p4]).
  { repeat (constructor;
              [apply StageFacts.shows_percentage_of; assumption|]).
    constructor. }
  assert (Htol : Z.abs (sum_Z [p1; p2; p3; p4] - 1000) <= 2).
  { unfold sum_Z. cbn [foldr]. rewrite Z.add_0_r, !Z.add_assoc.
    rewrite Hsum in E1, E2, E3, E4, HT.
    apply (PercentFacts.tenths_sum_bound dd dr dl da); assumption. }
  split.
  - exists {| pc_title := "Sleep Stages Breakdown - " +:+ date d;
              pc_sizes := [dd; dr; dl; da];
              pc_labels := labels_of analysis_titles [dd; dr; dl; da]
                                     [p1; p2; p3; p4] |}, [p1; p2; p3; p4].
    rewrite Hdurs. repeat split; try assumption.
    apply BreakdownFacts.pie_chart_result; assumption.
  - intros Hsmall.
    exists {| pc_title := "Sleep Structure - " +:+ date d;
              pc_sizes := [dd; dr; dl; da];
              pc_labels := labels_of visualizer_titles [dd; dr; dl; da]
                                     [p1; p2; p3; p4] |}, [p1; p2; p3; p4].
    rewrite Hdurs. repeat split; try assumption.
    apply BreakdownFacts.structure_chart_result; try assumption; lia.
Qed.

Lemma stage_breakdown_complete_witness :
  complete_breakdown 2 analysis_titles (sleep_stages night_session)
    (generate_sleep_stage_pie_chart night_session).
Proof.
  apply (stage_breakdown_complete night_session).
  apply (four_stages_complete 90 80 200 10); lia.
Defined.

(** C4 fails as stated.  For [deep: 1, rem: 1, light: 1, awake: 13] the
    percentages are 6.25, 6.25, 6.25 and 81.25, exact as floats; rounded to
    the even tenth they read 6.2, 6.2, 6.2 and 81.2 and add up to 99.8,
    which is 0.2 from 100.0.  And the class renderer formats the minutes
    through a float: [2^53 + 1] minutes are labelled [2^53]. *)
Lemma stage_percentages_off_by_two_tenths :
  complete_stages sixteenths_stages /\
  ~ complete_breakdown 1 analysis_titles sixteenths_stages
      (generate_sleep_stage_pie_chart (with_stages sixteenths_stages)) /\
  ~ complete_breakdown 1 visualizer_titles sixteenths_stages
      (SleepQualityVisualizer.generate_sleep_structure_chart
         (with_stages sixteenths_stages)) /\
  Binary64.format_0f (2 ^ 53 + 1) = Ok (2 ^ 53).
Proof.
  assert (Hno : forall n1 n2 n3 n4 r,
             (exists c, r = Ok c /\
                pc_labels c = labels_of [n1; n2; n3; n4] [1; 1; 1; 13]
                                        [62; 62; 62; 812]) ->
             ~ complete_breakdown 1 [n1; n2; n3; n4] sixteenths_stages r).
  { intros n1 n2 n3 n4 r (c0 & Hr0 & Hl0)
           (c & tenths & Hr & Hlen & _ & Hl & _ & Htol).
    rewrite Hr0 in Hr. injection Hr as <-. rewrite Hl0 in Hl.
    change (stage_durations sixteenths_stages) with [1; 1; 1; 13] in Hl.
    destruct tenths as [|t1 [|t2 [|t3 [|t4 [|]]]]]; try discriminate Hlen.
    cbn in Hl. injection Hl as <- <- <- <-. cbn in Htol. lia. }
  split; [|split; [|split]].
  - apply four_stages_complete; lia.
  - apply Hno. eexists. split; [vm_compute; reflexivity | reflexivity].
  - apply Hno. eexists. split; [vm_compute; reflexivity | reflexivity].
  - vm_compute. reflexivity.
Qed.

(** ** Channel importance *)

Module ImportanceFacts.
Local Open Scope Q_scope.

Lemma importance_by_layer1 (m : model) :
  compute_channel_importance m
  = match layers m !! 1%nat with
    | Some l => importance_of_layer l
    | None => Err IndexError
    end.
Proof.
  unfold compute_channel_importance, list_getitem at 1.
  destruct (layers m !! 1%nat); reflexivity.
Qed.

Lemma importance_of_conv (filters kernel_size input_channels : nat)
    (kernel : nat -> nat -> nat -> Q) (bias : nat -> Q) :
  importance_of_layer (Conv1D filters kernel_size input_channels kernel bias)
  = if (4 <=? input_channels)%nat
    then Ok (importance_dict kernel_size input_channels filters kernel)
    else Err IndexError.
Proof.
  destruct input_channels as [|[|[|[|n]]]]; reflexivity.
Qed.

Lemma importance_dict_lookup (ks cin f : nat) (K : nat -> nat -> nat -> Q)
    (i : nat) (name : string) :
  channel_names !! i = Some name ->
  importance_dict ks cin f K !! name
  = Some (divide (channel_abs_sum ks f K i) (total_abs_sum ks cin f K)).
Proof.
  unfold importance_dict, dict_of, channel_names.
  destruct i as [|[|[|[|i]]]]; cbn; intros [= <-];
    simplify_map_eq; reflexivity.
Qed.

Lemma importance_dict_dom (ks cin f : nat) (K : nat -> nat -> nat -> Q) :
  dom (importance_dict ks cin f K) = list_to_set channel_names.
Proof.
  unfold importance_dict, dict_of, channel_names. cbn.
  rewrite !dom_insert_L, dom_empty_L.
  apply set_eq. intros k.
  rewrite !elem_of_union, !elem_of_singleton, elem_of_empty. tauto.
Qed.

Lemma importance_dict_other (ks cin f : nat) (K : nat -> nat -> nat -> Q)
    (name : string) :
  name ∉ channel_names -> importance_dict ks cin f K !! name = None.
Proof.
  intros Hout. apply not_elem_of_dom.
  rewrite importance_dict_dom, elem_of_list_to_set. exact Hout.
Qed.

Lemma sum_upto_nonneg (n : nat) (f : nat -> Q) :
  (forall i, 0 <= f i) -> 0 <= sum_upto n f.
Proof.
  intros Hf. induction n as [|n IH]; simpl; [lra|].
  specialize (Hf n). lra.
Qed.

Lemma sum_upto_ext (n : nat) (f g : nat -> Q) :
  (forall i, f i == g i) -> sum_upto n f == sum_upto n g.
Proof.
  intros Hfg. induction n as [|n IH]; simpl; [reflexivity|].
  rewrite IH, (Hfg n). reflexivity.
Qed.

Lemma sum_upto_scale (n : nat) (f : nat -> Q) (t : Q) :
  sum_upto n (fun i => f i * t) == sum_upto n f * t.
Proof.
  induction n as [|n IH]; simpl; [ring|]. rewrite IH. ring.
Qed.

Lemma channel_abs_sum_nonneg (ks f : nat) (K : nat -> nat -> nat -> Q) (c : nat) :
  0 <= channel_abs_sum ks f K c.
Proof.
  unfold channel_abs_sum, abs_sum_at.
  apply sum_upto_nonneg. intros k. apply sum_upto_nonneg. intros o.
  apply Qabs_nonneg.
Qed.

Lemma channel_abs_sum_scale (ks f : nat) (K : nat -> nat -> nat -> Q)
    (t : Q) (c : nat) :
  channel_abs_sum ks f (fun k c o => K k c o * t) c
  == channel_abs_sum ks f K c * Qabs t.
Proof.
  unfold channel_abs_sum, abs_sum_at.
  rewrite <- sum_upto_scale. apply sum_upto_ext. intros k.
  rewrite <- sum_upto_scale. apply sum_upto_ext. intros o.
  apply Qabs_Qmult.
Qed.

Lemma sum_list_map_scale (l : list nat) (g g' : nat -> Q) (t : Q) :
  (forall i, g' i == g i * t) ->
  sum_list (map g' l) == sum_list (map g l) * t.
Proof.
  intros Hg. induction l as [|i l IH]; simpl; [ring|].
  rewrite IH, (Hg i). ring.
Qed.

Lemma sum_list_map_nonneg (l : list nat) (g : nat -> Q) :
  (forall i, 0 <= g i) -> 0 <= sum_list (map g l).
Proof.
  intros Hg. induction l as [|i l IH]; simpl; [lra|].
  specialize (Hg i). lra.
Qed.

Lemma total_abs_sum_nonneg (ks cin f : nat) (K : nat -> nat -> nat -> Q) :
  0 <= total_abs_sum ks cin f K.
Proof.
  unfold total_abs_sum. apply sum_list_map_nonneg.
  intros i. apply channel_abs_sum_nonneg.
Qed.

Lemma total_abs_sum_scale (ks cin f : nat) (K : nat -> nat -> nat -> Q) (t : Q) :
  total_abs_sum ks cin f (fun k c o => K k c o * t)
  == total_abs_sum ks cin f K * Qabs t.
Proof.
  unfold total_abs_sum. apply sum_list_map_scale.
  intros i. apply channel_abs_sum_scale.
Qed.

Lemma total_abs_sum_four (ks f : nat) (K : nat -> nat -> nat -> Q) :
  total_abs_sum ks 4 f K
  == channel_abs_sum ks f K 0 + channel_abs_sum ks f K 1
     + channel_abs_sum ks f K 2 + channel_abs_sum ks f K 3.
Proof. unfold total_abs_sum. simpl. ring. Qed.

Lemma divide_finite (a s : Q) : ~ s == 0 -> divide a s = Fin (a / s).
Proof.
  intros Hs. unfold divide.
  destruct (Qeq_bool s 0) eqn:E; [|reflexivity].
  apply Qeq_bool_iff in E. contradiction.
Qed.

Lemma divide_zero (a s : Q) : s == 0 -> a == 0 -> divide a s = NaN.
Proof.
  intros Hs Ha. unfold divide.
  rewrite (proj2 (Qeq_bool_iff s 0) Hs), (proj2 (Qeq_bool_iff a 0) Ha).
  reflexivity.
Qed.

(** A quotient does not change when both operands are multiplied by the
    same positive number. *)
Lemma divide_scaled (a s a' s' t : Q) :
  0 < t -> 0 <= a -> 0 <= s -> a <= s ->
  a' == a * t -> s' == s * t ->
  npfloat_eq (divide a' s') (divide a s).
Proof.
  intros Ht Ha Hs Has Ea Es.
  destruct (Qeq_dec s 0) as [Hz|Hnz].
  - assert (Haz : a == 0) by lra.
    rewrite (divide_zero a s Hz Haz).
    rewrite (divide_zero a' s'); [exact I | |].
    + rewrite Es, Hz. ring.
    + rewrite Ea, Haz. ring.
  - rewrite (divide_finite a s Hnz).
    assert (Hnz' : ~ s' == 0).
    { rewrite Es. intros H. apply Hnz.
      apply (Qmult_integral _ _) in H. destruct H as [H|H]; [exact H | lra]. }
    rewrite (divide_finite a' s' Hnz'). simpl.
    rewrite Ea, Es. field. split; [exact Hnz | lra].
Qed.

Lemma channel_le_total (ks cin f : nat) (K : nat -> nat -> nat -> Q) (c : nat) :
  (c < cin)%nat -> channel_abs_sum ks f K c <= total_abs_sum ks cin f K.
Proof.
  intros Hc. unfold total_abs_sum.
  assert (Hin : In c (seq 0 cin)) by (apply in_seq; lia).
  revert Hin. generalize (seq 0 cin). intros l.
  induction l as [|i l IH]; simpl; [tauto|].
  pose proof (sum_list_map_nonneg l (channel_abs_sum ks f K)
                (channel_abs_sum_nonneg ks f K)) as Hl.
  pose proof (channel_abs_sum_nonneg ks f K i) as Hi.
  intros [->|Hin]; [lra|]. specialize (IH Hin). lra.
Qed.

End ImportanceFacts.

(** ** The claims on channel importance *)

Lemma npfloat_eq_refl (x : npfloat) : npfloat_eq x x.
Proof. destruct x; simpl; [reflexivity | exact I..]. Qed.

Lemma same_importance_refl (r : result (gmap string npfloat)) :
  same_importance r r.
Proof.
  destruct r as [d|e]; simpl; [|reflexivity].
  intros name. destruct (d !! name); constructor. apply npfloat_eq_refl.
Qed.

Lemma layer1_conv4_has_conv4 (m : model) (l : layer) :
  layers m !! 1%nat = Some l -> is_conv4 l -> has_conv4 m.
Proof.
  intros Hl Hc. unfold has_conv4. apply Exists_exists.
  exists l. split; [|exact Hc]. eapply list_elem_of_lookup_2. exact Hl.
Qed.

Lemma five_channel_model_has_no_conv4 : ~ has_conv4 five_channel_model.
Proof.
  unfold has_conv4, five_channel_model. cbn [layers].
  rewrite !List.Exists_cons, List.Exists_nil. cbn. lia.
Qed.







(** C9, as the code has it.  The extractor checks no shape and never
    reports [ShapeMismatch].  For a model without a convolution of 4 input
    channels it ends in [IndexError] when there is no layer at index 1,
    when that layer has no weights or when it is a convolution with fewer
    than 4 input channels, in numpy's [AxisError] when that layer is a
    [Dense] layer, and it returns a dict when that layer is a convolution
    with more than 4 input channels. *)
Theorem importance_without_conv4 (m : model) :
  ~ has_conv4 m ->
  compute_channel_importance m <> Err ShapeMismatch /\
  match layers m !! 1%nat with
  | None => compute_channel_importance m = Err IndexError
  | Some (Conv1D filters kernel_size input_channels kernel _) =>
      if (4 <=? input_channels)%nat
      then (4 < input_channels)%nat /\
           compute_channel_importance m
           = Ok (importance_dict kernel_size input_channels filters kernel)
      else compute_channel_importance m = Err IndexError
  | Some (Dense _ _ _ _) => compute_channel_importance m = Err AxisError
  | Some _ => compute_channel_importance m = Err IndexError
  end.
Proof.
  intros Hno.
  rewrite ImportanceFacts.importance_by_layer1.
  destruct (layers m !! 1%nat) as [l|] eqn:Hl.
  2:{ split; [discriminate | reflexivity]. }
  destruct l as [len ch|f ks cin K b|p| |u iu K b];
    try (split; [discriminate | reflexivity]).
  rewrite ImportanceFacts.importance_of_conv.
  destruct (4 <=? cin)%nat eqn:Hcin.
  - apply Nat.leb_le in Hcin. split; [discriminate|]. split; [|reflexivity].
    destruct (Nat.eq_dec cin 4%nat) as [->|Hne]; [|lia].
    exfalso. apply Hno. eapply layer1_conv4_has_conv4; [exact Hl|]. reflexivity.
  - split; [discriminate | reflexivity].
Qed.

Lemma importance_without_conv4_witness :
  compute_channel_importance five_channel_model <> Err ShapeMismatch.
Proof.
  apply (importance_without_conv4 five_channel_model).
  exact five_channel_model_has_no_conv4.
Defined.

(** C9 fails as stated: a model whose only convolution has five input
    channels has no convolution of 4 input channels, and the extractor
    returns a dict for it, the four values 1/5 each. *)
Lemma five_channels_no_shape_mismatch :
  ~ has_conv4 five_channel_model /\
  compute_channel_importance five_channel_model <> Err ShapeMismatch /\
  compute_channel_importance five_channel_model
  = Ok (importance_dict 1 5 1 (fun _ _ _ => 1%Q)) /\
  importance_dict 1 5 1 (fun _ _ _ => 1%Q) !! "heart_rate" = Some (Fin (1 # 5)).
Proof.
  split; [exact five_channel_model_has_no_conv4|].
  split; [discriminate|]. split; [reflexivity|].
  rewrite (ImportanceFacts.importance_dict_lookup _ _ _ _ 0 "heart_rate" eq_refl).
  vm_compute. reflexivity.
Qed.

(** ** The claims on the regressor *)

Lemma npsum_upto_finite (n : nat) (f : nat -> npfloat) :
  (forall c, exists q, f c = Fin q) -> exists q, npsum_upto n f = Fin q.
Proof.
  intros Hf. induction n as [|n [q IH]]; simpl; [eauto|].
  destruct (Hf n) as [q' Hq']. rewrite IH, Hq'. simpl. eauto.
Qed.

Lemma pooled_length_positive (len : nat) :
  (2 <= len)%nat -> (1 <= pooled_length 2 len)%nat.
Proof.
  intros H. unfold pooled_length.
  destruct (len <? 2)%nat eqn:E; [apply Nat.ltb_lt in E; lia | lia].
Qed.

(** C10.  Whatever shapes Keras accepts and whatever values the weights
    have, a model that [build_sleep_cnn] returns for 4 channels has an
    input layer at index 0 and its first convolution at index 1, with
    exactly 4 input channels; the extractor reads the kernel of that
    layer and returns a dict over exactly the four channel names, each
    with the normalised sum of its channel. *)
Theorem built_model_importance (shape_accepted : Z -> Z -> bool) (w : weights)
    (input_length : Z) (m : model) :
  build_sleep_cnn shape_accepted w input_length 4 = Ok m ->
  let conv1 := Conv1D 32 5 4 (conv1_kernel w) (conv1_bias w) in
  first_conv_index m = Some 1%nat /\
  first_conv m = Some conv1 /\
  layers m !! 1%nat = Some conv1 /\
  is_conv4 conv1 /\
  exists dict,
    compute_channel_importance m = Ok dict /\
    dom dict = list_to_set channel_names /\
    forall i name, channel_names !! i = Some name ->
      dict !! name
      = Some (divide (channel_abs_sum 5 32 (conv1_kernel w) i)
                     (total_abs_sum 5 4 32 (conv1_kernel w))).
Proof.
  unfold build_sleep_cnn. intros Hbuild.
  destruct (shape_accepted input_length 4); [|discriminate Hbuild].
  injection Hbuild as <-.
  change (Z.to_nat 4) with 4%nat. cbn zeta.
  repeat (split; [reflexivity|]).
  exists (importance_dict 5 4 32 (conv1_kernel w)).
  split; [|split].
  - rewrite ImportanceFacts.importance_by_layer1. cbn [layers lookup list_lookup].
    rewrite ImportanceFacts.importance_of_conv. reflexivity.
  - apply ImportanceFacts.importance_dict_dom.
  - apply ImportanceFacts.importance_dict_lookup.
Qed.

Lemma built_model_importance_witness :
  first_conv_index four_sample_cnn = Some 1%nat.
Proof.
  apply (built_model_importance accepts_from_two unit_weights 4 four_sample_cnn).
  reflexivity.
Defined.




(** * Further properties *)

(** ** Alignment: outcome, bounds and spacing *)

Module AlignmentMore.
Import Datetime DatetimeFacts.

Lemma comprehension_first_failure {A B : Type} (f : A -> result B) (e : exn)
    (l : list A) :
  (forall a, In a l -> (exists b, f a = Ok b) \/ f a = Err e) ->
  (exists a, In a l /\ f a = Err e) ->
  comprehension f l = Err e.
Proof.
  induction l as [|a l IH]; intros Hall (x & Hx & Hfx).
  - destruct Hx.
  - simpl. destruct (Hall a (or_introl eq_refl)) as [[b Hb]|Ha].
    + rewrite Hb. simpl.
      destruct Hx as [->|Hx]; [congruence|].
      rewrite IH; [reflexivity | | eauto].
      intros y Hy. apply Hall. right. exact Hy.
    + rewrite Ha. reflexivity.
Qed.

Lemma delta_in_range_interval (a b c : Z) :
  a <= b <= c -> delta_in_range a = true -> delta_in_range c = true ->
  delta_in_range b = true.
Proof.
  unfold delta_in_range, max_delta_days, us_per_day. intros Hb Ha Hc.
  apply andb_true_iff in Ha as [Ha _]. apply andb_true_iff in Hc as [_ Hc].
  apply Z.leb_le in Ha, Hc.
  pose proof (Z.div_le_mono a b 86400000000 ltac:(lia) ltac:(lia)).
  pose proof (Z.div_le_mono b c 86400000000 ltac:(lia) ltac:(lia)).
  apply andb_true_iff. split; apply Z.leb_le; lia.
Qed.

Lemma delta_in_range_any_order (a b : Z) :
  valid a -> valid b -> delta_in_range (b - a) = true.
Proof.
  intros Ha Hb. destruct (Z.le_gt_cases a b) as [Hab|Hab].
  - apply delta_in_range_datetimes; assumption.
  - unfold valid, delta_in_range, max_delta_days, max_ordinal, us_per_day in *.
    pose proof (Z.div_le_mono (- (3652059 * 86400000000)) (b - a) 86400000000
                  ltac:(lia) ltac:(lia)) as H.
    rewrite Z.div_opp_l_z, Z.div_mul in H by (try rewrite Z.mod_mul; lia).
    pose proof (Z.div_le_mono (b - a) 0 86400000000 ltac:(lia) ltac:(lia)) as H'.
    rewrite Z.div_0_l in H' by lia.
    apply andb_true_iff. split; apply Z.leb_le; lia.
Qed.

Lemma divide_nearest_between (m k lo hi : Z) :
  0 < k -> lo * k <= m <= hi * k -> lo <= divide_nearest m k <= hi.
Proof.
  intros Hk Hm. pose proof (divide_nearest_spec m k Hk) as Hs.
  set (q := divide_nearest m k) in *. split; nia.
Qed.

Lemma divide_nearest_monotone (m m' k : Z) :
  0 < k -> m <= m' -> divide_nearest m k <= divide_nearest m' k.
Proof.
  intros Hk Hm. destruct (Z.eq_dec m m') as [->|Hne]; [lia|].
  pose proof (divide_nearest_spec m k Hk) as Hs.
  pose proof (divide_nearest_spec m' k Hk) as Hs'.
  set (q := divide_nearest m k) in *. set (q' := divide_nearest m' k) in *.
  nia.
Qed.

Section AnyOrder.

Variables (start end_ : Z) (n : nat).
Hypothesis Hs : valid start.
Hypothesis He : valid end_.
Hypothesis Hn : (2 <= n)%nat.

Lemma quotient_between (i : Z) :
  0 <= i < Z.of_nat n ->
  Z.min 0 (end_ - start)
  <= divide_nearest ((end_ - start) * i) (Z.of_nat n - 1)
  <= Z.max 0 (end_ - start).
Proof.
  intros Hi. destruct (Z.le_gt_cases 0 (end_ - start)) as [Hd|Hd].
  - rewrite Z.min_l, Z.max_r by lia.
    apply divide_nearest_between; [lia | nia].
  - rewrite Z.min_r, Z.max_l by lia.
    apply divide_nearest_between; [lia | nia].
Qed.

Lemma align_at_outcome (i : Z) :
  0 <= i < Z.of_nat n ->
  align_at start end_ n i
  = if delta_in_range ((end_ - start) * i)
    then Ok (aligned_timestamp start end_ n i)
    else Err OverflowError.
Proof.
  intros Hi. unfold align_at, aligned_timestamp, delta_mul, delta_truediv,
    datetime_sub, new_delta.
  destruct (delta_in_range ((end_ - start) * i)); [|reflexivity].
  simpl.
  assert (Hk : (Z.of_nat n - 1 =? 0) = false) by (apply Z.eqb_neq; lia).
  rewrite Hk.
  pose proof (quotient_between i Hi) as Hq.
  set (q := divide_nearest ((end_ - start) * i) (Z.of_nat n - 1)) in *.
  assert (Hd : delta_in_range (end_ - start) = true)
    by (apply delta_in_range_any_order; assumption).
  assert (Hqr : delta_in_range q = true).
  { apply (delta_in_range_interval (Z.min 0 (end_ - start)) q
             (Z.max 0 (end_ - start)) Hq).
    - destruct (Z.min_spec 0 (end_ - start)) as [[_ ->]|[_ ->]];
        [reflexivity | exact Hd].
    - destruct (Z.max_spec 0 (end_ - start)) as [[_ ->]|[_ ->]];
        [exact Hd | reflexivity]. }
  rewrite Hqr. simpl. unfold datetime_add, validb. unfold valid in Hs, He.
  assert (Hv : ((0 <=? start + q) && (start + q <? max_ordinal * us_per_day)) = true).
  { apply andb_true_iff. split; [apply Z.leb_le | apply Z.ltb_lt]; lia. }
  rewrite Hv. reflexivity.
Qed.

Lemma product_in_range (i : Z) :
  0 <= i < Z.of_nat n ->
  delta_in_range ((end_ - start) * (Z.of_nat n - 1)) = true ->
  delta_in_range ((end_ - start) * i) = true.
Proof.
  intros Hi Hmax.
  destruct (Z.le_gt_cases 0 (end_ - start)) as [Hd|Hd].
  - apply (delta_in_range_interval 0 _ ((end_ - start) * (Z.of_nat n - 1)));
      [nia | reflexivity | exact Hmax].
  - apply (delta_in_range_interval ((end_ - start) * (Z.of_nat n - 1)) _ 0);
      [nia | exact Hmax | reflexivity].
Qed.

Lemma align_outcome :
  align start end_ n
  = if delta_in_range ((end_ - start) * (Z.of_nat n - 1))
    then Ok (map (aligned_timestamp start end_ n) (range n))
    else Err OverflowError.
Proof.
  unfold align.
  destruct (delta_in_range ((end_ - start) * (Z.of_nat n - 1))) eqn:Hmax.
  - apply comprehension_ok. intros i Hi. apply in_range_iff in Hi.
    rewrite (align_at_outcome i Hi), (product_in_range i Hi Hmax). reflexivity.
  - apply comprehension_first_failure.
    + intros i Hi. apply in_range_iff in Hi. rewrite (align_at_outcome i Hi).
      destruct (delta_in_range ((end_ - start) * i)); eauto.
    + exists (Z.of_nat n - 1). split; [apply in_range_iff; lia|].
      rewrite align_at_outcome by lia. rewrite Hmax. reflexivity.
Qed.

Lemma aligned_between (i : Z) :
  0 <= i < Z.of_nat n ->
  Z.min start end_ <= aligned_timestamp start end_ n i <= Z.max start end_.
Proof.
  intros Hi. pose proof (quotient_between i Hi) as Hq.
  unfold aligned_timestamp. lia.
Qed.

Lemma aligned_monotone (i j : Z) :
  0 <= i <= j ->
  (start <= end_ ->
   aligned_timestamp start end_ n i <= aligned_timestamp start end_ n j) /\
  (end_ <= start ->
   aligned_timestamp start end_ n j <= aligned_timestamp start end_ n i).
Proof.
  intros Hij. unfold aligned_timestamp. split; intros Ho.
  - apply Z.add_le_mono_l. apply divide_nearest_monotone; [lia | nia].
  - apply Z.add_le_mono_l. apply divide_nearest_monotone; [lia | nia].
Qed.

(** Two neighbours are [floor (d / (n-1))] or [ceil (d / (n-1))] apart. *)
Lemma aligned_gap (i : Z) :
  0 <= i ->
  (end_ - start) / (Z.of_nat n - 1)
  <= aligned_timestamp start end_ n (i + 1) - aligned_timestamp start end_ n i
  <= (end_ - start + (Z.of_nat n - 1) - 1) / (Z.of_nat n - 1).
Proof.
  intros Hi. unfold aligned_timestamp.
  set (k := Z.of_nat n - 1). set (D := end_ - start).
  assert (Hk : 0 < k) by (unfold k; lia).
  pose proof (Z.div_mod D k ltac:(lia)) as Hdm.
  pose proof (Z.mod_pos_bound D k Hk) as Hr.
  destruct (Z.eq_dec (D mod k) 0) as [Hz|Hnz].
  - assert (HD : D = (D / k) * k) by lia.
    assert (E1 : D * i = (D / k * i) * k) by nia.
    assert (E2 : D * (i + 1) = (D / k * (i + 1)) * k) by nia.
    rewrite E1, E2, !divide_nearest_exact by lia.
    assert (Hc : (D + k - 1) / k = D / k).
    { symmetry. apply (Z.div_unique _ _ _ (k - 1)); lia. }
    rewrite Hc. lia.
  - pose proof (divide_nearest_spec (D * i) k Hk) as S1.
    pose proof (divide_nearest_spec (D * (i + 1)) k Hk) as S2.
    set (q := divide_nearest (D * i) k) in *.
    set (q' := divide_nearest (D * (i + 1)) k) in *.
    assert (Hc : (D + k - 1) / k = D / k + 1).
    { symmetry. apply (Z.div_unique _ _ _ (D mod k - 1)); lia. }
    rewrite Hc. set (f := D / k) in *. split; nia.
Qed.

End AnyOrder.

Lemma entry_point_time_chart
    (chart : sleep_data -> result line_chart) (channel : sleep_data -> list Q) :
  In (chart, channel) analysis_entry_points ->
  exists title ylim, forall d,
    chart d = time_chart title ylim (start_time d) (end_time d) (channel d).
Proof.
  simpl. intros [H|[H|[H|[H|[]]]]]; injection H as <- <-; eauto.
Qed.

Lemma time_chart_times (title : string) (ylim : option (Z * Z))
    (start end_ : Z) (samples : list Q) (c : line_chart) :
  time_chart title ylim start end_ samples = Ok c ->
  exists ts, align start end_ (length samples) = Ok ts /\
    lc_x c = Times ts /\ lc_y c = samples /\ lc_xlim c = Some (start, end_).
Proof.
  unfold time_chart. destruct (align start end_ (length samples)) as [ts|e];
    simpl; intros H; [|discriminate H].
  injection H as <-. exists ts. repeat split.
Qed.

Lemma chart_times (d : sleep_data)
    (chart : sleep_data -> result line_chart) (channel : sleep_data -> list Q)
    (c : line_chart) (ts : list Z) :
  In (chart, channel) analysis_entry_points ->
  valid (start_time d) -> valid (end_time d) ->
  (2 <= length (channel d))%nat ->
  chart d = Ok c -> lc_x c = Times ts ->
  ts = map (aligned_timestamp (start_time d) (end_time d) (length (channel d)))
         (range (length (channel d))).
Proof.
  intros Hin Hs He Hn Hc Hx.
  destruct (entry_point_time_chart _ _ Hin) as (title & ylim & Hchart).
  rewrite Hchart in Hc. apply time_chart_times in Hc as (ts' & Ha & Hx' & _).
  rewrite Hx in Hx'. injection Hx' as <-.
  rewrite (align_outcome _ _ _ Hs He Hn) in Ha.
  destruct (delta_in_range _); [|discriminate Ha].
  injection Ha as <-. reflexivity.
Qed.

End AlignmentMore.

(** X1.  The four chart functions of [sleep_quality_analysis.py] on a
    channel of at least two samples: the call succeeds exactly when
    [(end - start) * (n - 1)] is a timedelta, whatever the order of [start]
    and [end]; it then draws the channel against the [n] aligned timestamps
    with the x-axis limited to [(start, end)].  Otherwise it ends in
    Python's [OverflowError], and in no other error. *)
Theorem analysis_chart_outcome
    (d : sleep_data)
    (chart : sleep_data -> result line_chart) (channel : sleep_data -> list Q) :
  In (chart, channel) analysis_entry_points ->
  Datetime.valid (start_time d) -> Datetime.valid (end_time d) ->
  (2 <= length (channel d))%nat ->
  if Datetime.delta_in_range
       ((end_time d - start_time d) * (Z.of_nat (length (channel d)) - 1))
  then exists c,
         chart d = Ok c /\
         lc_x c = Times (map (aligned_timestamp (start_time d) (end_time d)
                                (length (channel d)))
                           (range (length (channel d)))) /\
         lc_y c = channel d /\
         lc_xlim c = Some (start_time d, end_time d)
  else chart d = Err OverflowError.
Proof.
  intros Hin Hs He Hn.
  destruct (AlignmentMore.entry_point_time_chart _ _ Hin)
    as (title & ylim & Hchart).
  rewrite Hchart. unfold time_chart.
  rewrite (AlignmentMore.align_outcome _ _ _ Hs He Hn).
  destruct (Datetime.delta_in_range _); simpl.
  - eexists. repeat split.
  - reflexivity.
Qed.

Lemma analysis_chart_outcome_witness :
  generate_hr_chart longest_session = Err OverflowError /\
  exists c, generate_spo2_chart night_session = Ok c /\
            lc_xlim c = Some (63882079200000000, 63882108000000000).
Proof.
  split.
  - apply (analysis_chart_outcome longest_session generate_hr_chart heart_rate).
    + left. reflexivity.
    + unfold Datetime.valid. vm_compute. split; [discriminate | reflexivity].
    + unfold Datetime.valid. vm_compute. split; [discriminate | reflexivity].
    + vm_compute. lia.
  - destruct (analysis_chart_outcome night_session generate_spo2_chart spo2)
      as (c & Hc & _ & _ & Hl).
    + right. right. left. reflexivity.
    + unfold Datetime.valid. vm_compute. split; [discriminate | reflexivity].
    + unfold Datetime.valid. vm_compute. split; [discriminate | reflexivity].
    + vm_compute. lia.
    + exists c. split; [exact Hc | exact Hl].
Defined.

(** X2.  An empty channel is not an error for the chart functions of
    [sleep_quality_analysis.py]: [range(0)] is empty, the division by
    [n - 1] is never evaluated, and the chart is drawn with no point, for
    any [start] and [end]. *)
Theorem empty_channel_draws_empty_chart
    (d : sleep_data)
    (chart : sleep_data -> result line_chart) (channel : sleep_data -> list Q) :
  In (chart, channel) analysis_entry_points ->
  channel d = [] ->
  exists c, chart d = Ok c /\ lc_x c = Times [] /\ lc_y c = [] /\
            lc_xlim c = Some (start_time d, end_time d).
Proof.
  intros Hin Hempty.
  destruct (AlignmentMore.entry_point_time_chart _ _ Hin)
    as (title & ylim & Hchart).
  rewrite Hchart, Hempty. unfold time_chart, align. simpl.
  eexists. repeat split.
Qed.

Lemma empty_channel_draws_empty_chart_witness :
  exists c, generate_hrv_chart one_sample_session = Ok c /\
            lc_x c = Times [] /\ lc_y c = [] /\
            lc_xlim c = Some (start_time one_sample_session,
                              end_time one_sample_session).
Proof.
  apply (empty_channel_draws_empty_chart one_sample_session
           generate_hrv_chart hrv).
  - right. left. reflexivity.
  - reflexivity.
Defined.

(** X3.  Whenever one of the four chart functions of
    [sleep_quality_analysis.py] returns for a session with [start <= end]
    and a channel of at least two samples, every timestamp it draws lies in
    [[start, end]] (so inside the x-limits it sets) and the timestamps never
    decrease. *)
Theorem aligned_timestamps_within_session
    (d : sleep_data)
    (chart : sleep_data -> result line_chart) (channel : sleep_data -> list Q)
    (c : line_chart) (ts : list Z) :
  In (chart, channel) analysis_entry_points ->
  Datetime.valid (start_time d) -> Datetime.valid (end_time d) ->
  start_time d <= end_time d ->
  (2 <= length (channel d))%nat ->
  chart d = Ok c -> lc_x c = Times ts ->
  length ts = length (channel d) /\
  (forall i t, ts !! i = Some t -> start_time d <= t <= end_time d) /\
  non_decreasing ts.
Proof.
  intros Hin Hs He Ho Hn Hc Hx.
  rewrite (AlignmentMore.chart_times d chart channel c ts Hin Hs He Hn Hc Hx).
  set (n := length (channel d)) in *.
  assert (Hlook : forall i t,
             map (aligned_timestamp (start_time d) (end_time d) n) (range n) !! i
             = Some t ->
             (i < n)%nat /\
             t = aligned_timestamp (start_time d) (end_time d) n (Z.of_nat i)).
  { intros i t Ht.
    assert (Hi : (i < n)%nat).
    { apply lookup_lt_Some in Ht. rewrite length_map, length_range in Ht.
      exact Ht. }
    rewrite map_lookup_range in Ht by exact Hi. injection Ht as <-.
    split; [exact Hi | reflexivity]. }
  split; [rewrite length_map, length_range; reflexivity|]. split.
  - intros i t Ht. apply Hlook in Ht as [Hi ->].
    pose proof (AlignmentMore.aligned_between (start_time d) (end_time d) n
                  Hn (Z.of_nat i) ltac:(lia)) as Hb.
    lia.
  - intros i j a b Hij Ha Hb.
    apply Hlook in Ha as [Hi ->]. apply Hlook in Hb as [Hj ->].
    apply (AlignmentMore.aligned_monotone (start_time d) (end_time d) n
             Hn (Z.of_nat i) (Z.of_nat j)); lia.
Qed.

Lemma aligned_timestamps_within_session_witness :
  exists c ts,
    generate_hr_chart night_session = Ok c /\ lc_x c = Times ts /\
    length ts = 4%nat /\
    (forall i t, ts !! i = Some t ->
       start_time night_session <= t <= end_time night_session) /\
    non_decreasing ts.
Proof.
  eexists _, _. split; [reflexivity|]. split; [reflexivity|].
  eapply (aligned_timestamps_within_session night_session generate_hr_chart
            heart_rate).
  - left. reflexivity.
  - unfold Datetime.valid. vm_compute. split; [discriminate | reflexivity].
  - unfold Datetime.valid. vm_compute. split; [discriminate | reflexivity].
  - vm_compute. discriminate.
  - vm_compute. lia.
  - reflexivity.
  - reflexivity.
Defined.

(** X4.  The chart functions of [sleep_quality_analysis.py] do not check
    that [end] follows [start]: for a session with [end < start] and a
    channel of at least two samples the call still succeeds (the product
    being a timedelta), the first timestamp is [start], the last is [end],
    and the timestamps never increase. *)
Theorem reversed_session_runs_backwards
    (d : sleep_data)
    (chart : sleep_data -> result line_chart) (channel : sleep_data -> list Q) :
  In (chart, channel) analysis_entry_points ->
  end_time d < start_time d ->
  (2 <= length (channel d))%nat ->
  session_representable (start_time d) (end_time d) (length (channel d)) ->
  exists c ts,
    chart d = Ok c /\ lc_x c = Times ts /\
    uniform_timestamps (start_time d) (end_time d) (length (channel d)) ts /\
    non_increasing ts.
Proof.
  intros Hin Ho Hn (Hs & He & Hmax).
  destruct (AlignmentMore.entry_point_time_chart _ _ Hin)
    as (title & ylim & Hchart).
  rewrite Hchart. unfold time_chart.
  rewrite (AlignmentMore.align_outcome _ _ _ Hs He Hn), Hmax. simpl.
  eexists _, _. split; [reflexivity|]. split; [reflexivity|]. split.
  - apply aligned_uniform. exact Hn.
  - set (n := length (channel d)) in *.
    intros i j a b Hij Ha Hb.
    assert (Hj : (j < n)%nat).
    { apply lookup_lt_Some in Hb. rewrite length_map, length_range in Hb.
      exact Hb. }
    rewrite map_lookup_range in Ha by lia. rewrite map_lookup_range in Hb by lia.
    injection Ha as <-. injection Hb as <-.
    apply (AlignmentMore.aligned_monotone (start_time d) (end_time d) n
             Hn (Z.of_nat i) (Z.of_nat j)); lia.
Qed.

Lemma reversed_session_runs_backwards_witness :
  exists c ts,
    generate_hr_chart reversed_session = Ok c /\ lc_x c = Times ts /\
    uniform_timestamps (start_time reversed_session)
      (end_time reversed_session) 4 ts /\
    non_increasing ts.
Proof.
  apply (reversed_session_runs_backwards reversed_session generate_hr_chart
           heart_rate).
  - left. reflexivity.
  - vm_compute. reflexivity.
  - vm_compute. lia.
  - unfold session_representable, Datetime.valid. vm_compute.
    repeat split; discriminate.
Defined.

(** X5.  The timestamps drawn by the chart functions of
    [sleep_quality_analysis.py] are evenly spaced up to one microsecond:
    two neighbours are [floor ((end - start) / (n - 1))] or
    [ceil ((end - start) / (n - 1))] microseconds apart. *)
Theorem aligned_timestamps_evenly_spaced
    (d : sleep_data)
    (chart : sleep_data -> result line_chart) (channel : sleep_data -> list Q)
    (c : line_chart) (ts : list Z) :
  In (chart, channel) analysis_entry_points ->
  Datetime.valid (start_time d) -> Datetime.valid (end_time d) ->
  (2 <= length (channel d))%nat ->
  chart d = Ok c -> lc_x c = Times ts ->
  forall i a b, ts !! i = Some a -> ts !! (S i) = Some b ->
    (end_time d - start_time d) / (Z.of_nat (length (channel d)) - 1)
    <= b - a
    <= (end_time d - start_time d + (Z.of_nat (length (channel d)) - 1) - 1)
       / (Z.of_nat (length (channel d)) - 1).
Proof.
  intros Hin Hs He Hn Hc Hx i a b Ha Hb.
  rewrite (AlignmentMore.chart_times d chart channel c ts Hin Hs He Hn Hc Hx)
    in Ha, Hb.
  set (n := length (channel d)) in *.
  assert (Hi : (S i < n)%nat).
  { apply lookup_lt_Some in Hb. rewrite length_map, length_range in Hb.
    exact Hb. }
  rewrite map_lookup_range in Ha by lia. rewrite map_lookup_range in Hb by lia.
  injection Ha as <-. injection Hb as <-.
  replace (Z.of_nat (S i)) with (Z.of_nat i + 1) by lia.
  apply (AlignmentMore.aligned_gap (start_time d) (end_time d) n Hn
           (Z.of_nat i)).
  lia.
Qed.

Lemma aligned_timestamps_evenly_spaced_witness :
  exists c ts,
    generate_temp_chart night_session = Ok c /\ lc_x c = Times ts /\
    forall i a b, ts !! i = Some a -> ts !! (S i) = Some b ->
      28800000000 / 3 <= b - a <= (28800000000 + 3 - 1) / 3.
Proof.
  eexists _, _. split; [reflexivity|]. split; [reflexivity|].
  eapply (aligned_timestamps_evenly_spaced night_session generate_temp_chart
            wrist_temp).
  - right. right. right. left. reflexivity.
  - unfold Datetime.valid. vm_compute. split; [discriminate | reflexivity].
  - unfold Datetime.valid. vm_compute. split; [discriminate | reflexivity].
  - vm_compute. lia.
  - reflexivity.
  - reflexivity.
Defined.

(** ** The stage breakdown: missing and additional keys *)

Module StageMore.
Import Binary64 Binary64Facts PercentFacts StageFacts SleepQualityVisualizer.

Lemma stage_total_empty : stage_total ∅ = 0.
Proof. unfold stage_total. apply map_fold_empty. Qed.

Lemma stage_total_delete (m : gmap string Z) (k : string) :
  stage_total m = stage_total (delete k m) + default 0 (m !! k).
Proof.
  destruct (m !! k) as [v|] eqn:E; simpl.
  - rewrite <- (insert_delete_id m k v E) at 1.
    apply stage_total_insert. apply lookup_delete_eq.
  - rewrite delete_id by exact E. lia.
Qed.

Lemma stage_total_nonneg (m : gmap string Z) :
  non_negative_durations m -> 0 <= stage_total m.
Proof.
  induction m as [|k v m Hk IH] using map_ind; intros Hnn.
  - rewrite stage_total_empty. lia.
  - rewrite stage_total_insert by exact Hk.
    assert (0 <= v) by (apply (Hnn k); apply lookup_insert_eq).
    assert (0 <= stage_total m).
    { apply IH. intros k' v' Hk'. apply (Hnn k').
      rewrite lookup_insert_ne; [exact Hk'|]. intros ->. congruence. }
    lia.
Qed.

Lemma non_negative_empty : non_negative_durations ∅.
Proof. intros k v H. rewrite lookup_empty in H. discriminate H. Qed.

Lemma non_negative_insert (m : gmap string Z) (k : string) (v : Z) :
  0 <= v -> non_negative_durations m -> non_negative_durations (<[k := v]> m).
Proof.
  intros Hv Hnn k' v' H. destruct (decide (k = k')) as [->|Hne].
  - rewrite lookup_insert_eq in H. injection H as <-. exact Hv.
  - rewrite lookup_insert_ne in H by exact Hne. exact (Hnn _ _ H).
Qed.

Lemma non_negative_delete (m : gmap string Z) (k : string) :
  non_negative_durations m -> non_negative_durations (delete k m).
Proof.
  intros Hnn k' v Hk'. apply lookup_delete_Some in Hk' as [_ Hk'].
  exact (Hnn _ _ Hk').
Qed.

Lemma non_negative_default (m : gmap string Z) (k : string) :
  non_negative_durations m -> 0 <= default 0 (m !! k).
Proof.
  intros Hnn. destruct (m !! k) as [v|] eqn:E; simpl; [|lia].
  exact (Hnn _ _ E).
Qed.

(** The total is the sum of the four named stages and of the durations
    under any other key. *)
Lemma stage_total_split (m : gmap string Z) :
  let rest := delete "awake" (delete "light" (delete "rem" (delete "deep" m))) in
  stage_total m
  = sum_Z (stage_durations m) + stage_total rest /\
  (non_negative_durations m -> 0 <= stage_total rest) /\
  (dom m ⊆ list_to_set stage_names -> stage_total rest = 0).
Proof.
  intros rest. split; [|split].
  - unfold stage_durations, stage_names, sum_Z. cbn [map foldr].
    rewrite (stage_total_delete m "deep").
    rewrite (stage_total_delete (delete "deep" m) "rem").
    rewrite (stage_total_delete (delete "rem" (delete "deep" m)) "light").
    rewrite (stage_total_delete
               (delete "light" (delete "rem" (delete "deep" m))) "awake").
    fold rest.
    rewrite !lookup_delete_ne by done. lia.
  - intros Hnn. apply stage_total_nonneg.
    unfold rest. repeat apply non_negative_delete. exact Hnn.
  - intros Hdom.
    assert (E : rest = ∅).
    { apply map_eq. intros k. rewrite lookup_empty. unfold rest.
      destruct (decide (k = "awake")) as [->|N4]; [apply lookup_delete_eq|].
      rewrite lookup_delete_ne by done.
      destruct (decide (k = "light")) as [->|N3]; [apply lookup_delete_eq|].
      rewrite lookup_delete_ne by done.
      destruct (decide (k = "rem")) as [->|N2]; [apply lookup_delete_eq|].
      rewrite lookup_delete_ne by done.
      destruct (decide (k = "deep")) as [->|N1]; [apply lookup_delete_eq|].
      rewrite lookup_delete_ne by done.
      apply not_elem_of_dom. intros Hk. apply Hdom in Hk.
      apply elem_of_list_to_set in Hk. unfold stage_names in Hk.
      rewrite !elem_of_cons, elem_of_nil in Hk. tauto. }
    rewrite E. apply stage_total_empty.
Qed.

Lemma stage_total_fmap (c : Z) (m : gmap string Z) :
  stage_total (Z.mul c <$> m) = c * stage_total m.
Proof.
  induction m as [|k v m Hk IH] using map_ind.
  - rewrite fmap_empty, stage_total_empty. lia.
  - rewrite fmap_insert, !stage_total_insert, IH;
      [lia | exact Hk | rewrite lookup_fmap, Hk; reflexivity].
Qed.

Local Open Scope Q_scope.

(** Four percentages rounded to tenths, for durations that add up to at
    most the total. *)
Lemma tenths_sum_general (T d1 d2 d3 d4 p1 p2 p3 p4 : Z) :
  (0 < T)%Z -> (d1 + d2 + d3 + d4 <= T)%Z ->
  Qabs (inject_Z p1 - 1000 * (inject_Z d1 / inject_Z T)) <= (1 # 2) + (1 # 1000000) ->
  Qabs (inject_Z p2 - 1000 * (inject_Z d2 / inject_Z T)) <= (1 # 2) + (1 # 1000000) ->
  Qabs (inject_Z p3 - 1000 * (inject_Z d3 / inject_Z T)) <= (1 # 2) + (1 # 1000000) ->
  Qabs (inject_Z p4 - 1000 * (inject_Z d4 / inject_Z T)) <= (1 # 2) + (1 # 1000000) ->
  (p1 + p2 + p3 + p4 <= 1002)%Z.
Proof.
  intros HT Hsum H1 H2 H3 H4.
  assert (HTq : 0 < inject_Z T)
    by (change (inject_Z 0 < inject_Z T); rewrite <- Zlt_Qlt; exact HT).
  assert (Hle : (inject_Z d1 + inject_Z d2 + inject_Z d3 + inject_Z d4)
                / inject_Z T <= 1).
  { apply Qle_shift_div_r; [exact HTq|]. rewrite Qmult_1_l.
    rewrite <- !inject_Z_plus, <- Zle_Qle. exact Hsum. }
  assert (E : 1000 * (inject_Z d1 / inject_Z T) + 1000 * (inject_Z d2 / inject_Z T)
              + 1000 * (inject_Z d3 / inject_Z T) + 1000 * (inject_Z d4 / inject_Z T)
              == 1000 * ((inject_Z d1 + inject_Z d2 + inject_Z d3 + inject_Z d4)
                         / inject_Z T)) by (field; lra).
  apply Qabs_Qle_condition in H1, H2, H3, H4.
  set (a1 := 1000 * (inject_Z d1 / inject_Z T)) in *.
  set (a2 := 1000 * (inject_Z d2 / inject_Z T)) in *.
  set (a3 := 1000 * (inject_Z d3 / inject_Z T)) in *.
  set (a4 := 1000 * (inject_Z d4 / inject_Z T)) in *.
  set (s := (inject_Z d1 + inject_Z d2 + inject_Z d3 + inject_Z d4) / inject_Z T) in *.
  assert (Hq : inject_Z (p1 + p2 + p3 + p4) < inject_Z 1003).
  { rewrite !inject_Z_plus. change (inject_Z 1003) with 1003. lra. }
  rewrite <- Zlt_Qlt in Hq. lia.
Qed.

Local Close Scope Q_scope.

Lemma structure_label_missing (name key : string) (stages : gmap string Z)
    (total : Z) :
  stages !! key = None ->
  structure_label name key stages total = Err KeyError.
Proof.
  intros Hk. unfold structure_label, getitem. rewrite Hk. reflexivity.
Qed.

Lemma structure_label_present (name key : string) (stages : gmap string Z)
    (total dur : Z) :
  stages !! key = Some dur -> 0 <= dur <= total -> 0 < total < 2 ^ 53 ->
  exists p, structure_label name key stages total
            = Ok {| lb_stage := name; lb_minutes := dur;
                    lb_percent := OneDecimal p |}.
Proof.
  intros Hk Hd HT. unfold structure_label, getitem. rewrite Hk. cbn [rbind].
  rewrite format_0f_small by lia. cbn [rbind].
  destruct (percent_1f_ok dur total Hd ltac:(lia)) as (p & Hp & _).
  rewrite Hp. exists p. reflexivity.
Qed.

Lemma present_le_total (m : gmap string Z) (k : string) (v : Z) :
  non_negative_durations m -> m !! k = Some v -> 0 <= v <= stage_total m.
Proof.
  intros Hnn Hk. split; [exact (Hnn _ _ Hk)|].
  rewrite (stage_total_delete m k), Hk. simpl.
  pose proof (stage_total_nonneg _ (non_negative_delete m k Hnn)). lia.
Qed.

End StageMore.



(** X7.  [generate_sleep_structure_chart] of the class reads the stages with
    [stages['deep']], [stages['rem']], ...: when one of the four keys is
    missing from a mapping with non-negative durations and a positive total
    below [2^53], the call ends in [KeyError], where
    [generate_sleep_stage_pie_chart] draws the stage with 0 minutes. *)
Theorem structure_chart_missing_stage_key_error (d : sleep_data) (k : string) :
  non_negative_durations (sleep_stages d) ->
  0 < stage_total (sleep_stages d) < 2 ^ 53 ->
  k ∈ stage_names -> sleep_stages d !! k = None ->
  SleepQualityVisualizer.generate_sleep_structure_chart d = Err KeyError.
Proof.
  intros Hnn HT Hk Hnone.
  unfold SleepQualityVisualizer.generate_sleep_structure_chart.
  set (stages := sleep_stages d) in *. set (T := stage_total stages) in *.
  unfold stage_names in Hk. rewrite !elem_of_cons, elem_of_nil in Hk.
  destruct (stages !! "deep") as [dd|] eqn:L1.
  2:{ rewrite StageMore.structure_label_missing by exact L1. reflexivity. }
  destruct (StageMore.structure_label_present "Deep" "deep" stages T dd L1
              (StageMore.present_le_total _ _ _ Hnn L1) HT) as (p1 & ->).
  cbn [rbind].
  destruct (stages !! "rem") as [dr|] eqn:L2.
  2:{ rewrite StageMore.structure_label_missing by exact L2. reflexivity. }
  destruct (StageMore.structure_label_present "REM" "rem" stages T dr L2
              (StageMore.present_le_total _ _ _ Hnn L2) HT) as (p2 & ->).
  cbn [rbind].
  destruct (stages !! "light") as [dl|] eqn:L3.
  2:{ rewrite StageMore.structure_label_missing by exact L3. reflexivity. }
  destruct (StageMore.structure_label_present "Light" "light" stages T dl L3
              (StageMore.present_le_total _ _ _ Hnn L3) HT) as (p3 & ->).
  cbn [rbind].
  destruct (stages !! "awake") as [da|] eqn:L4.
  2:{ rewrite StageMore.structure_label_missing by exact L4. reflexivity. }
  destruct Hk as [->|[->|[->|[->|[]]]]]; congruence.
Qed.

Lemma structure_chart_missing_stage_key_error_witness :
  SleepQualityVisualizer.generate_sleep_structure_chart
    (with_stages no_awake_stages) = Err KeyError.
Proof.
  apply (structure_chart_missing_stage_key_error
           (with_stages no_awake_stages) "awake").
  - unfold with_stages, no_awake_stages. simpl.
    repeat (apply StageMore.non_negative_insert; [lia|]).
    apply StageMore.non_negative_empty.
  - vm_compute. split; reflexivity.
  - unfold stage_names. repeat constructor.
  - reflexivity.
Defined.

(** X8.  The two renderers agree on what they draw: for a mapping with the
    four stage keys, non-negative durations and a positive total below
    [2^53], [generate_sleep_stage_pie_chart] and
    [generate_sleep_structure_chart] return the same sizes, and labels with
    the same minutes and the same percentages; the labels differ in the
    stage names only, [Rem] from [str.title] against the literal [REM]. *)
Theorem renderers_agree (d : sleep_data) :
  complete_stages (sleep_stages d) ->
  stage_total (sleep_stages d) < 2 ^ 53 ->
  exists sz ms ps,
    sizes (generate_sleep_stage_pie_chart d) = Ok sz /\
    sizes (SleepQualityVisualizer.generate_sleep_structure_chart d) = Ok sz /\
    minutes (generate_sleep_stage_pie_chart d) = Ok ms /\
    minutes (SleepQualityVisualizer.generate_sleep_structure_chart d) = Ok ms /\
    percentages (generate_sleep_stage_pie_chart d) = Ok ps /\
    percentages (SleepQualityVisualizer.generate_sleep_structure_chart d) = Ok ps /\
    sz = ms /\
    titles (generate_sleep_stage_pie_chart d) = Ok analysis_titles /\
    titles (SleepQualityVisualizer.generate_sleep_structure_chart d)
    = Ok visualizer_titles.
Proof.
  intros (Hdom & Hnn & HT) Hsmall.
  destruct (StageFacts.complete_four _ Hdom) as (dd & dr & dl & da & Hm).
  pose proof (StageFacts.four_stages_lookup dd dr dl da) as (L1 & L2 & L3 & L4).
  rewrite <- Hm in L1, L2, L3, L4.
  pose proof (Hnn _ _ L1) as N1. pose proof (Hnn _ _ L2) as N2.
  pose proof (Hnn _ _ L3) as N3. pose proof (Hnn _ _ L4) as N4.
  assert (Hsum : stage_total (sleep_stages d) = dd + dr + dl + da)
    by (rewrite Hm; apply StageFacts.stage_total_four).
  set (T := stage_total (sleep_stages d)) in *.
  destruct (PercentFacts.percent_1f_ok dd T ltac:(lia) HT) as (p1 & P1 & _).
  destruct (PercentFacts.percent_1f_ok dr T ltac:(lia) HT) as (p2 & P2 & _).
  destruct (PercentFacts.percent_1f_ok dl T ltac:(lia) HT) as (p3 & P3 & _).
  destruct (PercentFacts.percent_1f_ok da T ltac:(lia) HT) as (p4 & P4 & _).
  rewrite (BreakdownFacts.pie_chart_result d dd dr dl da p1 p2 p3 p4)
    by assumption.
  rewrite (BreakdownFacts.structure_chart_result d dd dr dl da p1 p2 p3 p4)
    by (try assumption; lia).
  exists [dd; dr; dl; da], [dd; dr; dl; da],
    [OneDecimal p1; OneDecimal p2; OneDecimal p3; OneDecimal p4].
  repeat split.
Qed.

Lemma renderers_agree_witness :
  exists sz ms ps,
    sizes (generate_sleep_stage_pie_chart night_session) = Ok sz /\
    sizes (SleepQualityVisualizer.generate_sleep_structure_chart night_session)
    = Ok sz /\
    minutes (generate_sleep_stage_pie_chart night_session) = Ok ms /\
    minutes (SleepQualityVisualizer.generate_sleep_structure_chart night_session)
    = Ok ms /\
    percentages (generate_sleep_stage_pie_chart night_session) = Ok ps /\
    percentages (SleepQualityVisualizer.generate_sleep_structure_chart night_session)
    = Ok ps /\
    sz = ms /\
    titles (generate_sleep_stage_pie_chart night_session) = Ok analysis_titles /\
    titles (SleepQualityVisualizer.generate_sleep_structure_chart night_session)
    = Ok visualizer_titles.
Proof.
  apply (renderers_agree night_session).
  - apply (four_stages_complete 90 80 200 10); lia.
  - vm_compute. reflexivity.
Defined.

(** ** Rounding depends on the value only *)

Module RoundingFacts.
Import Datetime DatetimeFacts Binary64 Binary64Facts.

Lemma divide_nearest_tie (m n : Z) :
  0 < n -> 2 * Z.abs (divide_nearest m n * n - m) = n ->
  Z.even (divide_nearest m n) = true.
Proof.
  intros Hn. unfold divide_nearest.
  pose proof (Z.div_mod m n ltac:(lia)) as Hdm.
  pose proof (Z.mod_pos_bound m n Hn) as Hr.
  set (q := m / n) in *. set (r := m mod n) in *.
  assert (Hpos : (0 <? n) = true) by (apply Z.ltb_lt; exact Hn).
  rewrite Hpos.
  destruct (n <? 2 * r) eqn:Hgt; simpl.
  - apply Z.ltb_lt in Hgt. lia.
  - apply Z.ltb_ge in Hgt.
    destruct (2 * r =? n) eqn:Heq; simpl.
    + destruct (Z.odd q) eqn:Hodd; intros _.
      * rewrite Z.even_add, <- Z.negb_odd, Hodd. reflexivity.
      * rewrite <- Z.negb_odd, Hodd. reflexivity.
    + apply Z.eqb_neq in Heq. lia.
Qed.

Lemma divide_nearest_unique (m n q : Z) :
  0 < n -> 2 * Z.abs (q * n - m) <= n ->
  (2 * Z.abs (q * n - m) = n -> Z.even q = true) ->
  q = divide_nearest m n.
Proof.
  intros Hn Hq Htie.
  pose proof (divide_nearest_spec m n Hn) as Hs.
  pose proof (divide_nearest_tie m n Hn) as Ht.
  set (q' := divide_nearest m n) in *.
  destruct (Z.eq_dec q q') as [E|Hne]; [exact E | exfalso].
  assert (Hd : q = q' + 1 \/ q' = q + 1) by nia.
  assert (T1 : 2 * Z.abs (q * n - m) = n) by nia.
  assert (T2 : 2 * Z.abs (q' * n - m) = n) by nia.
  specialize (Htie T1). specialize (Ht T2).
  destruct Hd as [->| ->].
  - rewrite Z.even_add, Ht in Htie. discriminate Htie.
  - rewrite Z.even_add, Htie in Ht. discriminate Ht.
Qed.

(** The quotient depends on the ratio only. *)
Lemma divide_nearest_ratio (m n m' n' : Z) :
  0 < n -> 0 < n' -> m * n' = m' * n ->
  divide_nearest m n = divide_nearest m' n'.
Proof.
  intros Hn Hn' E.
  pose proof (divide_nearest_spec m n Hn) as Hs.
  pose proof (divide_nearest_tie m n Hn) as Ht.
  set (q := divide_nearest m n) in *.
  assert (Hx : (q * n' - m') * n = (q * n - m) * n') by nia.
  apply divide_nearest_unique; [exact Hn' | nia |].
  intros Htie. apply Ht. nia.
Qed.

Lemma round_half_even_compat (q q' : Q) :
  (q == q')%Q -> round_half_even q = round_half_even q'.
Proof.
  intros E. unfold round_half_even.
  apply divide_nearest_ratio; [lia | lia | exact E].
Qed.

Local Open Scope Q_scope.

Lemma pow2_lt_inv (k k' : Z) : pow2 k < pow2 (k' + 1) -> (k <= k')%Z.
Proof.
  intros H. apply Qpower_lt_compat_l_inv in H; [lia | reflexivity].
Qed.

Lemma ratio_of (q : Q) : inject_Z (Qnum q) / inject_Z (Zpos (Qden q)) == q.
Proof. rewrite <- Qmake_Qdiv. destruct q; reflexivity. Qed.

Lemma Qnum_pos (q : Q) : 0 < q -> (0 < Qnum q)%Z.
Proof. destruct q as [n d]. unfold Qlt. simpl. lia. Qed.

Lemma ulp_exponent_compat (q q' : Q) :
  0 < q -> q == q' -> ulp_exponent q = ulp_exponent q'.
Proof.
  intros Hpos E. assert (Hpos' : 0 < q') by (rewrite <- E; exact Hpos).
  unfold ulp_exponent.
  pose proof (ilog2_spec (Qnum q) (Zpos (Qden q)) (Qnum_pos q Hpos)
                (Pos2Z.is_pos _)) as [L U].
  pose proof (ilog2_spec (Qnum q') (Zpos (Qden q')) (Qnum_pos q' Hpos')
                (Pos2Z.is_pos _)) as [L' U'].
  rewrite ratio_of in L, U, L', U'.
  set (k := ilog2 (Qnum q) (Zpos (Qden q))) in *.
  set (k' := ilog2 (Qnum q') (Zpos (Qden q'))) in *.
  assert (H1 : (k <= k')%Z) by (apply pow2_lt_inv; lra).
  assert (H2 : (k' <= k)%Z) by (apply pow2_lt_inv; lra).
  lia.
Qed.

Lemma round_pos_compat (q q' : Q) :
  0 < q -> q == q' -> round_pos q == round_pos q'.
Proof.
  intros Hpos E. unfold round_pos.
  rewrite <- (ulp_exponent_compat q q' Hpos E).
  set (e := ulp_exponent q).
  assert (E' : q / pow2 e == q' / pow2 e) by (rewrite E; reflexivity).
  rewrite (round_half_even_compat _ _ E'). reflexivity.
Qed.

Lemma b64_of_neg (q : Q) : q < 0 -> b64 q = - round_pos (- q).
Proof.
  destruct q as [[|p|p] d]; unfold Qlt; simpl; intros H; try lia.
  reflexivity.
Qed.

Lemma b64_compat (q q' : Q) : q == q' -> b64 q == b64 q'.
Proof.
  intros E.
  destruct (Q_dec q 0) as [[Hneg|Hpos]|Hz].
  - rewrite (b64_of_neg q Hneg), (b64_of_neg q') by (rewrite <- E; exact Hneg).
    apply Qopp_comp. apply round_pos_compat; [lra | rewrite E; reflexivity].
  - rewrite (b64_of_pos q Hpos), (b64_of_pos q') by (rewrite <- E; exact Hpos).
    apply round_pos_compat; assumption.
  - rewrite (b64_of_zero q Hz), (b64_of_zero q') by (rewrite <- E; exact Hz).
    reflexivity.
Qed.

Lemma Qle_bool_compat (x y y' : Q) : y == y' -> Qle_bool x y = Qle_bool x y'.
Proof.
  intros E. destruct (Qle_bool x y) eqn:H1, (Qle_bool x y') eqn:H2;
    try reflexivity.
  - apply Qle_bool_iff in H1. rewrite E in H1. apply Qle_bool_iff in H1.
    congruence.
  - apply Qle_bool_iff in H2. rewrite <- E in H2. apply Qle_bool_iff in H2.
    congruence.
Qed.

Lemma overflows_compat (q q' : Q) : q == q' -> overflows q = overflows q'.
Proof.
  intros E. unfold overflows. apply Qle_bool_compat.
  rewrite (b64_compat q q' E). reflexivity.
Qed.

Lemma ratio_scale (c a b : Z) :
  c <> 0%Z -> b <> 0%Z ->
  inject_Z (c * a) / inject_Z (c * b) == inject_Z a / inject_Z b.
Proof.
  intros Hc Hb. rewrite !inject_Z_mult.
  assert (~ inject_Z c == 0).
  { intros H. unfold Qeq in H. simpl in H. lia. }
  assert (~ inject_Z b == 0).
  { intros H'. unfold Qeq in H'. simpl in H'. lia. }
  field. split; assumption.
Qed.

(** [dur / total * 100] to one decimal depends on the ratio only. *)
Lemma percent_1f_scale (c dur total : Z) :
  c <> 0%Z -> percent_1f (c * dur) (c * total) = percent_1f dur total.
Proof.
  intros Hc. unfold percent_1f, int_truediv.
  destruct (Z.eq_dec total 0%Z) as [->|Hne].
  - rewrite Z.mul_0_r. reflexivity.
  - assert (E0 : (c * total =? 0)%Z = false) by (apply Z.eqb_neq; lia).
    assert (E1 : (total =? 0)%Z = false) by (apply Z.eqb_neq; lia).
    rewrite E0, E1.
    pose proof (ratio_scale c dur total Hc Hne) as E.
    rewrite (overflows_compat _ _ E).
    destruct (overflows (inject_Z dur / inject_Z total)); [reflexivity|].
    cbn [rbind].
    assert (Ex : b64 (inject_Z (c * dur) / inject_Z (c * total)) * 100
                 == b64 (inject_Z dur / inject_Z total) * 100)
      by (rewrite (b64_compat _ _ E); reflexivity).
    rewrite (overflows_compat _ _ Ex).
    destruct (overflows (b64 (inject_Z dur / inject_Z total) * 100));
      [reflexivity|].
    unfold format_1f, float_mul.
    assert (Ey : 10 * b64 (b64 (inject_Z (c * dur) / inject_Z (c * total)) * 100)
                 == 10 * b64 (b64 (inject_Z dur / inject_Z total) * 100))
      by (rewrite (b64_compat _ _ Ex); reflexivity).
    rewrite (round_half_even_compat _ _ Ey). reflexivity.
Qed.

End RoundingFacts.





(** ** Channel importance: magnitudes, dead channels, more channels *)

Module ImportanceMore.
Import ImportanceFacts.
Local Open Scope Q_scope.

Lemma divide_compat (a a' s s' : Q) :
  a == a' -> s == s' -> npfloat_eq (divide a s) (divide a' s').
Proof.
  intros Ea Es. unfold divide.
  destruct (Qeq_bool s 0) eqn:Hs.
  - apply Qeq_bool_iff in Hs.
    rewrite (proj2 (Qeq_bool_iff s' 0)) by (rewrite <- Es; exact Hs).
    destruct (Qeq_bool a 0) eqn:Ha.
    + apply Qeq_bool_iff in Ha.
      rewrite (proj2 (Qeq_bool_iff a' 0)) by (rewrite <- Ea; exact Ha).
      exact I.
    + assert (Ha' : Qeq_bool a' 0 = false).
      { destruct (Qeq_bool a' 0) eqn:H; [|reflexivity].
        apply Qeq_bool_iff in H. rewrite <- Ea in H.
        apply Qeq_bool_iff in H. congruence. }
      rewrite Ha'.
      destruct (Qle_bool 0 a) eqn:Hle.
      * apply Qle_bool_iff in Hle.
        rewrite (proj2 (Qle_bool_iff 0 a')) by (rewrite <- Ea; exact Hle).
        exact I.
      * assert (Hle' : Qle_bool 0 a' = false).
        { destruct (Qle_bool 0 a') eqn:H; [|reflexivity].
          apply Qle_bool_iff in H. rewrite <- Ea in H.
          apply Qle_bool_iff in H. congruence. }
        rewrite Hle'. exact I.
  - assert (Hs' : Qeq_bool s' 0 = false).
    { destruct (Qeq_bool s' 0) eqn:H; [|reflexivity].
      apply Qeq_bool_iff in H. rewrite <- Es in H.
      apply Qeq_bool_iff in H. congruence. }
    rewrite Hs'. simpl. rewrite Ea, Es. reflexivity.
Qed.

Lemma channel_abs_sum_magnitudes (ks f : nat) (K K' : nat -> nat -> nat -> Q)
    (c : nat) :
  (forall k c o, Qabs (K' k c o) == Qabs (K k c o)) ->
  channel_abs_sum ks f K' c == channel_abs_sum ks f K c.
Proof.
  intros H. unfold channel_abs_sum, abs_sum_at.
  apply sum_upto_ext. intros k. apply sum_upto_ext. intros o. apply H.
Qed.

Lemma total_abs_sum_magnitudes (ks cin f : nat) (K K' : nat -> nat -> nat -> Q) :
  (forall k c o, Qabs (K' k c o) == Qabs (K k c o)) ->
  total_abs_sum ks cin f K' == total_abs_sum ks cin f K.
Proof.
  intros H. unfold total_abs_sum.
  rewrite (sum_list_map_scale _ (channel_abs_sum ks f K)
             (channel_abs_sum ks f K') 1).
  - ring.
  - intros i. rewrite (channel_abs_sum_magnitudes ks f K K' i H). ring.
Qed.

Lemma channel_name_index (name : string) :
  name ∈ channel_names -> exists i, channel_names !! i = Some name.
Proof. intros H. apply list_elem_of_lookup_1 in H. exact H. Qed.

Lemma sum_upto_zero_iff (n : nat) (f : nat -> Q) :
  (forall i, 0 <= f i) ->
  (sum_upto n f == 0 <-> forall i, (i < n)%nat -> f i == 0).
Proof.
  intros Hf. induction n as [|n IH]; simpl.
  - split; [intros _ i Hi; lia | reflexivity].
  - pose proof (sum_upto_nonneg n f Hf) as Hn. pose proof (Hf n) as Hfn.
    split.
    + intros H i Hi.
      assert (Hs : sum_upto n f == 0) by lra.
      destruct (Nat.eq_dec i n) as [->|Hne]; [lra|].
      apply IH; [exact Hs | lia].
    + intros H.
      assert (Hs : sum_upto n f == 0) by (apply IH; intros i Hi; apply H; lia).
      rewrite Hs, (H n) by lia. reflexivity.
Qed.

Lemma Qabs_zero_iff (x : Q) : Qabs x == 0 <-> x == 0.
Proof.
  split; intros H.
  - pose proof (Qabs_nonneg x). pose proof (Qle_Qabs x).
    pose proof (Qle_Qabs (- x)) as Hm. rewrite Qabs_opp in Hm. lra.
  - rewrite H. reflexivity.
Qed.

Lemma channel_abs_sum_zero_iff (ks f : nat) (K : nat -> nat -> nat -> Q)
    (c : nat) :
  channel_abs_sum ks f K c == 0 <-> dead_channel ks f K c.
Proof.
  unfold channel_abs_sum, abs_sum_at, dead_channel.
  rewrite sum_upto_zero_iff
    by (intros k; apply sum_upto_nonneg; intros o; apply Qabs_nonneg).
  split.
  - intros H k o Hk Ho. specialize (H k Hk).
    rewrite sum_upto_zero_iff in H by (intros o'; apply Qabs_nonneg).
    apply Qabs_zero_iff. apply H. exact Ho.
  - intros H k Hk.
    apply sum_upto_zero_iff; [intros o'; apply Qabs_nonneg|].
    intros o Ho. apply Qabs_zero_iff. apply H; assumption.
Qed.

Lemma sum_list_map_app (g : nat -> Q) (l1 l2 : list nat) :
  sum_list (map g (l1 ++ l2)) == sum_list (map g l1) + sum_list (map g l2).
Proof.
  induction l1 as [|i l1 IH]; simpl; [ring|]. rewrite IH. ring.
Qed.

Lemma sum_list_map_zero_iff (g : nat -> Q) (l : list nat) :
  (forall i, 0 <= g i) ->
  (sum_list (map g l) == 0 <-> forall i, In i l -> g i == 0).
Proof.
  intros Hg. induction l as [|j l IH]; simpl.
  - split; [intros _ i [] | reflexivity].
  - pose proof (sum_list_map_nonneg l g Hg) as Hl. pose proof (Hg j) as Hj.
    split.
    + intros H i [<-|Hi]; [lra|]. apply IH; [lra | exact Hi].
    + intros H.
      assert (Hs : sum_list (map g l) == 0)
        by (apply IH; intros i Hi; apply H; right; exact Hi).
      rewrite Hs, (H j) by (left; reflexivity). reflexivity.
Qed.

(** The total over [cin >= 4] channels: the four named ones and the rest. *)
Lemma total_abs_sum_split (ks cin f : nat) (K : nat -> nat -> nat -> Q) :
  (4 <= cin)%nat ->
  total_abs_sum ks cin f K
  == channel_abs_sum ks f K 0 + channel_abs_sum ks f K 1
     + channel_abs_sum ks f K 2 + channel_abs_sum ks f K 3
     + sum_list (map (channel_abs_sum ks f K) (seq 4 (cin - 4))).
Proof.
  intros Hc. unfold total_abs_sum.
  replace cin with (4 + (cin - 4))%nat at 1 by lia.
  rewrite seq_app, sum_list_map_app. simpl. ring.
Qed.

End ImportanceMore.

(** X11.  [compute_channel_importance] reads the magnitudes of the kernel
    of layer 1 and nothing else: a convolution with the same shape whose
    kernel entries have the same absolute values, whatever their signs and
    whatever its bias, gets the same importances (and the same error for
    fewer than 4 input channels). *)
Theorem importance_depends_on_magnitudes (m : model)
    (filters kernel_size input_channels : nat)
    (kernel kernel' : nat -> nat -> nat -> Q) (bias bias' : nat -> Q) :
  layers m !! 1%nat
  = Some (Conv1D filters kernel_size input_channels kernel bias) ->
  (forall k c o, (Qabs (kernel' k c o) == Qabs (kernel k c o))%Q) ->
  same_importance
    (compute_channel_importance
       (replace_layer1
          (Conv1D filters kernel_size input_channels kernel' bias') m))
    (compute_channel_importance m).
Proof.
  intros Hl Habs.
  rewrite !ImportanceFacts.importance_by_layer1, Hl.
  unfold replace_layer1. cbn [layers].
  rewrite list_lookup_insert_eq by (apply lookup_lt_Some in Hl; exact Hl).
  rewrite !ImportanceFacts.importance_of_conv.
  destruct (4 <=? input_channels)%nat; [|reflexivity].
  intros name. destruct (decide (name ∈ channel_names)) as [Hin|Hout].
  - destruct (ImportanceMore.channel_name_index name Hin) as [i Hi].
    rewrite !(ImportanceFacts.importance_dict_lookup _ _ _ _ i name Hi).
    constructor. apply ImportanceMore.divide_compat.
    + apply ImportanceMore.channel_abs_sum_magnitudes. exact Habs.
    + apply ImportanceMore.total_abs_sum_magnitudes. exact Habs.
  - rewrite !ImportanceFacts.importance_dict_other by exact Hout.
    constructor.
Qed.

Lemma importance_depends_on_magnitudes_witness :
  same_importance
    (compute_channel_importance
       (replace_layer1 (Conv1D 2 1 4 signed_filter_kernel (fun _ => 7%Q))
          two_filter_model))
    (compute_channel_importance two_filter_model).
Proof.
  apply (importance_depends_on_magnitudes two_filter_model 2 1 4
           two_filter_kernel signed_filter_kernel (fun _ => 0%Q)).
  - reflexivity.
  - intros k [|[|c]] [|[|o]]; reflexivity.
Defined.





(** X14.  [build_sleep_cnn] takes the number of channels as a parameter,
    [compute_channel_importance] does not: on a model built for fewer than
    4 channels the extractor ends in [IndexError], on one built for 4 or
    more it returns the dict of the first four channels of the first
    convolution, whatever the input length and the weights. *)
Theorem built_model_importance_by_channels
    (shape_accepted : Z -> Z -> bool) (w : weights)
    (input_length channels : Z) (m : model) :
  build_sleep_cnn shape_accepted w input_length channels = Ok m ->
  compute_channel_importance m
  = if channels <? 4 then Err IndexError
    else Ok (importance_dict 5 (Z.to_nat channels) 32 (conv1_kernel w)).
Proof.
  unfold build_sleep_cnn. intros Hbuild.
  destruct (shape_accepted input_length channels); [|discriminate Hbuild].
  injection Hbuild as <-.
  rewrite ImportanceFacts.importance_by_layer1. cbn [layers lookup list_lookup].
  rewrite ImportanceFacts.importance_of_conv.
  destruct (channels <? 4) eqn:E.
  - apply Z.ltb_lt in E.
    rewrite (proj2 (Nat.leb_gt 4 (Z.to_nat channels))) by lia. reflexivity.
  - apply Z.ltb_ge in E.
    rewrite (proj2 (Nat.leb_le 4 (Z.to_nat channels))) by lia. reflexivity.
Qed.

Lemma built_model_importance_by_channels_witness :
  exists m,
    build_sleep_cnn accepts_from_two unit_weights 8 3 = Ok m /\
    compute_channel_importance m = Err IndexError.
Proof.
  eexists. split; [reflexivity|].
  eapply (built_model_importance_by_channels accepts_from_two unit_weights 8 3).
  reflexivity.
Defined.

(** ** The heart-rate chart of the class *)

Module HeartRateFacts.
Import Datetime DatetimeFacts Binary64 Binary64Facts StageFacts
  RoundingFacts SleepQualityVisualizer.
Local Open Scope Q_scope.

Lemma inject_Z_nonneg (z : Z) : (0 <= z)%Z -> 0 <= inject_Z z.
Proof. intros H. change (inject_Z 0 <= inject_Z z). rewrite <- Zle_Qle. exact H. Qed.

Lemma inject_Z_pos (z : Z) : (0 < z)%Z -> 0 < inject_Z z.
Proof. intros H. change (inject_Z 0 < inject_Z z). rewrite <- Zlt_Qlt. exact H. Qed.

(** The seconds between two datetimes in order are a finite float. *)
Lemma total_seconds_ok (start end_ : Z) :
  valid start -> valid end_ -> (start <= end_)%Z ->
  total_seconds (datetime_sub end_ start)
  = Ok (b64 (inject_Z (end_ - start) / 1000000)).
Proof.
  unfold valid, max_ordinal, us_per_day, total_seconds, datetime_sub, int_truediv.
  intros Hs He Ho. simpl Z.eqb. cbv iota.
  change (inject_Z 1000000) with 1000000.
  set (q := inject_Z (end_ - start) / 1000000).
  assert (H0 : 0 <= q).
  { unfold q. apply Qle_shift_div_l; [reflexivity|].
    rewrite Qmult_0_l. apply inject_Z_nonneg. lia. }
  assert (Hq : q < pow2 39).
  { rewrite pow2_inject by lia. unfold q.
    apply Qlt_shift_div_r; [reflexivity|].
    change 1000000 with (inject_Z 1000000). rewrite <- inject_Z_mult, <- Zlt_Qlt.
    lia. }
  pose proof (b64_error q 39 H0 Hq) as Herr.
  pose proof (b64_nonneg q H0) as Hn.
  rewrite (not_overflows_below q 40); [reflexivity | lia |].
  rewrite Qabs_pos by exact Hn.
  apply Qabs_Qle_condition in Herr.
  assert (E1 : pow2 (Z.max (39 - 53) (-1074)) * (1 # 2) <= 1) by (vm_compute; discriminate).
  assert (E2 : pow2 39 + 1 < pow2 40) by (vm_compute; reflexivity).
  lra.
Qed.

(** No time has passed at sample 0. *)
Lemma sample_time_first (start : Z) (duration : Q) (n : nat) :
  valid start -> sample_time start duration n 0 = Ok start.
Proof.
  intros Hs. unfold sample_time, float_div, float_mul.
  assert (E1 : b64 (duration * inject_Z 0) = 0)
    by (apply b64_of_zero; change (inject_Z 0) with 0; ring).
  rewrite E1.
  assert (E2 : b64 (0 / inject_Z (Z.of_nat n)) = 0)
    by (apply b64_of_zero; unfold Qdiv; ring).
  rewrite E2. unfold timedelta_hours, float_mul.
  change (truncate 0) with 0%Z.
  assert (E3 : b64 (3600000000 * (0 - inject_Z 0)) = 0)
    by (apply b64_of_zero; reflexivity).
  rewrite E3. change (round_half_even (inject_Z (0 * 3600000000) + 0)) with 0%Z.
  change (new_delta 0) with (Ok 0%Z). cbn [rbind].
  unfold datetime_add, validb. rewrite Z.add_0_r.
  unfold valid in Hs.
  rewrite (proj2 (Z.leb_le 0 start)), (proj2 (Z.ltb_lt start _)) by lia.
  reflexivity.
Qed.

Lemma comprehension_head {A B : Type} (f : A -> result B) (a : A) (l : list A)
    (bs : list B) (b : B) :
  f a = Ok b -> comprehension f (a :: l) = Ok bs -> head bs = Some b.
Proof.
  intros Ha. simpl. rewrite Ha. cbn [rbind].
  destruct (comprehension f l); simpl; intros H; [|discriminate H].
  injection H as <-. reflexivity.
Qed.

Lemma range_succ (n : nat) : range (S n) = 0%Z :: map Z.succ (range n).
Proof.
  unfold range. simpl. f_equal. rewrite <- seq_shift, !map_map.
  apply map_ext. intros k. lia.
Qed.

End HeartRateFacts.



(** *** The rounding of the float arithmetic in [generate_heart_rate_chart] *)

Module HeartRateError.
Import Datetime DatetimeFacts Binary64 Binary64Facts StageFacts
  RoundingFacts SleepQualityVisualizer HeartRateFacts AlignmentMore.
Local Open Scope Q_scope.

Lemma pow2_add (a b : Z) : pow2 (a + b) == pow2 a * pow2 b.
Proof. unfold pow2. apply Qpower_plus. discriminate. Qed.

(** The relative error of a rounding: half a unit in the last place of a
    normal number, half the subnormal spacing below. *)
Lemma b64_rel_error (q : Q) :
  0 <= q ->
  Qabs (b64 q - q)
  <= q * (1 # 9007199254740992) + (1 # 1267650600228229401496703205376).
Proof.
  intros H0.
  destruct (Qlt_le_dec 0 q) as [Hpos|Hle].
  2:{ assert (Hz : q == 0) by lra. rewrite (b64_of_zero q Hz), Hz.
      vm_compute. discriminate. }
  rewrite (b64_of_pos q Hpos).
  eapply Qle_trans; [apply round_pos_error|].
  unfold ulp_exponent.
  pose proof (ilog2_spec (Qnum q) (Zpos (Qden q)) (Qnum_pos q Hpos)
                (Pos2Z.is_pos _)) as [L _].
  rewrite ratio_of in L.
  set (k := ilog2 (Qnum q) (Zpos (Qden q))) in *.
  destruct (Z.max_spec (k - 52) (-1074)) as [[_ ->]|[_ ->]].
  - assert (E : pow2 (-1074) * (1 # 2)
                <= 1 # 1267650600228229401496703205376)
      by (vm_compute; discriminate).
    assert (0 <= q * (1 # 9007199254740992)) by lra.
    lra.
  - replace (k - 52)%Z with (k + -52)%Z by lia.
    rewrite pow2_add.
    assert (E : pow2 (-52) * (1 # 2) == 1 # 9007199254740992) by reflexivity.
    rewrite <- Qmult_assoc, E.
    assert (Hm : pow2 k * (1 # 9007199254740992)
                 <= q * (1 # 9007199254740992))
      by (apply Qmult_le_compat_r; [exact L | discriminate]).
    lra.
Qed.

(** One rounding after an approximation with relative error [r] and
    absolute error [e]. *)
Lemma b64_step (x y r e : Q) :
  0 <= x -> Qabs (x - y) <= r * y + e ->
  Qabs (b64 x - y)
  <= (r + (1 # 9007199254740992) + r * (1 # 9007199254740992)) * y
     + ((1 + (1 # 9007199254740992)) * e
        + (1 # 1267650600228229401496703205376)).
Proof.
  intros Hx H. pose proof (b64_rel_error x Hx) as Hb.
  apply Qabs_Qle_condition in H, Hb.
  apply (proj2 (Qabs_Qle_condition _ _)).
  set (ry := r * y) in *.
  assert (E : (r + (1 # 9007199254740992) + r * (1 # 9007199254740992)) * y
              == ry + (1 # 9007199254740992) * y + (1 # 9007199254740992) * ry)
    by (unfold ry; ring).
  rewrite E. split; lra.
Qed.

Lemma scale_step (x y r e c : Q) :
  0 <= c -> Qabs (x - y) <= r * y + e ->
  Qabs (x * c - y * c) <= r * (y * c) + e * c.
Proof.
  intros Hc H.
  assert (E : x * c - y * c == (x - y) * c) by ring.
  rewrite E, Qabs_Qmult, (Qabs_pos c) by exact Hc.
  assert (E' : r * (y * c) + e * c == (r * y + e) * c) by ring.
  rewrite E'. apply Qmult_le_compat_r; assumption.
Qed.

Lemma truncate_floor (q : Q) :
  0 <= q -> inject_Z (truncate q) <= q /\ q < inject_Z (truncate q) + 1.
Proof.
  destruct q as [a b]. unfold truncate, Qle, Qlt. simpl. intros Ha.
  rewrite Z.quot_div_nonneg by lia.
  pose proof (Z.div_mod a (Zpos b) ltac:(lia)) as Hdm.
  pose proof (Z.mod_pos_bound a (Zpos b) ltac:(lia)) as Hr.
  split; nia.
Qed.

(** The float [duration * i / len(hr)], in microseconds, against the
    exact [(end - start) * i / n]. *)
Lemma hours_near (delta : Z) (n : nat) (i : Z) :
  (0 <= delta < 2 ^ 40)%Z -> (0 <= i < Z.of_nat n)%Z ->
  let duration := float_div (b64 (inject_Z delta / 1000000)) 3600 in
  let hours := float_div (float_mul duration (inject_Z i))
                         (inject_Z (Z.of_nat n)) in
  0 <= hours /\
  Qabs (3600000000 * hours
        - inject_Z delta * (inject_Z i * / inject_Z (Z.of_nat n)))
  <= 1 # 1024.
Proof.
  intros Hd Hi duration hours.
  set (Dq := inject_Z delta). set (I := inject_Z i).
  set (N := / inject_Z (Z.of_nat n)).
  assert (HD0 : 0 <= Dq) by (apply inject_Z_nonneg; lia).
  assert (HD1 : Dq <= 1099511627776)
    by (unfold Dq; change 1099511627776 with (inject_Z (2 ^ 40));
        rewrite <- Zle_Qle; lia).
  assert (HI0 : 0 <= I) by (apply inject_Z_nonneg; lia).
  assert (Hn0 : 0 < inject_Z (Z.of_nat n)) by (apply inject_Z_pos; lia).
  assert (HN0 : 0 <= N) by (apply Qinv_le_0_compat; lra).
  assert (HN1 : N <= 1).
  { unfold N. apply Qle_shift_inv_r; [exact Hn0|]. rewrite Qmult_1_l.
    change 1 with (inject_Z 1). rewrite <- Zle_Qle. lia. }
  assert (HIN0 : 0 <= I * N) by (apply Qmult_le_0_compat; assumption).
  assert (HIN1 : I * N <= 1).
  { unfold N. apply Qle_shift_div_r; [exact Hn0|]. rewrite Qmult_1_l.
    unfold I. rewrite <- Zle_Qle. lia. }
  set (A := Dq * (1 # 1000000)).
  assert (HA0 : 0 <= A) by (unfold A; lra).
  (* seconds *)
  assert (S1 : Qabs (A - A) <= 0 * A + 0).
  { assert (E : A - A == 0) by ring. rewrite E. vm_compute. discriminate. }
  apply (b64_step A A 0 0 HA0) in S1.
  pose proof (b64_nonneg A HA0) as Hs0.
  set (s := b64 A) in *.
  (* hours of the session *)
  apply (scale_step _ _ _ _ (1 # 3600) ltac:(discriminate)) in S1.
  assert (HB0 : 0 <= s * (1 # 3600)) by lra.
  apply (b64_step _ _ _ _ HB0) in S1.
  pose proof (b64_nonneg _ HB0) as Hdur0.
  change (b64 (s * (1 # 3600))) with duration in S1, Hdur0.
  (* times i *)
  apply (scale_step _ _ _ _ I HI0) in S1.
  assert (HC0 : 0 <= duration * I) by (apply Qmult_le_0_compat; assumption).
  apply (b64_step _ _ _ _ HC0) in S1.
  pose proof (b64_nonneg _ HC0) as HM0.
  set (M := b64 (duration * I)) in *.
  (* over n *)
  apply (scale_step _ _ _ _ N HN0) in S1.
  assert (HE0 : 0 <= M * N) by (apply Qmult_le_0_compat; assumption).
  apply (b64_step _ _ _ _ HE0) in S1.
  pose proof (b64_nonneg _ HE0) as HH0.
  change (b64 (M * N)) with hours in S1, HH0.
  split; [exact HH0|].
  set (P := Dq * (I * N)).
  assert (HP0 : 0 <= P) by (apply Qmult_le_0_compat; assumption).
  assert (HP1 : P <= Dq).
  { unfold P. rewrite <- (Qmult_1_r Dq) at 2.
    rewrite !(Qmult_comm Dq). apply Qmult_le_compat_r; assumption. }
  assert (EY : A * (1 # 3600) * I * N == P * (1 # 3600000000))
    by (unfold A, P; ring).
  rewrite EY in S1.
  apply Qabs_Qle_condition in S1.
  apply (proj2 (Qabs_Qle_condition _ _)).
  fold P.
  generalize dependent hours. intros hours S1 _.
  clearbody P N I. clear - S1 HP0 HP1 HD1 HN0 HN1 HIN0 HIN1.
  split; lra.
Qed.

(** [timedelta(hours=h)] is within half a microsecond of [h] hours, up
    to the rounding of the product by 3600000000. *)
Lemma timedelta_hours_near (h : Q) :
  0 <= h ->
  exists us, timedelta_hours h = new_delta us /\ (0 <= us)%Z /\
    Qabs (inject_Z us - 3600000000 * h) <= (1 # 2) + (1 # 4194304).
Proof.
  intros Hh. unfold timedelta_hours, float_mul.
  destruct (truncate_floor h Hh) as [Hlo Hhi].
  set (ip := truncate h) in *.
  set (frac := h - inject_Z ip).
  assert (Hf0 : 0 <= 3600000000 * frac) by (unfold frac; lra).
  assert (Hf1 : 3600000000 * frac < pow2 32).
  { assert (E : pow2 32 == 4294967296) by reflexivity.
    rewrite E. unfold frac. lra. }
  pose proof (b64_error _ 32 Hf0 Hf1) as Hr.
  pose proof (b64_nonneg _ Hf0) as Hr0.
  assert (E : pow2 (Z.max (32 - 53) (-1074)) * (1 # 2) == 1 # 4194304)
    by reflexivity.
  rewrite E in Hr. clear E.
  set (rest := b64 (3600000000 * frac)) in *.
  assert (Hip0 : (0 <= ip)%Z).
  { assert (H : inject_Z (-1) < inject_Z ip)
      by (change (inject_Z (-1)) with (-(1)); lra).
    rewrite <- Zlt_Qlt in H. lia. }
  assert (Hipq : 0 <= inject_Z (ip * 3600000000)).
  { apply inject_Z_nonneg. lia. }
  eexists. split; [reflexivity|]. split.
  - apply round_half_even_nonneg. lra.
  - pose proof (round_half_even_spec (inject_Z (ip * 3600000000) + rest)) as Hs.
    set (us := round_half_even (inject_Z (ip * 3600000000) + rest)) in *.
    rewrite inject_Z_mult in Hs. change (inject_Z 3600000000) with 3600000000 in Hs.
    apply Qabs_Qle_condition in Hs, Hr.
    apply (proj2 (Qabs_Qle_condition _ _)).
    unfold frac in Hr. split; lra.
Qed.

Lemma sample_time_near (start end_ : Z) (n : nat) (i : Z) :
  valid start -> valid end_ -> (start <= end_)%Z ->
  (end_ - start < 2 ^ 40)%Z -> (0 <= i < Z.of_nat n)%Z ->
  exists t,
    sample_time start
      (float_div (b64 (inject_Z (end_ - start) / 1000000)) 3600) n i = Ok t /\
    (start <= t <= end_)%Z /\
    (1000 * Z.abs ((t - start) * Z.of_nat n - (end_ - start) * i)
     <= 501 * Z.of_nat n)%Z.
Proof.
  intros Hs He Ho Hd Hi.
  destruct (hours_near (end_ - start) n i ltac:(lia) Hi) as [Hh0 Hnear].
  cbv zeta in Hh0, Hnear. unfold sample_time.
  set (hours := float_div _ _) in *.
  destruct (timedelta_hours_near hours Hh0) as (us & -> & Hus0 & Hus).
  set (Dq := inject_Z (end_ - start)) in *. set (I := inject_Z i) in *.
  assert (Hn0 : 0 < inject_Z (Z.of_nat n)) by (apply inject_Z_pos; lia).
  set (Nn := inject_Z (Z.of_nat n)) in *.
  assert (HD0 : 0 <= Dq) by (apply inject_Z_nonneg; lia).
  assert (HI0 : 0 <= I) by (apply inject_Z_nonneg; lia).
  assert (HIN0 : 0 <= I * / Nn).
  { apply Qmult_le_0_compat; [exact HI0|]. apply Qinv_le_0_compat. lra. }
  assert (HIN1 : I * / Nn <= 1).
  { apply Qle_shift_div_r; [exact Hn0|]. rewrite Qmult_1_l.
    unfold I, Nn. rewrite <- Zle_Qle. lia. }
  set (P := Dq * (I * / Nn)) in *.
  assert (HP1 : P <= Dq).
  { unfold P. rewrite <- (Qmult_1_r Dq) at 2.
    rewrite !(Qmult_comm Dq). apply Qmult_le_compat_r; assumption. }
  apply Qabs_Qle_condition in Hnear, Hus.
  assert (Hclose : - (501 # 1000) <= inject_Z us - P <= 501 # 1000)
    by (split; lra).
  assert (Hus1 : (us <= end_ - start)%Z).
  { assert (H : inject_Z us < inject_Z (end_ - start + 1)).
    { rewrite inject_Z_plus. fold Dq. change (inject_Z 1) with 1. lra. }
    rewrite <- Zlt_Qlt in H. lia. }
  assert (Hrange : delta_in_range us = true).
  { apply (delta_in_range_interval 0 us (end_ - start)); [lia | reflexivity|].
    apply delta_in_range_any_order; assumption. }
  unfold new_delta. rewrite Hrange. cbn [rbind].
  unfold datetime_add, validb. unfold valid in Hs, He.
  rewrite (proj2 (Z.leb_le 0 (start + us))),
    (proj2 (Z.ltb_lt (start + us) _)) by lia.
  exists (start + us)%Z. split; [reflexivity|]. split; [lia|].
  replace (start + us - start)%Z with us by lia.
  assert (EP : P * Nn == Dq * I) by (unfold P; field; lra).
  assert (Hq : Qabs (inject_Z us * Nn - Dq * I) <= (501 # 1000) * Nn).
  { rewrite <- EP.
    assert (E : inject_Z us * Nn - P * Nn == (inject_Z us - P) * Nn) by ring.
    rewrite E, Qabs_Qmult, (Qabs_pos Nn) by lra.
    apply Qmult_le_compat_r; [|lra].
    apply (proj2 (Qabs_Qle_condition _ _)). exact Hclose. }
  apply Qabs_Qle_condition in Hq. destruct Hq as [Hq1 Hq2].
  unfold Dq, I, Nn in Hq1, Hq2. clear - Hq1 Hq2.
  generalize dependent (end_ - start)%Z. intros dl Hq1 Hq2.
  assert (Z1 : (- (501 * Z.of_nat n)
                <= 1000 * (us * Z.of_nat n + - (dl * i)))%Z).
  { rewrite Zle_Qle.
    rewrite inject_Z_opp, !inject_Z_mult, inject_Z_plus, inject_Z_opp,
      !inject_Z_mult.
    change (inject_Z 1000) with 1000. change (inject_Z 501) with 501.
    lra. }
  assert (Z2 : (1000 * (us * Z.of_nat n + - (dl * i))
                <= 501 * Z.of_nat n)%Z).
  { rewrite Zle_Qle.
    rewrite !inject_Z_mult, inject_Z_plus, inject_Z_opp, !inject_Z_mult.
    change (inject_Z 1000) with 1000. change (inject_Z 501) with 501.
    lra. }
  lia.
Qed.

Lemma comprehension_exists {A B : Type} (f : A -> result B)
    (P : A -> B -> Prop) (l : list A) :
  (forall a, In a l -> exists b, f a = Ok b /\ P a b) ->
  exists bs, comprehension f l = Ok bs /\ Forall2 P l bs.
Proof.
  induction l as [|a l IH]; intros H.
  - exists []. split; [reflexivity | constructor].
  - destruct (H a (or_introl eq_refl)) as (b & Hb & Pb).
    destruct IH as (bs & Hbs & Pbs).
    { intros a' Ha'. apply H. right. exact Ha'. }
    exists (b :: bs). simpl. rewrite Hb, Hbs. split; [reflexivity|].
    constructor; assumption.
Qed.

End HeartRateError.



(** ** Figures as Base64 text *)

Module Base64Facts.
Import Base64 Base64Checks.
Local Open Scope N_scope.

Lemma below_spec (n : nat) (P : N -> bool) :
  below n P = true -> forall x, x < N.of_nat n -> P x = true.
Proof.
  unfold below. rewrite forallb_forall. intros H x Hx. apply H.
  apply in_map_iff. exists (N.to_nat x). split; [lia|]. apply in_seq. lia.
Qed.

Lemma table_round_trip (v : N) :
  v < 64 ->
  table_a2b (table_b2a v) = Some v /\
  Ascii.eqb (table_b2a v) pad = false /\
  is_ascii (table_b2a v) = true.
Proof.
  intros Hv.
  pose proof (below_spec 64
                (fun v => match table_a2b (table_b2a v) with
                          | Some v' => v' =? v
                          | None => false
                          end
                          && negb (Ascii.eqb (table_b2a v) pad)
                          && is_ascii (table_b2a v))
                ltac:(vm_compute; reflexivity) v Hv) as H.
  cbv beta in H. apply andb_true_iff in H as [H H3].
  apply andb_true_iff in H as [H1 H2].
  destruct (table_a2b (table_b2a v)) as [v'|]; [|discriminate H1].
  apply N.eqb_eq in H1. subst v'.
  apply negb_true_iff in H2. repeat split; assumption.
Qed.

Lemma pair_check_all (a b : N) : a < 256 -> b < 256 -> pair_check a b = true.
Proof.
  intros Ha Hb.
  pose proof (below_spec 256 (fun a => below 256 (pair_check a))
                ltac:(vm_compute; reflexivity) a Ha) as H.
  cbv beta in H. apply (below_spec 256 _ H b Hb).
Qed.

Lemma to_N_lt (a : Byte.byte) : Byte.to_N a < 256.
Proof. pose proof (Byte.to_N_bounded a). lia. Qed.

Lemma byte_of_to_N (a : Byte.byte) : byte_of (Byte.to_N a) = a.
Proof.
  unfold byte_of. rewrite N.mod_small by apply to_N_lt.
  rewrite Byte.of_to_N. reflexivity.
Qed.

Lemma pair_facts (a b : Byte.byte) :
  let x := Byte.to_N a in
  let y := Byte.to_N b in
  let s0 := N.shiftr x 2 in
  let s1 := N.lor (N.shiftl (N.land x 3) 4) (N.shiftr y 4) in
  let s1' := N.shiftl (N.land x 3) 4 in
  let s2 := N.lor (N.shiftl (N.land x 15) 2) (N.shiftr y 6) in
  let s2' := N.shiftl (N.land x 15) 2 in
  let s3 := N.land x 63 in
  (s0 < 64 /\ s1 < 64 /\ s1' < 64 /\ s2 < 64 /\ s2' < 64 /\ s3 < 64) /\
  (N.lor (N.shiftl s0 2) (N.shiftr s1 4) = x /\
   N.lor (N.shiftl s0 2) (N.shiftr s1' 4) = x /\
   N.land s1 15 = N.shiftr y 4) /\
  (N.lor (N.shiftl (N.shiftr x 4) 4) (N.shiftr s2 2) = x /\
   N.lor (N.shiftl (N.shiftr x 4) 4) (N.shiftr s2' 2) = x /\
   N.land s2 3 = N.shiftr y 6) /\
  N.lor (N.shiftl (N.shiftr x 6) 6) s3 = x.
Proof.
  intros x y.
  pose proof (pair_check_all x y (to_N_lt a) (to_N_lt b)) as H.
  unfold pair_check in H. cbv zeta in *.
  rewrite !andb_true_iff, !N.ltb_lt, !N.eqb_eq in H.
  tauto.
Qed.

(** One character of the alphabet read by the decoder. *)
Lemma a2b_valid (quad_pos : nat) (leftchar : N) (pads : nat) (v : N)
    (data : list ascii) :
  v < 64 ->
  a2b_from quad_pos leftchar pads (table_b2a v :: data)
  = match quad_pos with
    | 0%nat => a2b_from 1 v 0 data
    | 1%nat =>
        let* rest := a2b_from 2 (N.land v 15) 0 data in
        Ok (byte_of (N.lor (N.shiftl leftchar 2) (N.shiftr v 4)) :: rest)
    | 2%nat =>
        let* rest := a2b_from 3 (N.land v 3) 0 data in
        Ok (byte_of (N.lor (N.shiftl leftchar 4) (N.shiftr v 2)) :: rest)
    | _ =>
        let* rest := a2b_from 0 0 0 data in
        Ok (byte_of (N.lor (N.shiftl leftchar 6) v) :: rest)
    end.
Proof.
  intros Hv. destruct (table_round_trip v Hv) as (Ht & Hp & _).
  cbn [a2b_from]. rewrite Hp, Ht. reflexivity.
Qed.

Lemma list_ind3 {A : Type} (P : list A -> Prop) :
  P [] -> (forall a, P [a]) -> (forall a b, P [a; b]) ->
  (forall a b c l, P l -> P (a :: b :: c :: l)) ->
  forall l, P l.
Proof.
  intros H0 H1 H2 H3 l.
  assert (H : P l /\ (forall a, P (a :: l)) /\ (forall a b, P (a :: b :: l))).
  { induction l as [|x l (IH0 & IH1 & IH2)].
    - repeat split; auto.
    - split; [apply IH1|]. split; [intros a; apply IH2|].
      intros a b. apply H3. exact IH0. }
  apply H.
Qed.

Lemma a2b_b2a (data : list Byte.byte) :
  a2b_from 0 0 0 (b2a_base64 data) = Ok data.
Proof.
  induction data as [|a|a b|a b c l IH] using list_ind3.
  - reflexivity.
  - destruct (pair_facts a a) as ((B0 & _ & B1 & _) & (_ & E & _) & _).
    cbn [b2a_base64].
    rewrite a2b_valid by assumption. rewrite a2b_valid by assumption.
    cbn [a2b_from]. change (Ascii.eqb pad pad) with true. cbn.
    rewrite E, byte_of_to_N. reflexivity.
  - destruct (pair_facts a b) as ((B0 & B1 & _) & (E0 & _ & L1) & _).
    destruct (pair_facts b b) as ((_ & _ & _ & _ & B2 & _) & _ & (_ & E1 & _) & _).
    cbn [b2a_base64].
    rewrite a2b_valid by assumption. rewrite a2b_valid by assumption.
    rewrite a2b_valid by assumption.
    cbn [a2b_from]. change (Ascii.eqb pad pad) with true. cbn.
    rewrite E0, L1, E1, !byte_of_to_N. reflexivity.
  - destruct (pair_facts a b) as ((B0 & B1 & _) & (E0 & _ & L1) & _).
    destruct (pair_facts b c) as ((_ & _ & _ & B2 & _) & _ & (E1 & _ & L2) & _).
    destruct (pair_facts c c) as ((_ & _ & _ & _ & _ & B3) & _ & _ & E2).
    cbn [b2a_base64].
    rewrite a2b_valid by assumption. rewrite a2b_valid by assumption.
    rewrite a2b_valid by assumption. rewrite a2b_valid by assumption.
    rewrite IH. cbn.
    rewrite E0, L1, E1, L2, E2, !byte_of_to_N. reflexivity.
Qed.

Lemma b2a_shape (data : list Byte.byte) :
  forallb is_ascii (b2a_base64 data) = true /\
  Forall base64_char (b2a_base64 data) /\
  length (b2a_base64 data) = (4 * ((length data + 2) / 3))%nat.
Proof.
  assert (Hpad : is_ascii pad = true) by reflexivity.
  assert (Hchar : forall v, v < 64 ->
            is_ascii (table_b2a v) = true /\ base64_char (table_b2a v)).
  { intros v Hv. destruct (table_round_trip v Hv) as (_ & _ & Ha).
    split; [exact Ha|]. right. exists v. split; [exact Hv | reflexivity]. }
  induction data as [|a|a b|a b c l (IH1 & IH2 & IH3)] using list_ind3.
  - repeat split. constructor.
  - destruct (pair_facts a a) as ((B0 & _ & B1 & _) & _).
    destruct (Hchar _ B0) as [A0 K0]. destruct (Hchar _ B1) as [A1 K1].
    cbn [b2a_base64 forallb]. rewrite A0, A1, Hpad.
    repeat split. repeat (constructor; [first [assumption | left; reflexivity]|]).
    constructor.
  - destruct (pair_facts a b) as ((B0 & B1 & _) & _).
    destruct (pair_facts b b) as ((_ & _ & _ & _ & B2 & _) & _).
    destruct (Hchar _ B0) as [A0 K0]. destruct (Hchar _ B1) as [A1 K1].
    destruct (Hchar _ B2) as [A2 K2].
    cbn [b2a_base64 forallb]. rewrite A0, A1, A2, Hpad.
    repeat split. repeat (constructor; [first [assumption | left; reflexivity]|]).
    constructor.
  - destruct (pair_facts a b) as ((B0 & B1 & _) & _).
    destruct (pair_facts b c) as ((_ & _ & _ & B2 & _) & _).
    destruct (pair_facts c c) as ((_ & _ & _ & _ & _ & B3) & _).
    destruct (Hchar _ B0) as [A0 K0]. destruct (Hchar _ B1) as [A1 K1].
    destruct (Hchar _ B2) as [A2 K2]. destruct (Hchar _ B3) as [A3 K3].
    cbn [b2a_base64 forallb]. rewrite A0, A1, A2, A3, IH1.
    split; [reflexivity|]. split.
    + repeat (constructor; [assumption|]). exact IH2.
    + cbn [length]. rewrite IH3.
      replace (S (S (S (length l))) + 2)%nat with (length l + 2 + 1 * 3)%nat
        by lia.
      rewrite Nat.div_add by lia. lia.
Qed.

Lemma length_string_of_list_ascii (l : list ascii) :
  String.length (string_of_list_ascii l) = length l.
Proof. induction l as [|c l IH]; simpl; [reflexivity | rewrite IH; reflexivity]. Qed.

End Base64Facts.

(** X17.  What the test scripts write is what matplotlib rendered: for any
    PNG bytes, [_fig_to_base64] and [_figure_to_base64] return a text
    (decoding the Base64 bytes as UTF-8 cannot fail), and [save_png]
    applied to that text writes exactly those bytes.  Two different
    figures therefore never share a text. *)
Theorem figure_text_round_trip (png : list Byte.byte) :
  exists text,
    _fig_to_base64 png = Ok text /\
    _figure_to_base64 png = Ok text /\
    save_png text = Ok png /\
    forall png', _fig_to_base64 png' = Ok text -> png' = png.
Proof.
  unfold _fig_to_base64, _figure_to_base64, save_png,
    Base64.b64encode_text, Base64.b64decode.
  destruct (Base64Facts.b2a_shape png) as (Hascii & _).
  rewrite Hascii. eexists. split; [reflexivity|]. split; [reflexivity|].
  rewrite list_ascii_of_string_of_list_ascii, Hascii.
  split; [apply Base64Facts.a2b_b2a|].
  intros png' H'.
  destruct (Base64Facts.b2a_shape png') as (Hascii' & _).
  rewrite Hascii' in H'. injection H' as H'.
  apply (f_equal list_ascii_of_string) in H'.
  rewrite !list_ascii_of_string_of_list_ascii in H'.
  pose proof (Base64Facts.a2b_b2a png') as R'. rewrite H' in R'.
  rewrite Base64Facts.a2b_b2a in R'. injection R' as ->. reflexivity.
Qed.

(** X18.  The text of a figure of [n] bytes has [4 * ceil (n / 3)]
    characters, each a character of the Base64 alphabet or the padding
    [=]; an empty rendering gives the empty text. *)
Theorem figure_text_shape (png : list Byte.byte) (text : string) :
  _fig_to_base64 png = Ok text ->
  String.length text = (4 * ((length png + 2) / 3))%nat /\
  Forall base64_char (list_ascii_of_string text) /\
  (png = [] <-> text = EmptyString).
Proof.
  unfold _fig_to_base64, Base64.b64encode_text.
  destruct (Base64Facts.b2a_shape png) as (Hascii & Hchars & Hlen).
  rewrite Hascii. intros [= <-].
  rewrite Base64Facts.length_string_of_list_ascii,
    list_ascii_of_string_of_list_ascii.
  split; [exact Hlen|]. split; [exact Hchars|]. split.
  - intros ->. reflexivity.
  - intros H. apply (f_equal String.length) in H.
    rewrite Base64Facts.length_string_of_list_ascii, Hlen in H.
    change (String.length EmptyString) with 0%nat in H.
    destruct png as [|a l]; [reflexivity|]. exfalso.
    assert (Hq : (1 <= (length (a :: l) + 2) / 3)%nat)
      by (apply Nat.div_le_lower_bound; cbn [length]; lia).
    generalize dependent ((length (a :: l) + 2) / 3)%nat. intros q; lia.
Qed.

Lemma figure_text_shape_witness :
  String.length "iVBORw==" = (4 * ((length [Byte.x89; Byte.x50; Byte.x4e; Byte.x47] + 2) / 3))%nat /\
  Forall base64_char (list_ascii_of_string "iVBORw==") /\
  ([Byte.x89; Byte.x50; Byte.x4e; Byte.x47] = [] <-> "iVBORw==" = EmptyString).
Proof.
  apply (figure_text_shape [Byte.x89; Byte.x50; Byte.x4e; Byte.x47] "iVBORw==").
  reflexivity.
Defined.

(** ** The theme and the smoothed line of the class *)

Module ThemeFacts.

Lemma palette_lookup (m : gmap string string) (key : string) :
  m = dark_colors \/ m = light_colors ->
  key ∈ palette_keys -> is_Some (m !! key).
Proof.
  intros Hm Hkey. unfold palette_keys in Hkey.
  rewrite !elem_of_cons, elem_of_nil in Hkey.
  destruct Hm as [-> | ->];
    repeat (destruct Hkey as [->|Hkey]; [vm_compute; eauto|]);
    destruct Hkey.
Qed.

Lemma palette_dom (m : gmap string string) :
  m = dark_colors \/ m = light_colors ->
  dom m = list_to_set palette_keys.
Proof.
  intros [-> | ->]; unfold dark_colors, light_colors, dict_of, palette_keys;
    cbn; rewrite !dom_insert_L, dom_empty_L;
    apply set_eq; intros k;
    rewrite !elem_of_union, !elem_of_singleton, elem_of_empty; tauto.
Qed.

Lemma set_style_cases (t : string) :
  (t = "dark" /\ _set_style t = ("dark_background", dark_colors)) \/
  (t <> "dark" /\ _set_style t = ("seaborn-v0_8-whitegrid", light_colors)).
Proof.
  unfold _set_style. destruct (String.eqb t "dark") eqn:E.
  - left. apply String.eqb_eq in E. split; [exact E | reflexivity].
  - right. apply String.eqb_neq in E. split; [exact E | reflexivity].
Qed.

End ThemeFacts.

(** X19.  Whatever the theme, the palette [_set_style] installs has
    exactly the nine keys, so no method of the class can end in [KeyError]
    on [self.colors]: every key a method reads is there.  Only the exact
    text [dark] selects the dark palette; any other theme, also one the
    documentation does not list, gets the light palette and the
    whitegrid style. *)
Theorem palette_serves_every_method (t : string) :
  dom (colors (__init__ t)) = list_to_set palette_keys /\
  (forall method keys key,
     (method, keys) ∈ colors_read -> key ∈ keys ->
     is_Some (colors (__init__ t) !! key)) /\
  (t <> "dark" ->
   style (__init__ t) = "seaborn-v0_8-whitegrid" /\
   colors (__init__ t) = colors (__init__ "light")).
Proof.
  unfold __init__. cbn [colors style].
  assert (Hm : (_set_style t).2 = dark_colors \/ (_set_style t).2 = light_colors).
  { destruct (ThemeFacts.set_style_cases t) as [[_ ->]|[_ ->]]; auto. }
  split; [apply ThemeFacts.palette_dom; exact Hm|]. split.
  - intros method keys key Hin Hkey.
    apply ThemeFacts.palette_lookup; [exact Hm|].
    unfold colors_read in Hin. rewrite !elem_of_cons, elem_of_nil in Hin.
    unfold palette_keys.
    repeat (destruct Hin as [[= -> ->]|Hin];
            [rewrite !elem_of_cons, elem_of_nil in Hkey;
             rewrite !elem_of_cons; tauto|]).
    destruct Hin.
  - intros Hne.
    destruct (ThemeFacts.set_style_cases t) as [[E _]|[_ ->]];
      [contradiction|].
    split; reflexivity.
Qed.

Lemma palette_serves_every_method_witness :
  style (__init__ "Dark") = "seaborn-v0_8-whitegrid" /\
  colors (__init__ "Dark") = colors (__init__ "light").
Proof.
  apply (palette_serves_every_method "Dark"). discriminate.
Defined.

(** X20.  [generate_heart_rate_chart] draws the rolling mean over the
    heart rate exactly when there are at least 6 samples; the window is 5
    samples up to 119 samples and a twentieth of the samples from 120 on,
    and it is always shorter than the channel it is drawn for. *)
Theorem rolling_mean_from_six_samples (n : nat) :
  (draws_rolling_mean n = true <-> (6 <= n)%nat) /\
  ((n < 120)%nat -> rolling_window n = 5%nat) /\
  ((120 <= n)%nat -> rolling_window n = (n / 20)%nat) /\
  (draws_rolling_mean n = true -> (2 <= n - rolling_window n + 1)%nat).
Proof.
  unfold draws_rolling_mean, rolling_window.
  pose proof (Nat.div_mod_eq n 20) as Hdm.
  pose proof (Nat.mod_upper_bound n 20 ltac:(lia)) as Hr.
  set (q := (n / 20)%nat) in *.
  rewrite Nat.ltb_lt.
  repeat split; intros; lia.
Qed.

(** ** The score trend of the class *)

Module TrendFacts.

Lemma insert_by_date_perm (e : score_entry) (l : list score_entry) :
  insert_by_date e l ≡ₚ e :: l.
Proof.
  induction l as [|x l IH]; simpl; [reflexivity|].
  destruct (entry_date e <=? entry_date x); [reflexivity|].
  rewrite IH. apply Permutation_swap.
Qed.

Lemma insertion_sort_perm (l : list score_entry) : insertion_sort l ≡ₚ l.
Proof.
  induction l as [|e l IH]; simpl; [reflexivity|].
  unfold insertion_sort in *. simpl. rewrite insert_by_date_perm, IH.
  reflexivity.
Qed.

Lemma non_decreasing_cons (a : Z) (l : list Z) :
  non_decreasing (a :: l) <-> (forall b, b ∈ l -> a <= b) /\ non_decreasing l.
Proof.
  unfold non_decreasing. split.
  - intros H. split.
    + intros b Hb. apply list_elem_of_lookup_1 in Hb as [j Hj].
      apply (H 0%nat (S j) a b); [lia | reflexivity | exact Hj].
    + intros i j x y Hij Hx Hy. apply (H (S i) (S j) x y); [lia | exact Hx | exact Hy].
  - intros [Hhd Htl] i j x y Hij Hx Hy.
    destruct j as [|j]; [lia|]. simpl in Hy.
    destruct i as [|i].
    + simpl in Hx. injection Hx as <-. apply Hhd.
      eapply list_elem_of_lookup_2. exact Hy.
    + simpl in Hx. apply (Htl i j x y); [lia | exact Hx | exact Hy].
Qed.

Lemma insert_by_date_sorted (e : score_entry) (l : list score_entry) :
  non_decreasing (map entry_date l) ->
  non_decreasing (map entry_date (insert_by_date e l)).
Proof.
  induction l as [|x l IH]; intros Hs; simpl.
  - apply non_decreasing_cons. split; [|intros i j a b Hij Ha; discriminate Ha].
    intros b Hb. apply elem_of_nil in Hb. destruct Hb.
  - simpl in Hs. apply non_decreasing_cons in Hs as [Hhd Htl].
    destruct (entry_date e <=? entry_date x) eqn:E.
    + apply Z.leb_le in E. simpl. apply non_decreasing_cons. split.
      * intros b Hb. apply elem_of_cons in Hb as [->|Hb]; [exact E|].
        specialize (Hhd b Hb). lia.
      * apply non_decreasing_cons. split; assumption.
    + apply Z.leb_gt in E. simpl. apply non_decreasing_cons. split.
      * intros b Hb.
        change (b ∈ entry_date <$> insert_by_date e l) in Hb.
        rewrite insert_by_date_perm in Hb. rewrite fmap_cons in Hb.
        apply elem_of_cons in Hb as [->|Hb]; [lia|]. apply Hhd. exact Hb.
      * apply IH. exact Htl.
Qed.

Lemma insertion_sort_sorts : sorts_by_date insertion_sort.
Proof.
  intros l. split; [apply insertion_sort_perm|].
  induction l as [|e l IH]; simpl.
  - intros i j a b Hij Ha. discriminate Ha.
  - apply insert_by_date_sorted. exact IH.
Qed.

Lemma slice_from_tail {A : Type} (days : Z) (l : list A) :
  0 <= days <= Z.of_nat (length l) ->
  days <> 0 ->
  slice_from (- days) l = drop (length l - Z.to_nat days) l.
Proof.
  intros Hd Hne. unfold slice_from.
  rewrite (proj2 (Z.ltb_lt (- days) 0)) by lia.
  f_equal. lia.
Qed.

Lemma slice_from_zero {A : Type} (l : list A) : slice_from (- 0) l = l.
Proof.
  unfold slice_from. change (- 0) with 0. change (0 <? 0) with false.
  cbv iota. rewrite Z.min_l by lia. reflexivity.
Qed.

Lemma slice_from_positive {A : Type} (k : Z) (l : list A) :
  0 <= k -> slice_from k l = drop (Z.to_nat k) l.
Proof.
  intros Hk. unfold slice_from.
  rewrite (proj2 (Z.ltb_ge k 0)) by lia.
  destruct (Z.le_gt_cases k (Z.of_nat (length l))) as [H|H].
  - rewrite Z.min_l by lia. reflexivity.
  - rewrite Z.min_r by lia. rewrite Nat2Z.id.
    rewrite !drop_ge by lia. reflexivity.
Qed.

Lemma non_decreasing_drop (k : nat) (l : list Z) :
  non_decreasing l -> non_decreasing (drop k l).
Proof.
  intros H i j a b Hij Ha Hb. rewrite lookup_drop in Ha, Hb.
  apply (H (k + i)%nat (k + j)%nat a b); [lia | exact Ha | exact Hb].
Qed.

End TrendFacts.




